(** * Borders of Aeon: Battle Arena -- the combat engine of [battlearena.py]

    A shallow embedding of [BattleArenaApp.init_warrior_state] and
    [BattleArenaApp.simulate_battle], and the properties of the combat
    engine established on it.

    Numbers are Python floats, that is IEEE-754 binary64 with rounding to
    nearest even; they are modelled by the Standard Library's executable
    specification [SpecFloat] at precision 53.  Python integers that meet a
    float ([150], [20], [0], [1], ...) are converted exactly.  The engine's
    state is a list of mutable dictionaries shared by reference between the
    two team lists and their concatenation; it is modelled as one store
    (a list indexed by position) with the size of team 1 as the boundary.
    The [random] module is modelled as a sequence of draws read through a
    cursor.  A Python exception is a [Raise] result.  The rows of the CSV
    files are taken as read: every numeric column holds a float, so the
    conversions [float(v)] and the dictionary lookups cannot fail. *)

From Stdlib Require Import ZArith Bool Lia.
From Stdlib Require Import Floats.SpecFloat.
From stdpp Require Import base list strings.

Local Open Scope Z_scope.

(** ** Python floats *)

Module F64.

Definition float := spec_float.

Definition prec : Z := 53.
Definition emax : Z := 1024.

Definition fadd : float -> float -> float := SFadd prec emax.
Definition fsub : float -> float -> float := SFsub prec emax.
Definition fmul : float -> float -> float := SFmul prec emax.
(** The quotient of IEEE-754; Python raises before computing it when the
    divisor is zero, see [py_div] below. *)
Definition fquot : float -> float -> float := SFdiv prec emax.

Definition feqb : float -> float -> bool := SFeqb.
Definition fltb : float -> float -> bool := SFltb.
Definition fleb : float -> float -> bool := SFleb.

(** [float(n)] for a Python integer [n]. *)
Definition of_int (n : Z) : float := binary_normalize prec emax n 0 false.

Definition is_zero (x : float) : bool :=
  match x with S754_zero _ => true | _ => false end.

(** [x % 1 == 0]: the remainder of a float division is exact, so the test
    holds when [x] is a finite whole number. *)
Definition mod1_is_zero (x : float) : bool :=
  match x with
  | S754_zero _ => true
  | S754_finite _ m e =>
      if 0 <=? e then true else Z.pos m mod 2 ^ (- e) =? 0
  | S754_infinity _ | S754_nan => false
  end.

(** Python's [max(a, b)] keeps [a] unless [b > a]; [min(a, b)] keeps [a]
    unless [b < a]. *)
Definition py_max (a b : float) : float := if fltb a b then b else a.
Definition py_min (a b : float) : float := if fltb b a then b else a.

(** The literals of the source, as the nearest binary64 numbers. *)
Definition f0 : float := S754_zero false.
Definition f1 : float := S754_finite false 4503599627370496 (-52).
Definition f0_05 : float := S754_finite false 7205759403792794 (-57).
Definition f0_06 : float := S754_finite false 8646911284551352 (-57).
Definition f0_1 : float := S754_finite false 7205759403792794 (-56).
Definition f0_2 : float := S754_finite false 7205759403792794 (-55).
Definition f0_25 : float := S754_finite false 4503599627370496 (-54).
Definition f0_5 : float := S754_finite false 4503599627370496 (-53).
Definition f1_5 : float := S754_finite false 6755399441055744 (-52).

End F64.

Import F64.

Declare Scope float_scope.
Delimit Scope float_scope with F.
Bind Scope float_scope with float.
Notation "x + y" := (fadd x y) : float_scope.
Notation "x - y" := (fsub x y) : float_scope.
Notation "x * y" := (fmul x y) : float_scope.
Notation "x / y" := (fquot x y) : float_scope.
Notation "x =? y" := (feqb x y) : float_scope.
Notation "x <? y" := (fltb x y) : float_scope.
Notation "x <=? y" := (fleb x y) : float_scope.

(** ** Exceptions *)

(** [ZeroDivisionError] and [UnboundLocalError] are Python's.
    [FuelExhausted] is the model's own: the loop of the battle is defined
    by recursion on a number of passes, and this is what it returns when
    that number does not suffice (it always does). *)
Inductive exn : Set :=
| ZeroDivisionError
| UnboundLocalError
| FuelExhausted.

Inductive result (A : Type) : Type :=
| Ok (a : A)
| Raise (e : exn).
Arguments Ok {A} a.
Arguments Raise {A} e.

Definition bind {A B : Type} (m : result A) (k : A -> result B) : result B :=
  match m with
  | Ok a => k a
  | Raise e => Raise e
  end.

Notation "'do' x <- m ; k" := (bind m (fun x => k))
  (at level 10, x name, m at level 100, k at level 200).
Notation "'do' ' p <- m ; k" := (bind m (fun p => k))
  (at level 10, p pattern, m at level 100, k at level 200).

(** Python's [x / y] on floats. *)
Definition py_div (x y : float) : result float :=
  if is_zero y then Raise ZeroDivisionError else Ok (x / y)%F.

Fixpoint mapM {A B : Type} (f : A -> result B) (l : list A) : result (list B) :=
  match l with
  | [] => Ok []
  | a :: l' => do b <- f a; do bs <- mapM f l'; Ok (b :: bs)
  end.

(** ** Data model *)

(** A row of [warriors.csv], its numeric columns already read by [float]. *)
Record warrior : Type := {
  w_name : string;
  w_title : string;
  w_type : string;
  w_tough : float;
  w_inctough : float;
  w_dex : float;
  w_incdex : float;
  w_smart : float;
  w_incsmart : float;
  w_min_dmg : float;
  w_max_dmg : float;
  w_attack_time : float
}.

(** A row of [items.csv]. *)
Record item : Type := {
  i_name : string;
  add_tough : float;
  add_dex : float;
  add_smart : float;
  add_hp : float;
  add_hp_regen : float;
  add_dmg : float;
  add_defense : float;
  add_attack_speed : float
}.

(** One member of a team: [{'warrior': warrior, 'item': item}], the item
    being [None] when nothing is equipped. *)
Record warrior_data : Type := {
  wd_warrior : warrior;
  wd_item : option item
}.

(** The dictionary built by [init_warrior_state]. *)
Record combatant : Type := {
  name : string;
  type : string;
  hp : float;
  max_hp : float;
  hp_regen : float;
  defense : float;
  min_dmg : float;
  max_dmg : float;
  cooldown : float;
  next_attack : float;
  stun_end : float;
  stun_immune : float;
  stun_diminish : float
}.

Definition set_hp (v : float) (c : combatant) : combatant :=
  {| name := name c; type := type c; hp := v; max_hp := max_hp c;
     hp_regen := hp_regen c; defense := defense c; min_dmg := min_dmg c;
     max_dmg := max_dmg c; cooldown := cooldown c;
     next_attack := next_attack c; stun_end := stun_end c;
     stun_immune := stun_immune c; stun_diminish := stun_diminish c |}.

Definition set_next_attack (v : float) (c : combatant) : combatant :=
  {| name := name c; type := type c; hp := hp c; max_hp := max_hp c;
     hp_regen := hp_regen c; defense := defense c; min_dmg := min_dmg c;
     max_dmg := max_dmg c; cooldown := cooldown c;
     next_attack := v; stun_end := stun_end c;
     stun_immune := stun_immune c; stun_diminish := stun_diminish c |}.

Definition set_stun (e i d : float) (c : combatant) : combatant :=
  {| name := name c; type := type c; hp := hp c; max_hp := max_hp c;
     hp_regen := hp_regen c; defense := defense c; min_dmg := min_dmg c;
     max_dmg := max_dmg c; cooldown := cooldown c;
     next_attack := next_attack c; stun_end := e;
     stun_immune := i; stun_diminish := d |}.

(** The lines of the battle log; the text of each line is a function of the
    fields kept here. *)
Inductive event : Type :=
| EvTime (time : float)
| EvRegen (who : string) (regen : float)
| EvMiss (attacker target : string)
| EvWeakSpot (attacker target : string)
| EvStun (attacker target : string) (stun_duration : float)
| EvDamage (attacker target : string) (final_damage base_damage : float)
| EvDefeated (target : string).

Inductive outcome : Set :=
| Team1Victory
| Team2Victory
| Draw.

(** ** The random source *)

(** One value drawn from [random]: [random.choice] reads it as an index
    (reduced modulo the number of alternatives), [random.random] and
    [random.uniform] read it as a float of [[0, 1)]. *)
Record draw : Type := {
  d_index : nat;
  d_unit : float
}.

(** The values the random source delivers, in the order of the calls. *)
Definition random_source : Type := nat -> draw.

(** ** [init_warrior_state] *)

Definition init_warrior_state (wd : warrior_data) : result combatant :=
  let warrior := wd_warrior wd in
  let item := wd_item wd in
  let tough := match item with
               | Some it => (w_tough warrior + add_tough it)%F
               | None => w_tough warrior end in
  let dex := match item with
             | Some it => (w_dex warrior + add_dex it)%F
             | None => w_dex warrior end in
  let smart := match item with
               | Some it => (w_smart warrior + add_smart it)%F
               | None => w_smart warrior end in
  let base_hp := of_int 150 in
  let hp0 := (base_hp + tough * of_int 20)%F in
  let hp_regen0 := (f0_25 + tough * f0_05)%F in
  let defense0 := (dex * of_int 2)%F in
  let attack_speed0 := dex in
  let hp1 := match item with Some it => (hp0 + add_hp it)%F | None => hp0 end in
  let hp_regen1 :=
    match item with Some it => (hp_regen0 + add_hp_regen it)%F | None => hp_regen0 end in
  let defense1 :=
    match item with Some it => (defense0 + add_defense it)%F | None => defense0 end in
  let attack_speed1 :=
    match item with
    | Some it => (attack_speed0 + add_attack_speed it)%F
    | None => attack_speed0 end in
  let min_dmg0 := (w_min_dmg warrior + smart * of_int 3)%F in
  let max_dmg0 := (w_max_dmg warrior + smart * of_int 3)%F in
  let min_dmg1 :=
    match item with Some it => (min_dmg0 + add_dmg it)%F | None => min_dmg0 end in
  let max_dmg1 :=
    match item with Some it => (max_dmg0 + add_dmg it)%F | None => max_dmg0 end in
  let base_cooldown := w_attack_time warrior in
  (* the divisor 100 is not zero, only the outer division can raise *)
  do actual_cooldown <-
     py_div base_cooldown (of_int 1 + attack_speed1 / of_int 100)%F;
  Ok {| name := w_name warrior;
        type := w_type warrior;
        hp := hp1;
        max_hp := hp1;
        hp_regen := hp_regen1;
        defense := defense1;
        min_dmg := min_dmg1;
        max_dmg := max_dmg1;
        cooldown := actual_cooldown;
        next_attack := actual_cooldown;
        stun_end := of_int 0;
        stun_immune := of_int 0;
        stun_diminish := f1 |}.

(** ** [simulate_battle]: one attack *)

(** The mutable part of a battle while a tick is processed: the store of
    the combatants' dictionaries (team 1 first, then team 2), the number of
    values read from the random source so far, and [current_events]. *)
Record sim : Type := {
  actors : list combatant;
  cursor : nat;
  current_events : list event
}.

Definition alive (c : combatant) : bool := (f0 <? hp c)%F.

(** [==] on two state dictionaries: the same keys, and equal values. *)
Definition combatant_eqb (a b : combatant) : bool :=
  String.eqb (name a) (name b) && String.eqb (type a) (type b) &&
  (hp a =? hp b)%F && (max_hp a =? max_hp b)%F &&
  (hp_regen a =? hp_regen b)%F && (defense a =? defense b)%F &&
  (min_dmg a =? min_dmg b)%F && (max_dmg a =? max_dmg b)%F &&
  (cooldown a =? cooldown b)%F && (next_attack a =? next_attack b)%F &&
  (stun_end a =? stun_end b)%F && (stun_immune a =? stun_immune b)%F &&
  (stun_diminish a =? stun_diminish b)%F.

(** [attacker in team1_states], for the attacker at position [i] of the
    store: a member of team 1 is found by identity, a member of team 2 is
    found when a dictionary of team 1 compares equal to it. *)
Definition in_team1 (n1 i : nat) (ws : list combatant) : bool :=
  if (i <? n1)%nat then true
  else match ws !! i with
       | Some attacker => existsb (combatant_eqb attacker) (take n1 ws)
       | None => false
       end.

(** The positions of [targets], and of [alive_targets]. *)
Definition targets (n1 i : nat) (ws : list combatant) : list nat :=
  if in_team1 n1 i ws then seq n1 (length ws - n1) else seq 0 n1.

Definition alive_at (ws : list combatant) (j : nat) : bool :=
  match ws !! j with
  | Some t => alive t
  | None => false
  end.

Definition alive_targets (n1 i : nat) (ws : list combatant) : list nat :=
  List.filter (alive_at ws) (targets n1 i ws).

(** [random.uniform(a, b)] is [a + (b - a) * random()]. *)
Definition uniform (a b u : float) : float := (a + (b - a) * u)%F.

(** What the type-advantage block leaves in [miss], [bonus_dmg], [stun]. *)
Record matchup : Type := {
  miss : bool;
  bonus_dmg : float;
  stun : bool
}.

Definition no_effect : matchup :=
  {| miss := false; bonus_dmg := f1; stun := false |}.

Definition push (e : event) (s : sim) : sim :=
  {| actors := actors s; cursor := cursor s;
     current_events := current_events s ++ [e] |}.

Definition advance (s : sim) : sim :=
  {| actors := actors s; cursor := S (cursor s);
     current_events := current_events s |}.

Definition update (j : nat) (f : combatant -> combatant) (s : sim) : sim :=
  {| actors := alter f j (actors s); cursor := cursor s;
     current_events := current_events s |}.

(** The stun lands on [target] at [time]. *)
Definition apply_stun (time : float) (target : combatant) : combatant :=
  let stun_duration := stun_diminish target in
  set_stun (time + stun_duration)%F
           (time + stun_duration + of_int 1)%F
           (stun_diminish target * f0_5)%F
           target.

(** "Process type advantages", for the attacker at position [i] and the
    target at position [j]. *)
Definition type_advantage (rand : random_source) (time : float)
    (attacker target : combatant) (j : nat) (s : sim) : matchup * sim :=
  if String.eqb (type attacker) "Smart" && String.eqb (type target) "Dexterous" then
    let u := d_unit (rand (cursor s)) in
    if (u <? f0_2)%F then
      ({| miss := true; bonus_dmg := f1; stun := false |},
       push (EvMiss (name attacker) (name target)) (advance s))
    else (no_effect, advance s)
  else if String.eqb (type attacker) "Smart" && String.eqb (type target) "Tough" then
    let u := d_unit (rand (cursor s)) in
    if (u <? f0_2)%F then
      ({| miss := false; bonus_dmg := f1_5; stun := false |},
       push (EvWeakSpot (name attacker) (name target)) (advance s))
    else (no_effect, advance s)
  else if String.eqb (type attacker) "Tough" && String.eqb (type target) "Dexterous" then
    let u := d_unit (rand (cursor s)) in
    if (u <? f0_2)%F && (stun_immune target <=? time)%F then
      ({| miss := false; bonus_dmg := f1; stun := true |},
       push (EvStun (name attacker) (name target) (stun_diminish target))
            (update j (apply_stun time) (advance s)))
    else (no_effect, advance s)
  else (no_effect, s).

(** "Calculate damage". *)
Definition damage_reduction (defense : float) : result float :=
  py_div (f0_06 * defense)%F (of_int 1 + f0_06 * defense)%F.

Definition final_damage (base_damage reduction bonus : float) : float :=
  py_max (of_int 1) (base_damage * (of_int 1 - reduction) * bonus)%F.

Definition resolve_damage (base_damage defense bonus : float) : result float :=
  do reduction <- damage_reduction defense;
  Ok (final_damage base_damage reduction bonus).

(** The attack lands: roll, reduce, subtract, report. *)
Definition hit (rand : random_source) (attacker target : combatant)
    (j : nat) (bonus : float) (s : sim) : result sim :=
  let base_damage :=
    uniform (min_dmg attacker) (max_dmg attacker) (d_unit (rand (cursor s))) in
  do dmg <- resolve_damage base_damage (defense target) bonus;
  let s1 := update j (fun t => set_hp (hp t - dmg)%F t) (advance s) in
  let s2 := push (EvDamage (name attacker) (name target) dmg base_damage) s1 in
  Ok (match actors s2 !! j with
      | Some t => if (hp t <=? f0)%F then push (EvDefeated (name target)) s2 else s2
      | None => s2
      end).

(** The attacker at position [i] attacks the target at position [j]. *)
Definition resolve_attack (rand : random_source) (time : float)
    (i j : nat) (attacker target : combatant) (s : sim) : result sim :=
  let '(m, s1) := type_advantage rand time attacker target j s in
  do s2 <- (if miss m then Ok s1 else hit rand attacker target j (bonus_dmg m) s1);
  Ok (update i (fun a => set_next_attack (time + cooldown a)%F a) s2).

(** The body of [for attacker in team1_states + team2_states], for the
    attacker at position [i] of the store. *)
Definition attack_turn (rand : random_source) (n1 : nat) (time : float)
    (i : nat) (s : sim) : result sim :=
  match actors s !! i with
  | None => Ok s
  | Some attacker =>
      if (hp attacker <=? f0)%F then Ok s
      else if (time <? stun_end attacker)%F then Ok s
      else if (next_attack attacker <=? time)%F then
        let candidates := alive_targets n1 i (actors s) in
        match candidates with
        | [] => Ok s
        | j0 :: _ =>
            let j := nth (d_index (rand (cursor s)) mod length candidates)%nat
                         candidates j0 in
            match actors s !! j with
            | Some target => resolve_attack rand time i j attacker target (advance s)
            | None => Ok s (* no such case: a candidate is a position of the store *)
            end
        end
      else Ok s
  end.

Fixpoint attack_all (rand : random_source) (n1 : nat) (time : float)
    (order : list nat) (s : sim) : result sim :=
  match order with
  | [] => Ok s
  | i :: order' =>
      do s' <- attack_turn rand n1 time i s;
      attack_all rand n1 time order' s'
  end.

(** ** [simulate_battle]: regeneration, tick, loop *)

Definition regen_one (w : combatant) : combatant * list event :=
  if (f0 <? hp w)%F && (hp w <? max_hp w)%F then
    let regen := py_min (hp_regen w) (max_hp w - hp w)%F in
    (set_hp (hp w + regen)%F w, [EvRegen (name w) regen])
  else (w, []).

Fixpoint regen_all (ws : list combatant) : list combatant * list event :=
  match ws with
  | [] => ([], [])
  | w :: ws' =>
      let '(w', ev) := regen_one w in
      let '(ws'', evs) := regen_all ws' in
      (w' :: ws'', ev ++ evs)
  end.

(** One pass through the body of the [while] loop, up to the victory check. *)
Definition tick (rand : random_source) (n1 : nat) (time : float)
    (ws : list combatant) (cur : nat) : result sim :=
  let '(ws1, ev1) := if mod1_is_zero time then regen_all ws else (ws, []) in
  attack_all rand n1 time (seq 0 (length ws1))
    {| actors := ws1; cursor := cur; current_events := ev1 |}.

Definition any_alive (ws : list combatant) : bool := existsb alive ws.

Definition max_time : float := of_int 300.

(** What is left when the loop is over. *)
Record final : Type := {
  f_actors : list combatant;
  f_cursor : nat;
  f_events : list event;
  f_team1_alive : bool;
  f_team2_alive : bool;
  f_ticks : nat;
  f_time : float;
  f_history : list (list combatant)
}.

(** The [while time < max_time] loop.  [flags] holds [team1_alive] and
    [team2_alive] once they are bound, [ticks] counts the passes through
    the body and [history] records the store after each pass, the latest
    first.  The recursion is on [fuel], one unit per pass. *)
Fixpoint battle_loop (rand : random_source) (n1 : nat) (fuel : nat)
    (time : float) (ws : list combatant) (cur : nat) (events : list event)
    (flags : option (bool * bool)) (ticks : nat)
    (history : list (list combatant)) : result final :=
  if (time <? max_time)%F then
    match fuel with
    | O => Raise FuelExhausted
    | S fuel' =>
        do s <- tick rand n1 time ws cur;
        let events' :=
          match current_events s with
          | [] => events
          | _ :: _ => events ++ EvTime time :: current_events s
          end in
        let team1_alive := any_alive (take n1 (actors s)) in
        let team2_alive := any_alive (drop n1 (actors s)) in
        if negb team1_alive || negb team2_alive then
          Ok {| f_actors := actors s; f_cursor := cursor s; f_events := events';
                f_team1_alive := team1_alive; f_team2_alive := team2_alive;
                f_ticks := S ticks; f_time := time;
                f_history := actors s :: history |}
        else
          battle_loop rand n1 fuel' (time + f0_1)%F (actors s) (cursor s) events'
                      (Some (team1_alive, team2_alive)) (S ticks)
                      (actors s :: history)
    end
  else
    match flags with
    | None => Raise UnboundLocalError
    | Some (team1_alive, team2_alive) =>
        Ok {| f_actors := ws; f_cursor := cur; f_events := events;
              f_team1_alive := team1_alive; f_team2_alive := team2_alive;
              f_ticks := ticks; f_time := time; f_history := history |}
    end.

(** "Add victory declaration". *)
Definition declare (team1_alive team2_alive : bool) : outcome :=
  if negb team2_alive then Team1Victory
  else if negb team1_alive then Team2Victory
  else Draw.

(** The battle report.  The text returned by the source is made of the
    initial stats, the event log and the victory declaration; the final
    states, the store after each tick (the latest first), the number of
    ticks and the number of values read from the random source are kept
    beside them to state properties of the run. *)
Record report : Type := {
  initial_stats : list combatant;
  attack_speeds : list float;
  events : list event;
  declared : outcome;
  final_states : list combatant;
  history : list (list combatant);
  team1_size : nat;
  ticks : nat;
  draws : nat
}.

(** More passes than the loop can make. *)
Definition fuel : nat := 4096.

Definition simulate_battle (team1 team2 : list warrior_data)
    (rand : random_source) : result report :=
  do team1_states <- mapM init_warrior_state team1;
  do team2_states <- mapM init_warrior_state team2;
  let states := team1_states ++ team2_states in
  do speeds <- mapM (fun state => py_div (of_int 1) (cooldown state)) states;
  do fin <- battle_loop rand (length team1_states) fuel (of_int 0)
                        states 0%nat [] None 0%nat [];
  Ok {| initial_stats := states;
        attack_speeds := speeds;
        events := f_events fin;
        declared := declare (f_team1_alive fin) (f_team2_alive fin);
        final_states := f_actors fin;
        history := f_history fin;
        team1_size := length team1_states;
        ticks := f_ticks fin;
        draws := f_cursor fin |}.

(** * Auxiliary notions used in the statements *)

(** Zero of either sign, a positive number, plus infinity, or a NaN. *)
Definition not_negative (x : float) : bool :=
  match x with
  | S754_finite s _ _ | S754_infinity s => negb s
  | S754_zero _ | S754_nan => true
  end.

(** ** The formulas of the specification *)

(** Section 4.1: the bonus of an item, 0 when no item is equipped. *)
Definition bonus (it : option item) (field : item -> float) : float :=
  match it with
  | Some i => field i
  | None => f0
  end.

Definition effective_toughness (wd : warrior_data) : float :=
  (w_tough (wd_warrior wd) + bonus (wd_item wd) add_tough)%F.

Definition effective_dexterity (wd : warrior_data) : float :=
  (w_dex (wd_warrior wd) + bonus (wd_item wd) add_dex)%F.

Definition effective_intelligence (wd : warrior_data) : float :=
  (w_smart (wd_warrior wd) + bonus (wd_item wd) add_smart)%F.

Definition spec_max_hp (wd : warrior_data) : float :=
  (of_int 150 + effective_toughness wd * of_int 20 + bonus (wd_item wd) add_hp)%F.

Definition spec_hp_regen (wd : warrior_data) : float :=
  (f0_25 + effective_toughness wd * f0_05 + bonus (wd_item wd) add_hp_regen)%F.

Definition spec_defense (wd : warrior_data) : float :=
  (effective_dexterity wd * of_int 2 + bonus (wd_item wd) add_defense)%F.

Definition attack_speed_stat (wd : warrior_data) : float :=
  (effective_dexterity wd + bonus (wd_item wd) add_attack_speed)%F.

Definition spec_min_dmg (wd : warrior_data) : float :=
  (w_min_dmg (wd_warrior wd) + effective_intelligence wd * of_int 3
   + bonus (wd_item wd) add_dmg)%F.

Definition spec_max_dmg (wd : warrior_data) : float :=
  (w_max_dmg (wd_warrior wd) + effective_intelligence wd * of_int 3
   + bonus (wd_item wd) add_dmg)%F.

Definition spec_cooldown_divisor (wd : warrior_data) : float :=
  (of_int 1 + attack_speed_stat wd / of_int 100)%F.

Definition spec_cooldown (wd : warrior_data) : float :=
  (w_attack_time (wd_warrior wd) / spec_cooldown_divisor wd)%F.

(** The same number: the same float, or two zeros (which may differ in
    sign, as [x] and [x + 0] do when [x] is [-0.0]). *)
Definition same_number (x y : float) : Prop :=
  x = y \/ (is_zero x = true /\ is_zero y = true).

(** Section 4.3: the damage formula. *)
Definition spec_reduction (defense : float) : float :=
  (f0_06 * defense / (f1 + f0_06 * defense))%F.

(** The larger of two numbers: the second when it exceeds the first. *)
Definition spec_max (a b : float) : float :=
  if (a <? b)%F then b else a.

Definition spec_final_damage (rolledDamage defense damageMultiplier : float) : float :=
  spec_max f1 (rolledDamage * (f1 - spec_reduction defense) * damageMultiplier)%F.

(** ** Warriors, items and random sources of the examples *)

Definition mk_warrior (n t : string)
    (tough dex smart lo hi attack_time : float) : warrior :=
  {| w_name := n; w_title := ""; w_type := t;
     w_tough := tough; w_inctough := f0;
     w_dex := dex; w_incdex := f0;
     w_smart := smart; w_incsmart := f0;
     w_min_dmg := lo; w_max_dmg := hi; w_attack_time := attack_time |}.

Definition unequipped (w : warrior) : warrior_data :=
  {| wd_warrior := w; wd_item := None |}.

Definition equipped (w : warrior) (it : item) : warrior_data :=
  {| wd_warrior := w; wd_item := Some it |}.

(** A random source that always delivers index [i] and the float [u]. *)
Definition constant_source (i : nat) (u : float) : random_source :=
  fun _ => {| d_index := i; d_unit := u |}.

(** The warrior of the scenario of section 8 of the specification: Tough,
    toughness 5, damage 10 to 15, base attack time 2. *)
Definition scenario_warrior (n : string) : warrior :=
  mk_warrior n "Tough" (of_int 5) f0 f0 (of_int 10) (of_int 15) (of_int 2).

(** An item that slows its bearer down to a standstill. *)
Definition lead_boots : item :=
  {| i_name := "Lead Boots"; add_tough := f0; add_dex := f0; add_smart := f0;
     add_hp := of_int 25; add_hp_regen := f0; add_dmg := f0;
     add_defense := of_int 3; add_attack_speed := of_int (-100) |}.

(** ** Type pairs *)

Definition pair_is (attacker target : combatant) (a t : string) : Prop :=
  type attacker = a /\ type target = t.

(** None of the three pairs with a special effect. *)
Definition plain_pair (attacker target : combatant) : Prop :=
  ~ pair_is attacker target "Smart" "Dexterous" /\
  ~ pair_is attacker target "Smart" "Tough" /\
  ~ pair_is attacker target "Tough" "Dexterous".

(** An attacker and a defender for the examples of one attack. *)
Definition sample_combatant (n t : string) (points : Z) : combatant :=
  {| name := n; type := t; hp := of_int points; max_hp := of_int points;
     hp_regen := f0_5; defense := f0;
     min_dmg := of_int 10; max_dmg := of_int 15;
     cooldown := of_int 2; next_attack := of_int 2;
     stun_end := f0; stun_immune := f0; stun_diminish := f1 |}.

Definition sample_sim (a b : combatant) : sim :=
  {| actors := [a; b]; cursor := 0%nat; current_events := [] |}.

Definition smart_a : combatant := sample_combatant "A" "Smart" 250.
Definition tough_a : combatant := sample_combatant "A" "Tough" 250.
Definition dex_b : combatant := sample_combatant "B" "Dexterous" 250.

(** The type-advantage draw succeeds: every float drawn is 0. *)
Definition lucky : random_source := constant_source 0 f0.

(** ** The clock *)

(** The value of [time] at the start of pass [k] of the loop. *)
Definition clock (k : nat) : float :=
  Nat.iter k (fun t => (t + f0_1)%F) (of_int 0).

(** The loop condition holds at [n] consecutive values of the clock, each
    not below the one before. *)
Fixpoint clock_ok (n : nat) (t : float) : bool :=
  match n with
  | O => true
  | S n' =>
      (t <? max_time)%F && (t <=? t + f0_1)%F && clock_ok n' (t + f0_1)%F
  end.

(** The team the attacker at position [i] fights against. *)
Definition opposing_team (n1 i : nat) (ws : list combatant) : list combatant :=
  if (i <? n1)%nat then drop n1 ws else take n1 ws.

Definition fallen_b : combatant := set_hp (of_int (-5)) dex_b.

(** ** What a run shows *)

(** The run returned a report, and the report satisfies [P]. *)
Definition run_shows (r : result report) (P : report -> Prop) : Prop :=
  match r with
  | Ok x => P x
  | Raise _ => False
  end.

(** The teams of a report, at the end of the battle. *)
Definition final_team1 (r : report) : list combatant :=
  take (team1_size r) (final_states r).

Definition final_team2 (r : report) : list combatant :=
  drop (team1_size r) (final_states r).

(** The times of the ticks that left events in a log. *)
Definition timestamps (evs : list event) : list float :=
  flat_map (fun e => match e with EvTime t => [t] | _ => [] end) evs.

(** Every tick recorded in the log is one of the first [k] passes of the
    loop, at the time the clock shows then. *)
Definition stamped_before (k : nat) (evs : list event) : Prop :=
  Forall (fun t => exists j : nat, (j < k)%nat /\ t = clock j) (timestamps evs).

(** What holds of the loop when it is over. *)
Definition loop_post (n1 bound : nat) (x : result final) : Prop :=
  match x with
  | Ok fin =>
      (0 < f_ticks fin <= bound)%nat /\
      f_team1_alive fin = any_alive (take n1 (f_actors fin)) /\
      f_team2_alive fin = any_alive (drop n1 (f_actors fin)) /\
      (f_team1_alive fin && f_team2_alive fin = true -> f_ticks fin = bound) /\
      head (f_history fin) = Some (f_actors fin) /\
      length (f_history fin) = f_ticks fin /\
      stamped_before (f_ticks fin) (f_events fin)
  | Raise e => e = ZeroDivisionError
  end.

(** Two fighters that never get to attack within the time limit. *)
Definition idle (n : string) : warrior_data :=
  unequipped (mk_warrior n "Tough" f0 f0 f0 (of_int 10) (of_int 15) (of_int 1000)).

Definition empty_report : report :=
  {| initial_stats := []; attack_speeds := []; events := []; declared := Draw;
     final_states := []; history := []; team1_size := 0; ticks := 0; draws := 0 |}.

(** The report of a run that returned one. *)
Definition report_of (x : result report) : report :=
  match x with
  | Ok r => r
  | Raise _ => empty_report
  end.

(** ** Double knockout *)

(** The store at the start of the last pass of the loop. *)
Definition previous_store (r : report) : list combatant :=
  match history r with
  | _ :: before :: _ => before
  | _ => initial_stats r
  end.

(** Every member that was alive before the pass is at hp <= 0 after it,
    and no other member is alive. *)
Fixpoint brought_down (before after : list combatant) : bool :=
  match before, after with
  | b :: before', a :: after' =>
      (if alive b then (hp a <=? f0)%F else negb (alive a)) &&
      brought_down before' after'
  | [], [] => true
  | _, _ => false
  end.

(** In the last pass of the loop the last living members of both teams are
    brought to hp <= 0. *)
Definition double_knockout (r : report) : bool :=
  let n1 := team1_size r in
  let before := previous_store r in
  let after := final_states r in
  any_alive (take n1 before) && any_alive (drop n1 before) &&
  brought_down (take n1 before) (take n1 after) &&
  brought_down (drop n1 before) (drop n1 after).

(** The floats 2^1023 and 3 * 2^1022: finite, but 20 * 2^1023 and
    1.5 * (3 * 2^1022) are beyond the largest binary64 number. *)
Definition two_1023 : float := S754_finite false 4503599627370496 971.
Definition three_1022 : float := S754_finite false 6755399441055744 971.

(** A 3 v 3 battle that ends in a double knockout.  Team 1: a Smart
    fighter S who hits for 3 * 2^1022 every tick, and two bystanders.
    Team 2: a Tough fighter V with 2^1023 toughness (infinite HP) who hits
    for 1000 every tick, and two bystanders. *)
Definition ko_S : warrior_data :=
  unequipped (mk_warrior "S" "Smart" f0 f0 f0 three_1022 three_1022 f0_05).
Definition ko_P : warrior_data :=
  unequipped (mk_warrior "P" "Smart" f0 f0 f0 f0 f0 (of_int 1000)).
Definition ko_Q : warrior_data :=
  unequipped (mk_warrior "Q" "Smart" f0 f0 f0 f0 f0 (of_int 1000)).
Definition ko_V : warrior_data :=
  unequipped (mk_warrior "V" "Tough" two_1023 f0 f0 (of_int 1000) (of_int 1000) f0_05).
Definition ko_B : warrior_data :=
  unequipped (mk_warrior "B" "Smart" f0 f0 f0 f0 f0 (of_int 1000)).
Definition ko_W : warrior_data :=
  unequipped (mk_warrior "W" "Smart" f0 f0 f0 f0 f0 (of_int 1000)).

(** The random source of that battle: every float drawn is 0; the fourth
    and the eighth value drawn pick the second living target, all other
    choices the first. *)
Definition ko_source : random_source :=
  fun k => {| d_index := match k with 3%nat | 7%nat => 1 | _ => 0 end;
              d_unit := f0 |}.

(** ** Teams of different sizes *)


(** A fighter who attacks once a second. *)
Definition brawler (n : string) : warrior_data :=
  unequipped (mk_warrior n "Tough" (of_int 5) f0 f0 (of_int 10) (of_int 15) (of_int 1)).

(** ** Agreement of random sources *)

(** The first [n] values of the two sources are the same. *)
Definition agree (n : nat) (r1 r2 : random_source) : Prop :=
  forall k : nat, (k < n)%nat -> r1 k = r2 k.

(** A step of the simulation that reads the random source from the cursor
    on, and nothing of it beyond the cursor it leaves. *)
Definition local_step (f : random_source -> sim -> result sim) : Prop :=
  forall (rand : random_source) (s s' : sim),
    f rand s = Ok s' ->
    (cursor s <= cursor s')%nat /\
    forall rand' : random_source, agree (cursor s') rand rand' -> f rand' s = Ok s'.

(** [ko_source] up to its thirteenth value, something else after it. *)
Definition ko_source_then_other : random_source :=
  fun k => if (k <? 13)%nat then ko_source k else {| d_index := 5; d_unit := f0_5 |}.

(** ** Regeneration *)

(** The passes of the loop, among [n] passes from pass [k] on at time [t],
    at which [time % 1 == 0] holds. *)
Fixpoint whole_ticks (n k : nat) (t : float) : list nat :=
  match n with
  | O => []
  | S n' =>
      (if mod1_is_zero t then [k] else []) ++ whole_ticks n' (S k) (t + f0_1)%F
  end.

Definition exceeds_max (c : combatant) : bool := (max_hp c <? hp c)%F.

(** One unit in the last place of a float between 128 and 256: 2^-45. *)
Definition ulp_150 : float := S754_finite false 4503599627370496 (-97).

(** A fighter who hits for 50 - 1.5 * 2^-45 (49.99999999999996) every five
    seconds, and one with 150 + 2^-45 HP (150.00000000000003) who
    regenerates up to 1000.25 HP and never gets to attack. *)
Definition rounding_A : warrior_data :=
  unequipped (mk_warrior "A" "Tough" f0 f0 f0
                (S754_finite false 7036874417766394 (-47))
                (S754_finite false 7036874417766394 (-47)) (of_int 5)).

Definition charm : item :=
  {| i_name := "Charm"; add_tough := f0; add_dex := f0; add_smart := f0;
     add_hp := ulp_150; add_hp_regen := of_int 1000; add_dmg := f0;
     add_defense := f0; add_attack_speed := f0 |}.

Definition rounding_D : warrior_data :=
  equipped (mk_warrior "D" "Tough" f0 f0 f0 f0 f0 (of_int 1000)) charm.

(** ** Stuns in the event log *)

(** The stuns of a log, each with the time of its tick and its duration. *)
Fixpoint stun_log (now : float) (evs : list event) : list (float * float) :=
  match evs with
  | [] => []
  | EvTime t :: evs' => stun_log t evs'
  | EvStun _ _ d :: evs' => (now, d) :: stun_log now evs'
  | _ :: evs' => stun_log now evs'
  end.

(** A Tough fighter who attacks every two seconds, and a Dexterous one
    with 1150 HP who never gets to attack. *)
Definition stunner : warrior_data :=
  unequipped (mk_warrior "T" "Tough" (of_int 5) f0 f0 (of_int 10) (of_int 15) (of_int 2)).

Definition stunned : warrior_data :=
  unequipped (mk_warrior "X" "Dexterous" (of_int 50) f0 f0 f1 f1 (of_int 1000)).

(** * Definitions for the properties of the whole battle *)

(** The entries of a state dictionary that [simulate_battle] only reads. *)
Definition static (c : combatant)
  : string * string * float * float * float * float * float * float :=
  (name c, type c, max_hp c, hp_regen c, defense c, min_dmg c, max_dmg c,
   cooldown c).

Definition same_static (before after : list combatant) : Prop :=
  map static after = map static before.

(** Whoever is at hp <= 0 in [before] has the same dictionary in [after]. *)
Definition frozen (before after : list combatant) : Prop :=
  forall (i : nat) (c : combatant),
    before !! i = Some c -> (hp c <=? f0)%F = true -> after !! i = Some c.

(** The stores of a battle in the order of time: the initial one, then the
    store after each pass of the loop. *)
Definition timeline (r : report) : list (list combatant) :=
  initial_stats r :: rev (history r).

(** [R] relates every element of the list to every later one. *)
Definition ascending {A : Type} (R : A -> A -> Prop) (l : list A) : Prop :=
  forall (a b : nat) (x y : A),
    (a <= b)%nat -> l !! a = Some x -> l !! b = Some y -> R x y.

(** [stun_diminish] after [k] stuns: 1.0 halved [k] times. *)
Definition halvings (k : nat) : float :=
  Nat.iter k (fun d => (d * f0_5)%F) f1.

Definition halved (d : float) : Prop := exists k : nat, d = halvings k.

(** The durations of the stuns of a log. *)
Definition stun_durations (evs : list event) : list float :=
  flat_map (fun e => match e with EvStun _ _ d => [d] | _ => [] end) evs.

(** The stun entries are well formed in a state: [stun_diminish] of every
    fighter and every stun of the events is 1.0 halved some times. *)
Definition halved_sim (s : sim) : Prop :=
  Forall (fun c => halved (stun_diminish c)) (actors s) /\
  Forall halved (stun_durations (current_events s)).

(** Somebody of the store is ready to attack at [time]. *)
Definition somebody_ready (time : float) (ws : list combatant) : bool :=
  existsb (fun c => (next_attack c <=? time)%F) ws.

(** Two against two: A and C go down in the same tick, B and D fight on. *)
Definition two_pairs : result report :=
  simulate_battle [brawler "A"; brawler "B"] [brawler "C"; brawler "D"] lucky.

(** The store after pass [k] of the loop ([k = 0]: the initial one). *)
Definition store_at (r : report) (k : nat) : list combatant :=
  match timeline r !! k with
  | Some st => st
  | None => []
  end.

(** [d] halved up to [n] times stays between 0 and 1. *)
Fixpoint halvings_ok (n : nat) (d : float) : bool :=
  match n with
  | O => true
  | S n' => (f0 <=? d)%F && (d <=? f1)%F && halvings_ok n' (d * f0_5)%F
  end.

(** A Dexterous fighter with 150 HP who never gets to attack. *)
Definition frail : warrior_data :=
  unequipped (mk_warrior "Y" "Dexterous" f0 f0 f0 f1 f1 (of_int 1000)).

(** * The simulation tab: selections and [run_simulation]

    The state of the tab is the part of [BattleArenaApp] that
    [update_battle_mode], [on_warrior_select], [update_available_warriors],
    [load_simulation_warriors] and [run_simulation] read and write: the
    loaded rows, the battle type, the values of the StringVars of the
    warrior and item dropdowns, the two selection lists, the ['values'] of
    the warrior dropdowns and of the item dropdowns, and what the result
    box shows.  A list indexed out of range is Python's IndexError: the
    function returns [None].  Showing and hiding the frames is left out. *)

Inductive team_id : Set := Team1 | Team2.

Record app : Type := {
  warriors : list warrior;
  items : list item;
  battle_type : string;
  team1_vars : list string;
  team2_vars : list string;
  team1_item_vars : list string;
  team2_item_vars : list string;
  team1_selections : list string;
  team2_selections : list string;
  team1_values : list (list string);
  team2_values : list (list string);
  item_list : list string;
  result_text : option report
}.

Definition set_lists (ws : list warrior) (its : list item) (a : app) : app :=
  {| warriors := ws; items := its; battle_type := battle_type a;
     team1_vars := team1_vars a; team2_vars := team2_vars a;
     team1_item_vars := team1_item_vars a;
     team2_item_vars := team2_item_vars a;
     team1_selections := team1_selections a;
     team2_selections := team2_selections a; team1_values := team1_values a;
     team2_values := team2_values a; item_list := item_list a;
     result_text := result_text a |}.

Definition set_battle_type (mode : string) (a : app) : app :=
  {| warriors := warriors a; items := items a; battle_type := mode;
     team1_vars := team1_vars a; team2_vars := team2_vars a;
     team1_item_vars := team1_item_vars a;
     team2_item_vars := team2_item_vars a;
     team1_selections := team1_selections a;
     team2_selections := team2_selections a; team1_values := team1_values a;
     team2_values := team2_values a; item_list := item_list a;
     result_text := result_text a |}.

Definition set_vars (team : team_id) (vars : list string) (a : app) : app :=
  {| warriors := warriors a; items := items a; battle_type := battle_type a;
     team1_vars := match team with Team1 => vars | Team2 => team1_vars a end;
     team2_vars := match team with Team1 => team2_vars a | Team2 => vars end;
     team1_item_vars := team1_item_vars a;
     team2_item_vars := team2_item_vars a;
     team1_selections := team1_selections a;
     team2_selections := team2_selections a; team1_values := team1_values a;
     team2_values := team2_values a; item_list := item_list a;
     result_text := result_text a |}.

Definition set_item_vars (team : team_id) (vars : list string) (a : app) : app :=
  {| warriors := warriors a; items := items a; battle_type := battle_type a;
     team1_vars := team1_vars a; team2_vars := team2_vars a;
     team1_item_vars := match team with Team1 => vars | Team2 => team1_item_vars a end;
     team2_item_vars := match team with Team1 => team2_item_vars a | Team2 => vars end;
     team1_selections := team1_selections a;
     team2_selections := team2_selections a; team1_values := team1_values a;
     team2_values := team2_values a; item_list := item_list a;
     result_text := result_text a |}.

Definition set_selections (team : team_id) (sel : list string) (a : app) : app :=
  {| warriors := warriors a; items := items a; battle_type := battle_type a;
     team1_vars := team1_vars a; team2_vars := team2_vars a;
     team1_item_vars := team1_item_vars a;
     team2_item_vars := team2_item_vars a;
     team1_selections := match team with Team1 => sel | Team2 => team1_selections a end;
     team2_selections := match team with Team1 => team2_selections a | Team2 => sel end;
     team1_values := team1_values a; team2_values := team2_values a;
     item_list := item_list a; result_text := result_text a |}.

Definition set_values (v1 v2 : list (list string)) (a : app) : app :=
  {| warriors := warriors a; items := items a; battle_type := battle_type a;
     team1_vars := team1_vars a; team2_vars := team2_vars a;
     team1_item_vars := team1_item_vars a;
     team2_item_vars := team2_item_vars a;
     team1_selections := team1_selections a;
     team2_selections := team2_selections a; team1_values := v1;
     team2_values := v2; item_list := item_list a;
     result_text := result_text a |}.

Definition set_item_list (l : list string) (a : app) : app :=
  {| warriors := warriors a; items := items a; battle_type := battle_type a;
     team1_vars := team1_vars a; team2_vars := team2_vars a;
     team1_item_vars := team1_item_vars a;
     team2_item_vars := team2_item_vars a;
     team1_selections := team1_selections a;
     team2_selections := team2_selections a; team1_values := team1_values a;
     team2_values := team2_values a; item_list := l;
     result_text := result_text a |}.

Definition set_result_text (t : option report) (a : app) : app :=
  {| warriors := warriors a; items := items a; battle_type := battle_type a;
     team1_vars := team1_vars a; team2_vars := team2_vars a;
     team1_item_vars := team1_item_vars a;
     team2_item_vars := team2_item_vars a;
     team1_selections := team1_selections a;
     team2_selections := team2_selections a; team1_values := team1_values a;
     team2_values := team2_values a; item_list := item_list a;
     result_text := t |}.

(** The line of a warrior in the dropdowns: [f"{w['name']} ({w['type']})"]. *)
Definition label (w : warrior) : string :=
  String.append (w_name w) (String.append " (" (String.append (w_type w) ")")).

(** [s.split(sep)[0]]: what comes before the first occurrence of [sep], the
    whole of [s] when there is none. *)
Fixpoint before_sep (sep s : string) : string :=
  match s with
  | EmptyString => EmptyString
  | String c s' =>
      if String.prefix sep s then EmptyString else String c (before_sep sep s')
  end.

(** [sep] occurs in [s]. *)
Fixpoint occurs (sep s : string) : bool :=
  String.prefix sep s ||
  match s with
  | EmptyString => false
  | String _ s' => occurs sep s'
  end.

Definition required_warriors (a : app) : nat :=
  if String.eqb (battle_type a) "3v3" then 3%nat else 1%nat.

(** [[var.get() for var in vars if var.get()]]. *)
Definition picked (vars : list string) : list string :=
  List.filter (fun v => negb (String.eqb v "")) vars.

(** [next((w for w in self.warriors if w['name'] == name), None)], and the
    same for the items. *)
Definition warrior_named (name : string) (ws : list warrior) : option warrior :=
  find (fun w => String.eqb (w_name w) name) ws.

Definition item_named (name : string) (its : list item) : option item :=
  find (fun it => String.eqb (i_name it) name) its.

(** The loop [for i, selection in enumerate(team_selected)] of
    [run_simulation], from index [i] on: a selection whose name is not
    found adds nothing to the team. *)
Fixpoint build_team (ws : list warrior) (its : list item)
    (item_vars : list string) (i : nat) (team_selected : list string)
    : option (list warrior_data) :=
  match team_selected with
  | [] => Some []
  | selection :: rest =>
      let name := before_sep " (" selection in
      match warrior_named name ws with
      | Some w =>
          item_name ← item_vars !! i;
          team ← build_team ws its item_vars (S i) rest;
          Some ({| wd_warrior := w; wd_item := item_named item_name its |} :: team)
      | None => build_team ws its item_vars (S i) rest
      end
  end.

(** How a click on "Start Battle" ends: with the error box, with the
    report in the result box, or with an exception that nothing catches. *)
Inductive uncaught : Set :=
| IndexError
| FromBattle (e : exn).

Inductive ending : Set :=
| ErrorBox
| Displayed
| Failed (e : uncaught).

Definition run_simulation (a : app) (rand : random_source) : app * ending :=
  let a0 := set_result_text None a in
  let team1_selected := picked (take (required_warriors a) (team1_vars a)) in
  let team2_selected := picked (take (required_warriors a) (team2_vars a)) in
  if negb (length team1_selected =? required_warriors a)%nat ||
     negb (length team2_selected =? required_warriors a)%nat
  then (a0, ErrorBox)
  else
    match build_team (warriors a) (items a) (team1_item_vars a) 0 team1_selected with
    | None => (a0, Failed IndexError)
    | Some team1 =>
        match build_team (warriors a) (items a) (team2_item_vars a) 0 team2_selected with
        | None => (a0, Failed IndexError)
        | Some team2 =>
            match simulate_battle team1 team2 rand with
            | Ok r => (set_result_text (Some r) a0, Displayed)
            | Raise e => (a0, Failed (FromBattle e))
            end
        end
    end.

(** ** The dropdowns *)

(** The values offered by a warrior dropdown whose own selection is
    [current_selection], when [taken] are the selections of all the
    dropdowns. *)
Definition available (all_warriors taken : list string)
    (current_selection : string) : list string :=
  "" :: List.filter
          (fun w => negb (existsb (String.eqb w) taken) ||
                    String.eqb w current_selection)
          all_warriors.

(** [for i in l: body], stopped by an exception. *)
Fixpoint for_each (l : list nat) (body : nat -> app -> option app) (a : app)
    : option app :=
  match l with
  | [] => Some a
  | i :: l' => a' ← body i a; for_each l' body a'
  end.

Definition update_available_warriors (a : app) : option app :=
  let all_warriors := map label (warriors a) in
  let taken := picked (team1_vars a) ++ picked (team2_vars a) in
  for_each (seq 0 3)
    (fun i a' =>
       current_selection1 ← team1_vars a' !! i;
       current_selection2 ← team2_vars a' !! i;
       if (i <? length (team1_values a'))%nat && (i <? length (team2_values a'))%nat
       then Some (set_values
                    (<[i := available all_warriors taken current_selection1]>
                       (team1_values a'))
                    (<[i := available all_warriors taken current_selection2]>
                       (team2_values a'))
                    a')
       else None)
    a.

Definition vars_of (team : team_id) (a : app) : list string :=
  match team with Team1 => team1_vars a | Team2 => team2_vars a end.

Definition item_vars_of (team : team_id) (a : app) : list string :=
  match team with Team1 => team1_item_vars a | Team2 => team2_item_vars a end.

Definition selections_of (team : team_id) (a : app) : list string :=
  match team with Team1 => team1_selections a | Team2 => team2_selections a end.

Definition values_of (team : team_id) (a : app) : list (list string) :=
  match team with Team1 => team1_values a | Team2 => team2_values a end.

Definition on_warrior_select (team : team_id) (index : nat) (a : app) : option app :=
  selection ← vars_of team a !! index;
  let selections := selections_of team a in
  let selections' :=
    if (index <? length selections)%nat then <[index := selection]> selections
    else selections ++ [selection] in
  update_available_warriors (set_selections team selections' a).

(** [var.set(value)] on a warrior StringVar, with the write trace that
    [init_simulation] puts on it. *)
Definition set_warrior_var (team : team_id) (index : nat) (value : string)
    (a : app) : option app :=
  if (index <? length (vars_of team a))%nat
  then on_warrior_select team index
         (set_vars team (<[index := value]> (vars_of team a)) a)
  else None.

(** [var.set(value)] on an item StringVar; there is no trace on it. *)
Definition set_item_var (team : team_id) (index : nat) (value : string)
    (a : app) : option app :=
  if (index <? length (item_vars_of team a))%nat
  then Some (set_item_vars team (<[index := value]> (item_vars_of team a)) a)
  else None.

Definition update_battle_mode (a : app) : option app :=
  let required := required_warriors a in
  a' ← for_each (seq 0 3)
         (fun i a' =>
            if (i <? length (team1_values a'))%nat && (i <? length (team2_values a'))%nat
            then
              if (i <? required)%nat then
                a1 ← set_warrior_var Team1 i "" a';
                a2 ← set_warrior_var Team2 i "" a1;
                a3 ← set_item_var Team1 i "" a2;
                set_item_var Team2 i "" a3
              else Some a'
            else None)
         a;
  update_available_warriors (set_selections Team1 [] (set_selections Team2 [] a')).

(** [load_simulation_warriors], [ws] and [its] being the rows that
    [read_csv] returns for the two files. *)
Definition load_simulation_warriors (ws : list warrior) (its : list item)
    (a : app) : option app :=
  let a0 := set_lists ws its (set_result_text None a) in
  let a1 := set_selections Team1 [] (set_selections Team2 [] a0) in
  a2 ← for_each (seq 0 (length (team1_vars a1)))
         (fun i a' => set_warrior_var Team1 i "" a') a1;
  a3 ← for_each (seq 0 (length (team2_vars a2)))
         (fun i a' => set_warrior_var Team2 i "" a') a2;
  let a4 := set_item_vars Team1 (map (fun _ => "") (team1_item_vars a3)) a3 in
  let a5 := set_item_vars Team2 (map (fun _ => "") (team2_item_vars a4)) a4 in
  a6 ← update_available_warriors a5;
  Some (set_item_list ("" :: map i_name its) a6).

(** ** What the user does on the tab *)

(** A dropdown is read-only: the user sets its variable to one of the
    values it offers (there are three item dropdowns on each side).  A
    radio button sets the battle type and calls [update_battle_mode].
    "Refresh Lists" loads the rows of the files, "Start Battle" runs
    [run_simulation]; the other two tabs change the rows. *)
Inductive action : Type :=
| ChooseWarrior (team : team_id) (index : nat) (value : string)
| ChooseItem (team : team_id) (index : nat) (value : string)
| ChooseMode (mode : string)
| RefreshLists (ws : list warrior) (its : list item)
| StartBattle (rand : random_source)
| EditLists (ws : list warrior) (its : list item).

Definition offered (a : app) (act : action) : Prop :=
  match act with
  | ChooseWarrior team index value =>
      exists values : list string,
        values_of team a !! index = Some values /\ In value values
  | ChooseItem _ index value => (index < 3)%nat /\ In value (item_list a)
  | ChooseMode mode => mode = "1v1" \/ mode = "3v3"
  | RefreshLists _ _ | StartBattle _ | EditLists _ _ => True
  end.

Definition perform (act : action) (a : app) : option app :=
  match act with
  | ChooseWarrior team index value => set_warrior_var team index value a
  | ChooseItem team index value => set_item_var team index value a
  | ChooseMode mode => update_battle_mode (set_battle_type mode a)
  | RefreshLists ws its => load_simulation_warriors ws its a
  | StartBattle rand => Some (fst (run_simulation a rand))
  | EditLists ws its => Some (set_lists ws its a)
  end.

(** The tab as [init_simulation] leaves it, when the files hold [ws] and
    [its]: three empty variables and dropdowns on each side, battle type
    1v1, then [load_simulation_warriors] and [update_battle_mode]. *)
Definition blank : app :=
  {| warriors := []; items := []; battle_type := "1v1";
     team1_vars := [""; ""; ""]; team2_vars := [""; ""; ""];
     team1_item_vars := [""; ""; ""]; team2_item_vars := [""; ""; ""];
     team1_selections := []; team2_selections := [];
     team1_values := [[]; []; []]; team2_values := [[]; []; []];
     item_list := []; result_text := None |}.

Definition init_simulation (ws : list warrior) (its : list item) : option app :=
  a ← load_simulation_warriors ws its blank;
  update_battle_mode a.

(** The states the tab can be in. *)
Inductive reachable : app -> Prop :=
| reachable_init (ws : list warrior) (its : list item) (a : app) :
    init_simulation ws its = Some a -> reachable a
| reachable_step (a a' : app) (act : action) :
    reachable a -> offered a act -> perform act a = Some a' -> reachable a'.

(** No warrior line is selected in two dropdowns. *)
Definition no_double_selection (a : app) : Prop :=
  NoDup (picked (team1_vars a) ++ picked (team2_vars a)).

(** ** Auxiliary definitions for the simulation tab *)

(** The member of a team made of a warrior row and the item of this name,
    if there is one. *)
Definition equip (its : list item) (w : warrior) (item_name : string) : warrior_data :=
  {| wd_warrior := w; wd_item := item_named item_name its |}.

(** Two lines that name the same warrior and are both empty or both not. *)
Definition same_name (s s' : string) : Prop :=
  before_sep " (" s = before_sep " (" s' /\ (s = "" <-> s' = "").

(** Every list of variables and of dropdowns has its three entries. *)
Definition three_slots (a : app) : Prop :=
  length (team1_vars a) = 3%nat /\ length (team2_vars a) = 3%nat /\
  length (team1_item_vars a) = 3%nat /\ length (team2_item_vars a) = 3%nat /\
  length (team1_values a) = 3%nat /\ length (team2_values a) = 3%nat.

(** A tab in 1v1 mode with the given rows, lines and item names. *)
Definition tab_1v1 (ws : list warrior) (its : list item)
    (line1 line2 item1 item2 : string) : app :=
  {| warriors := ws; items := its; battle_type := "1v1";
     team1_vars := [line1; ""; ""]; team2_vars := [line2; ""; ""];
     team1_item_vars := [item1; ""; ""]; team2_item_vars := [item2; ""; ""];
     team1_selections := [line1]; team2_selections := [line2];
     team1_values := [[]; []; []]; team2_values := [[]; []; []];
     item_list := "" :: map i_name its; result_text := None |}.

Definition bob : warrior :=
  mk_warrior "Bob" "Tough" (of_int 5) f0 f0 (of_int 10) (of_int 15) (of_int 1).

Definition bob_the_smart : warrior :=
  mk_warrior "Bob" "Smart" f0 f0 (of_int 5) (of_int 10) (of_int 15) (of_int 1).

Definition bob_junior : warrior :=
  mk_warrior "Bob (Jr)" "Tough" (of_int 5) f0 f0 (of_int 10) (of_int 15) (of_int 1).

Definition ann : warrior :=
  mk_warrior "Ann" "Dexterous" f0 (of_int 5) f0 (of_int 10) (of_int 15) (of_int 1).

(** The selections of all the warrior dropdowns. *)
Definition taken (a : app) : list string :=
  picked (team1_vars a) ++ picked (team2_vars a).

(** The tab with the values of the warrior dropdowns computed anew. *)
Definition refreshed (a : app) : app :=
  set_values
    (map (available (map label (warriors a)) (taken a)) (team1_vars a))
    (map (available (map label (warriors a)) (taken a)) (team2_vars a))
    a.

(** The values of the warrior dropdowns are those computed from the
    selections, for the lines [all_warriors] of some list of warriors. *)
Definition values_for (all_warriors : list string) (a : app) : Prop :=
  team1_values a = map (available all_warriors (taken a)) (team1_vars a) /\
  team2_values a = map (available all_warriors (taken a)) (team2_vars a).

(** The first [n] variables set to the empty string. *)
Definition cleared (n : nat) (vars : list string) : list string :=
  map (fun _ => "") (take n vars) ++ drop n vars.

(** The tab after the actions, which are all taken to be possible. *)
Definition after (acts : list action) (start : option app) : app :=
  match foldl (fun o act => o ≫= perform act) start acts with
  | Some a => a
  | None => blank
  end.

(** A tab in 3v3 mode with three lines selected on each side. *)
Definition tab_3v3 (ws : list warrior) (lines1 lines2 : list string) : app :=
  {| warriors := ws; items := []; battle_type := "3v3";
     team1_vars := lines1; team2_vars := lines2;
     team1_item_vars := [""; ""; ""]; team2_item_vars := [""; ""; ""];
     team1_selections := lines1; team2_selections := lines2;
     team1_values := [[]; []; []]; team2_values := [[]; []; []];
     item_list := [""]; result_text := None |}.

(** The number of fighters a battle type asks for. *)
Definition required_for (mode : string) : nat :=
  if String.eqb mode "3v3" then 3%nat else 1%nat.

(** The tab after the battle type [mode] has been chosen. *)
Definition switched (mode : string) (a : app) : app :=
  refreshed
    (set_selections Team1 []
       (set_selections Team2 []
          (set_item_vars Team1 (cleared (required_for mode) (team1_item_vars a))
             (set_item_vars Team2 (cleared (required_for mode) (team2_item_vars a))
                (set_vars Team1 (cleared (required_for mode) (team1_vars a))
                   (set_vars Team2 (cleared (required_for mode) (team2_vars a))
                      (set_battle_type mode a))))))).

(** What holds of the tab in every state. *)
Definition tab_invariant (a : app) : Prop :=
  three_slots a /\ no_double_selection a /\
  exists all_warriors : list string, values_for all_warriors a.

(** * Facts about binary64 arithmetic *)

#[global] Arguments fadd : simpl never.
#[global] Arguments fsub : simpl never.
#[global] Arguments fmul : simpl never.
#[global] Arguments fquot : simpl never.
#[global] Arguments of_int : simpl never.

(** The decimal literals are the correctly rounded quotients. *)
Lemma literals_correctly_rounded :
  f0 = of_int 0 /\ f1 = of_int 1 /\
  f0_05 = (of_int 5 / of_int 100)%F /\
  f0_06 = (of_int 6 / of_int 100)%F /\
  f0_1 = (of_int 1 / of_int 10)%F /\
  f0_2 = (of_int 2 / of_int 10)%F /\
  f0_25 = (of_int 1 / of_int 4)%F /\
  f0_5 = (of_int 1 / of_int 2)%F /\
  f1_5 = (of_int 3 / of_int 2)%F.
Proof. vm_compute. repeat split. Qed.

(** The literals, and the floats of the examples that are written out, are
    binary64 numbers in canonical form. *)
Lemma written_floats_valid :
  forallb (valid_binary prec emax)
    [f0; f1; f0_05; f0_06; f0_1; f0_2; f0_25; f0_5; f1_5;
     two_1023; three_1022; ulp_150;
     S754_finite false 7036874417766394 (-47)] = true.
Proof. vm_compute. reflexivity. Qed.

Lemma of_int_0 : of_int 0 = f0.
Proof. reflexivity. Qed.

Lemma of_int_1 : of_int 1 = f1.
Proof. reflexivity. Qed.

(** ** Comparisons *)

Lemma SFcompare_refl (x : float) :
  SFcompare x x = Some Eq \/ SFcompare x x = None.
Proof.
  destruct x as [s | s | | s m e]; simpl; auto.
  - destruct s; auto.
  - rewrite Z.compare_refl, Pos.compare_cont_refl. destruct s; auto.
Qed.

Lemma fltb_irrefl (x : float) : (x <? x)%F = false.
Proof.
  unfold fltb, SFltb. destruct (SFcompare_refl x) as [-> | ->]; reflexivity.
Qed.

Lemma fltb_fleb (x y : float) : (x <? y)%F = true -> (x <=? y)%F = true.
Proof.
  unfold fltb, fleb, SFltb, SFleb.
  destruct (SFcompare x y) as [[] |]; congruence.
Qed.

Lemma fleb_f1_f1 : (f1 <=? f1)%F = true.
Proof. reflexivity. Qed.

(** Two floats that compare equal are both positive or both not. *)
Lemma feqb_positive (x y : float) :
  (x =? y)%F = true -> (f0 <? x)%F = (f0 <? y)%F.
Proof.
  unfold feqb, fltb, SFeqb, SFltb, f0.
  destruct x as [sx | sx | | sx mx ex], y as [sy | sy | | sy my ey]; simpl;
    try discriminate; try reflexivity;
    destruct sx, sy; simpl; intros H; try discriminate; reflexivity.
Qed.

(** [<=] is transitive (it never holds of a NaN). *)
Lemma fleb_trans (x y z : float) :
  (x <=? y)%F = true -> (y <=? z)%F = true -> (x <=? z)%F = true.
Proof.
  unfold fleb, SFleb.
  destruct x as [sx | sx | | sx mx ex], y as [sy | sy | | sy my ey],
           z as [sz | sz | | sz mz ez]; simpl; try discriminate; try reflexivity;
    destruct sx; try discriminate; try reflexivity;
    destruct sy; try discriminate; try reflexivity;
    destruct sz; try discriminate; try reflexivity;
    change (Pos.compare_cont Eq mx my) with (mx ?= my)%positive;
    change (Pos.compare_cont Eq my mz) with (my ?= mz)%positive;
    change (Pos.compare_cont Eq mx mz) with (mx ?= mz)%positive;
    destruct (Z.compare_spec ex ey), (Z.compare_spec ey ez), (Z.compare_spec ex ez);
    destruct (Pos.compare_spec mx my), (Pos.compare_spec my mz), (Pos.compare_spec mx mz);
    simpl; intros A1 A2; try discriminate; try reflexivity; lia.
Qed.

(** ** Rounding never turns a number of magnitude one or more into zero *)


Lemma iter_pos_iter {A : Type} (f : A -> A) (p : positive) (x : A) :
  SpecFloat.iter_pos f p x = Pos.iter f x p.
Proof.
  revert x. induction p as [p IH | p IH |]; intros x; simpl.
  - rewrite !IH. now rewrite <- !Pos.iter_swap.
  - now rewrite !IH.
  - reflexivity.
Qed.

Lemma shr_1_m (mrs : shr_record) :
  0 <= shr_m mrs -> shr_m (shr_1 mrs) = Z.div2 (shr_m mrs).
Proof.
  destruct mrs as [m r s]. simpl. intros H.
  destruct m as [| [p | p |] | p]; try reflexivity; lia.
Qed.

Lemma shr_iter_m (p : positive) (mrs : shr_record) :
  0 <= shr_m mrs ->
  shr_m (Pos.iter shr_1 mrs p) = shr_m mrs / 2 ^ Z.pos p.
Proof.
  intros H. induction p as [| p IH] using Pos.peano_ind.
  - simpl Pos.iter. rewrite shr_1_m by assumption.
    now rewrite Z.div2_div.
  - rewrite Pos.iter_succ, shr_1_m.
    + rewrite IH, Z.div2_div, Pos2Z.inj_succ, Z.pow_succ_r by lia.
      rewrite Z.div_div by lia. f_equal. lia.
    + rewrite IH. apply Z.div_pos; lia.
Qed.

Lemma shr_m_shift (m : Z) (r s : bool) (e n : Z) :
  0 <= m ->
  shr_m (fst (shr (Build_shr_record m r s) e n)) = m / 2 ^ Z.max 0 n.
Proof.
  intros H. destruct n as [| p | p]; simpl.
  - now rewrite Z.div_1_r.
  - rewrite iter_pos_iter, shr_iter_m by assumption. reflexivity.
  - now rewrite Z.div_1_r.
Qed.

Lemma shr_e_shift (mrs : shr_record) (e n : Z) :
  snd (shr mrs e n) = e + Z.max 0 n.
Proof. destruct n; simpl; lia. Qed.

Lemma Zdigits2_log2 (m : Z) : 0 < m -> Zdigits2 m = Z.log2 m + 1.
Proof.
  destruct m as [| p | p]; try lia. intros _. simpl.
  induction p as [p IH | p IH |]; simpl; try reflexivity.
  - rewrite Pos2Z.inj_succ, IH. destruct p; simpl; lia.
  - rewrite Pos2Z.inj_succ, IH. destruct p; simpl; lia.
Qed.

Lemma fexp_lt (x : Z) : -1074 < x -> fexp prec emax x < x.
Proof. unfold fexp, SpecFloat.emin, prec, emax. lia. Qed.

(** Shifting a mantissa to its canonical exponent keeps it positive and
    keeps the magnitude [Zdigits2 m + e]. *)
Lemma shift_positive (m e n : Z) :
  0 < m -> n < Zdigits2 m ->
  0 < m / 2 ^ Z.max 0 n /\
  Zdigits2 (m / 2 ^ Z.max 0 n) + (e + Z.max 0 n) = Zdigits2 m + e.
Proof.
  intros Hm Hn.
  rewrite (Zdigits2_log2 m) in * by assumption.
  assert (Hk : 0 <= Z.max 0 n <= Z.log2 m) by (pose proof (Z.log2_nonneg m); lia).
  set (k := Z.max 0 n) in *.
  assert (Hpow : 2 ^ k <= m).
  { apply Z.log2_le_pow2; lia. }
  assert (Hq : 0 < m / 2 ^ k).
  { apply Z.div_str_pos. split; [apply Z.pow_pos_nonneg; lia | assumption]. }
  split; [assumption |].
  rewrite Zdigits2_log2 by assumption.
  rewrite <- Z.shiftr_div_pow2 by lia.
  rewrite Z.log2_shiftr by assumption. lia.
Qed.

Lemma shr_fexp_positive (m e : Z) (l : location) :
  0 < m -> -1074 < Zdigits2 m + e ->
  0 < shr_m (fst (shr_fexp prec emax m e l)) /\
  Zdigits2 (shr_m (fst (shr_fexp prec emax m e l))) + snd (shr_fexp prec emax m e l)
  = Zdigits2 m + e.
Proof.
  intros Hm He. unfold shr_fexp.
  pose proof (fexp_lt _ He) as Hf.
  set (n := fexp prec emax (Zdigits2 m + e) - e) in *.
  rewrite shr_e_shift.
  assert (Hs : shr_m (fst (shr (shr_record_of_loc m l) e n)) = m / 2 ^ Z.max 0 n).
  { destruct l as [| []]; apply shr_m_shift; lia. }
  rewrite Hs. apply shift_positive; [assumption | unfold n; lia].
Qed.

Lemma round_nearest_even_ge (m : Z) (l : location) :
  m <= round_nearest_even m l <= m + 1.
Proof.
  unfold round_nearest_even. destruct l as [| []]; try lia.
  destruct (Z.even m); lia.
Qed.

Lemma Zdigits2_mono (a b : Z) : 0 < a -> a <= b -> Zdigits2 a <= Zdigits2 b.
Proof.
  intros Ha Hab. rewrite !Zdigits2_log2 by lia.
  pose proof (Z.log2_le_mono a b Hab). lia.
Qed.

(** Rounding a positive mantissa that is not below the smallest
    subnormal never gives a zero. *)
Lemma binary_round_aux_nonzero (s : bool) (m : positive) (e : Z) (l : location) :
  -1074 < Zdigits2 (Z.pos m) + e ->
  is_zero (binary_round_aux prec emax s (Z.pos m) e l) = false.
Proof.
  intros He. unfold binary_round_aux.
  destruct (shr_fexp_positive (Z.pos m) e l) as [H1 H1e]; [lia | assumption |].
  destruct (shr_fexp prec emax (Z.pos m) e l) as [mrs1 e1]. simpl fst in *. simpl snd in *.
  pose proof (round_nearest_even_ge (shr_m mrs1) (loc_of_shr_record mrs1)) as Hr.
  set (m2 := round_nearest_even (shr_m mrs1) (loc_of_shr_record mrs1)) in *.
  assert (Hd : Zdigits2 (shr_m mrs1) <= Zdigits2 m2) by (apply Zdigits2_mono; lia).
  destruct (shr_fexp_positive m2 e1 loc_Exact) as [H2 _]; [lia | lia |].
  destruct (shr_fexp prec emax m2 e1 loc_Exact) as [mrs2 e2]. simpl fst in *.
  destruct (shr_m mrs2) as [| p | p]; try lia.
  destruct (e2 <=? emax - prec); reflexivity.
Qed.

Lemma digits2_pos_iter_xO (m d : positive) :
  Z.pos (digits2_pos (Pos.iter xO m d)) = Z.pos (digits2_pos m) + Z.pos d.
Proof.
  induction d as [| d IH] using Pos.peano_ind.
  - simpl. lia.
  - rewrite Pos.iter_succ. simpl digits2_pos. lia.
Qed.

Lemma shl_align_digits (mx : positive) (ex ex' : Z) :
  Z.pos (digits2_pos (fst (shl_align mx ex ex'))) + snd (shl_align mx ex ex')
  = Z.pos (digits2_pos mx) + ex.
Proof.
  unfold shl_align. destruct (ex' - ex) as [| d | d] eqn:E; simpl; try reflexivity.
  rewrite digits2_pos_iter_xO. lia.
Qed.

Lemma binary_round_nonzero (s : bool) (m : positive) (e : Z) :
  -1074 < Z.pos (digits2_pos m) + e ->
  is_zero (binary_round prec emax s m e) = false.
Proof.
  intros H. unfold binary_round.
  pose proof (shl_align_digits m e (fexp prec emax (Z.pos (digits2_pos m) + e))) as Hd.
  destruct (shl_align m e _) as [mz ez]. simpl in Hd.
  apply binary_round_aux_nonzero. simpl. lia.
Qed.

(** The sum of two positive floats, one of them not below the smallest
    subnormal, is not zero. *)
Lemma fadd_positive_nonzero (mx my : positive) (ex ey : Z) :
  -1074 < Z.pos (digits2_pos mx) + ex ->
  is_zero (S754_finite false mx ex + S754_finite false my ey)%F = false.
Proof.
  intros H. unfold fadd, SFadd. simpl cond_Zopp.
  set (ez := Z.min ex ey).
  pose proof (shl_align_digits mx ex ez) as Hd.
  destruct (shl_align mx ex ez) as [a ea] eqn:Ea.
  assert (Hea : ea = ez \/ ea = ex).
  { unfold shl_align in Ea. destruct (ez - ex); inversion Ea; auto. }
  assert (Hle : ez <= ea) by (unfold ez in *; lia).
  destruct (shl_align my ey ez) as [b eb]. simpl fst in *. simpl snd in *.
  change (Z.pos a + Z.pos b) with (Z.pos (a + b)). unfold binary_normalize.
  apply binary_round_nonzero.
  assert (Hm : Zdigits2 (Z.pos a) <= Zdigits2 (Z.pos (a + b))).
  { apply Zdigits2_mono; lia. }
  simpl in Hm.
  destruct Hea as [-> | ->]; [lia |].
  (* the first summand was not shifted: then [ez = ex] *)
  unfold shl_align in Ea. destruct (ez - ex) eqn:E; inversion Ea; unfold ez in *; lia.
Qed.

Lemma binary_round_aux_sign (s : bool) (m e : Z) (l : location) :
  match binary_round_aux prec emax s m e l with
  | S754_zero s' | S754_infinity s' | S754_finite s' _ _ => s' = s
  | S754_nan => True
  end.
Proof.
  unfold binary_round_aux.
  destruct (shr_fexp prec emax m e l) as [mrs1 e1].
  destruct (shr_fexp prec emax _ e1 loc_Exact) as [mrs2 e2].
  destruct (shr_m mrs2); try exact I; try reflexivity.
  destruct (e2 <=? emax - prec); reflexivity.
Qed.

Lemma fleb_f0_not_negative (x : float) :
  (f0 <=? x)%F = true -> not_negative x = true.
Proof.
  unfold fleb, SFleb, f0. destruct x as [s | s | | s m e]; simpl; try reflexivity;
    destruct s; simpl; congruence.
Qed.

Lemma fmul_not_negative (x y : float) :
  not_negative x = true -> not_negative y = true -> not_negative (x * y)%F = true.
Proof.
  unfold fmul, SFmul.
  destruct x as [sx | sx | | sx mx ex], y as [sy | sy | | sy my ey]; simpl;
    try reflexivity; try (destruct sx; try discriminate; destruct sy; try discriminate; reflexivity).
  destruct sx; try discriminate. destruct sy; try discriminate. intros _ _. simpl xorb.
  pose proof (binary_round_aux_sign false (Z.pos (mx * my)) (ex + ey) loc_Exact) as H.
  destruct (binary_round_aux prec emax false (Z.pos (mx * my)) (ex + ey) loc_Exact);
    simpl; try reflexivity; now rewrite H.
Qed.

(** [1 + y] is not zero when [y] is not negative. *)
Lemma one_plus_nonzero (y : float) :
  not_negative y = true -> is_zero (of_int 1 + y)%F = false.
Proof.
  rewrite of_int_1. destruct y as [s | s | | s m e]; simpl; intros H.
  - reflexivity.
  - destruct s; [discriminate | reflexivity].
  - reflexivity.
  - destruct s; [discriminate |]. apply fadd_positive_nonzero. simpl. lia.
Qed.

(** ** The same number up to the sign of zero *)

Lemma same_number_refl (x : float) : same_number x x.
Proof. now left. Qed.

Lemma same_number_trans (x y z : float) :
  same_number x y -> same_number y z -> same_number x z.
Proof.
  intros [-> | [Hx Hy]] [-> | [Hy' Hz]]; unfold same_number; auto.
Qed.

Lemma fadd_f0_r (x : float) : same_number x (x + f0)%F.
Proof.
  destruct x as [[] | s | | s m e]; unfold same_number; cbv; auto.
Qed.

Lemma fadd_same_r (a b b' : float) :
  same_number b b' -> same_number (a + b)%F (a + b')%F.
Proof.
  intros [-> | [Hb Hb']]; [apply same_number_refl |].
  destruct b as [sb | | |]; try discriminate.
  destruct b' as [sb' | | |]; try discriminate.
  destruct a as [sa | sa | | sa ma ea]; unfold same_number.
  - right. destruct sa, sb, sb'; cbv; auto.
  - left. reflexivity.
  - left. reflexivity.
  - left. reflexivity.
Qed.

Lemma fadd_same_l (a a' b : float) :
  same_number a a' -> same_number (a + b)%F (a' + b)%F.
Proof.
  intros [-> | [Ha Ha']]; [apply same_number_refl |].
  destruct a as [sa | | |]; try discriminate.
  destruct a' as [sa' | | |]; try discriminate.
  destruct b as [sb | sb | | sb mb eb]; unfold same_number.
  - right. destruct sa, sa', sb; cbv; auto.
  - left. reflexivity.
  - left. reflexivity.
  - left. reflexivity.
Qed.

Lemma fmul_same_l (a a' b : float) :
  same_number a a' -> same_number (a * b)%F (a' * b)%F.
Proof.
  intros [-> | [Ha Ha']]; [apply same_number_refl |].
  destruct a as [sa | | |]; try discriminate.
  destruct a' as [sa' | | |]; try discriminate.
  destruct b as [sb | sb | | sb mb eb]; unfold same_number; cbv; auto.
Qed.

Lemma fquot_same_l (a a' b : float) :
  same_number a a' -> same_number (a / b)%F (a' / b)%F.
Proof.
  intros [-> | [Ha Ha']]; [apply same_number_refl |].
  destruct a as [sa | | |]; try discriminate.
  destruct a' as [sa' | | |]; try discriminate.
  destruct b as [sb | sb | | sb mb eb]; unfold same_number; cbv; auto.
Qed.

(** Adding two representations of the same number to a non-zero finite
    float gives the same float. *)
Lemma fadd_finite_same (s : bool) (m : positive) (e : Z) (a a' : float) :
  same_number a a' -> (S754_finite s m e + a)%F = (S754_finite s m e + a')%F.
Proof.
  intros [-> | [Ha Ha']]; [reflexivity |].
  destruct a as [sa | | |]; try discriminate.
  destruct a' as [sa' | | |]; try discriminate.
  reflexivity.
Qed.

Lemma fltb_not_fleb (x y : float) : (x <? y)%F = true -> (y <=? x)%F = false.
Proof.
  unfold fltb, fleb, SFltb, SFleb.
  destruct x as [sx | sx | | sx mx ex], y as [sy | sy | | sy my ey]; simpl;
    try discriminate; try reflexivity;
    try (destruct sx; try discriminate; try reflexivity);
    try (destruct sy; try discriminate; try reflexivity);
    change (Pos.compare_cont Eq mx my) with (mx ?= my)%positive;
    change (Pos.compare_cont Eq my mx) with (my ?= mx)%positive;
    destruct (Z.compare_spec ex ey), (Z.compare_spec ey ex);
    destruct (Pos.compare_spec mx my), (Pos.compare_spec my mx);
    simpl; intros A1; try discriminate; try reflexivity; lia.
Qed.

(** ** The clock of the loop *)

Lemma clock_succ (k : nat) : clock (S k) = (clock k + f0_1)%F.
Proof. reflexivity. Qed.

Lemma clock_ok_run : clock_ok 3001 (of_int 0) = true.
Proof. vm_compute. reflexivity. Qed.

Lemma clock_end : (clock 3001 <? max_time)%F = false.
Proof. vm_compute. reflexivity. Qed.

Lemma clock_ok_at (n k : nat) :
  clock_ok n (clock k) = true ->
  forall j : nat, (j < n)%nat ->
    (clock (k + j) <? max_time)%F = true /\
    (clock (k + j) <=? clock (S (k + j)))%F = true.
Proof.
  revert k. induction n as [| n IH]; intros k H j Hj; [lia |].
  simpl in H. apply andb_true_iff in H as [H H3]. apply andb_true_iff in H as [H1 H2].
  destruct j as [| j].
  - rewrite Nat.add_0_r, clock_succ. auto.
  - rewrite <- clock_succ in H3. specialize (IH (S k) H3 j ltac:(lia)).
    replace (k + S j)%nat with (S k + j)%nat by lia. exact IH.
Qed.

(** The loop condition holds at the first 3001 values of the clock, which
    never decrease, and fails at the next one. *)
Lemma clock_running (k : nat) : (k < 3001)%nat -> (clock k <? max_time)%F = true.
Proof. intros H. exact (proj1 (clock_ok_at 3001 0 clock_ok_run k H)). Qed.

Lemma clock_monotone (k : nat) :
  (k < 3001)%nat -> (clock k <=? clock k + f0_1)%F = true.
Proof. intros H. exact (proj2 (clock_ok_at 3001 0 clock_ok_run k H)). Qed.

Lemma fleb_not_fltb (x y : float) : (x <=? y)%F = true -> (y <? x)%F = false.
Proof.
  intros H. destruct (y <? x)%F eqn:E; [| reflexivity].
  apply fltb_not_fleb in E. congruence.
Qed.

(** * Stat derivation (claim C3) *)

Lemma init_divisor_same (wd : warrior_data) :
  let dex := match wd_item wd with
             | Some it => (w_dex (wd_warrior wd) + add_dex it)%F
             | None => w_dex (wd_warrior wd) end in
  (of_int 1 +
   match wd_item wd with
   | Some it => (dex + add_attack_speed it)%F
   | None => dex
   end / of_int 100)%F = spec_cooldown_divisor wd.
Proof.
  unfold spec_cooldown_divisor, attack_speed_stat, effective_dexterity, bonus.
  destruct (wd_item wd) as [it |]; simpl; [reflexivity |].
  rewrite of_int_1. apply fadd_finite_same, fquot_same_l.
  eapply same_number_trans; [apply fadd_f0_r |]. apply fadd_f0_r.
Qed.

(** C3. For every warrior and optional item, [init_warrior_state] computes
    the reference formulas of the specification: max_hp, hp_regen, defense,
    min_dmg, max_dmg and cooldown are the numbers the formulas give (with
    an absent item counted as a bonus of 0), and the initial state has
    hp = max_hp, next_attack = cooldown, stun_end = 0, stun_immune = 0 and
    stun_diminish = 1.0.  Where the divisor of the cooldown formula is zero
    the formula has no value and the code raises ZeroDivisionError. *)
Theorem init_warrior_state_reference (wd : warrior_data) :
  if is_zero (spec_cooldown_divisor wd) then
    init_warrior_state wd = Raise ZeroDivisionError
  else
    exists c : combatant,
      init_warrior_state wd = Ok c /\
      name c = w_name (wd_warrior wd) /\
      type c = w_type (wd_warrior wd) /\
      same_number (max_hp c) (spec_max_hp wd) /\
      same_number (hp_regen c) (spec_hp_regen wd) /\
      same_number (defense c) (spec_defense wd) /\
      same_number (min_dmg c) (spec_min_dmg wd) /\
      same_number (max_dmg c) (spec_max_dmg wd) /\
      cooldown c = spec_cooldown wd /\
      hp c = max_hp c /\
      next_attack c = cooldown c /\
      stun_end c = f0 /\
      stun_immune c = f0 /\
      stun_diminish c = f1.
Proof.
  pose proof (init_divisor_same wd) as Hd. cbv zeta in Hd.
  unfold init_warrior_state, py_div. rewrite Hd.
  destruct (is_zero (spec_cooldown_divisor wd)); [reflexivity |].
  eexists. split; [reflexivity |]. simpl.
  repeat split; try reflexivity.
  - unfold spec_max_hp, effective_toughness, bonus.
    destruct (wd_item wd) as [it |]; [apply same_number_refl |].
    eapply same_number_trans; [| apply fadd_f0_r].
    apply fadd_same_r, fmul_same_l, fadd_f0_r.
  - unfold spec_hp_regen, effective_toughness, bonus.
    destruct (wd_item wd) as [it |]; [apply same_number_refl |].
    eapply same_number_trans; [| apply fadd_f0_r].
    apply fadd_same_r, fmul_same_l, fadd_f0_r.
  - unfold spec_defense, effective_dexterity, bonus.
    destruct (wd_item wd) as [it |]; [apply same_number_refl |].
    eapply same_number_trans; [| apply fadd_f0_r].
    apply fmul_same_l, fadd_f0_r.
  - unfold spec_min_dmg, effective_intelligence, bonus.
    destruct (wd_item wd) as [it |]; [apply same_number_refl |].
    eapply same_number_trans; [| apply fadd_f0_r].
    apply fadd_same_r, fmul_same_l, fadd_f0_r.
  - unfold spec_max_dmg, effective_intelligence, bonus.
    destruct (wd_item wd) as [it |]; [apply same_number_refl |].
    eapply same_number_trans; [| apply fadd_f0_r].
    apply fadd_same_r, fmul_same_l, fadd_f0_r.
Qed.

(** The warrior of the scenario of section 8: 250 HP, 0.5 HP/s, no
    defense, damage 10 to 15, a first attack after 2 seconds. *)
Example init_scenario_warrior :
  init_warrior_state (unequipped (scenario_warrior "A")) =
  Ok {| name := "A"; type := "Tough";
        hp := of_int 250; max_hp := of_int 250; hp_regen := f0_5;
        defense := f0; min_dmg := of_int 10; max_dmg := of_int 15;
        cooldown := of_int 2; next_attack := of_int 2;
        stun_end := f0; stun_immune := f0; stun_diminish := f1 |}.
Proof. vm_compute. reflexivity. Qed.

(** An attack-speed bonus of -100 on a warrior without dexterity makes the
    divisor of the cooldown formula zero. *)
Example init_lead_boots :
  init_warrior_state (equipped (scenario_warrior "A") lead_boots) =
  Raise ZeroDivisionError.
Proof. vm_compute. reflexivity. Qed.

(** * Damage resolution (claim C4) *)

Lemma damage_reduction_defined (defense : float) :
  (f0 <=? defense)%F = true ->
  damage_reduction defense = Ok (spec_reduction defense).
Proof.
  intros H. unfold damage_reduction, py_div.
  rewrite one_plus_nonzero.
  - rewrite of_int_1. reflexivity.
  - apply fmul_not_negative; [reflexivity | now apply fleb_f0_not_negative].
Qed.

Lemma spec_max_ge (a b : float) :
  (a <=? a)%F = true -> (a <=? spec_max a b)%F = true.
Proof.
  intros Ha. unfold spec_max. destruct (a <? b)%F eqn:E; [| assumption].
  now apply fltb_fleb.
Qed.

(** C4. For every rolled damage, every non-negative defense and every
    damage multiplier, the damage resolver returns
    max(1, rolled * (1 - (0.06 * defense) / (1 + 0.06 * defense)) * multiplier),
    and that final damage is at least 1. *)
Theorem final_damage_formula (rolledDamage defense damageMultiplier : float) :
  (f0 <=? defense)%F = true ->
  resolve_damage rolledDamage defense damageMultiplier
  = Ok (spec_final_damage rolledDamage defense damageMultiplier) /\
  (f1 <=? spec_final_damage rolledDamage defense damageMultiplier)%F = true.
Proof.
  intros H. split.
  - unfold resolve_damage. rewrite damage_reduction_defined by assumption.
    reflexivity.
  - apply spec_max_ge. reflexivity.
Qed.

Lemma final_damage_formula_witness :
  resolve_damage (of_int 12) (of_int 10) f1_5
  = Ok (spec_final_damage (of_int 12) (of_int 10) f1_5) /\
  (f1 <=? spec_final_damage (of_int 12) (of_int 10) f1_5)%F = true.
Proof. apply (final_damage_formula (of_int 12) (of_int 10) f1_5). reflexivity. Defined.

(** 12 points against a defense of 10 with the weak-spot multiplier:
    12 * (1 - 0.375) * 1.5 = 11.25. *)
Example final_damage_sample :
  resolve_damage (of_int 12) (of_int 10) f1_5
  = Ok (S754_finite false 6333186975989760 (-49)).
Proof. vm_compute. reflexivity. Qed.

(** Whatever the defense, a result of the resolver is at least 1. *)
Lemma resolve_damage_at_least_one (base defense bonus dmg : float) :
  resolve_damage base defense bonus = Ok dmg -> (f1 <=? dmg)%F = true.
Proof.
  unfold resolve_damage. destruct (damage_reduction defense) as [r | e]; simpl; [| discriminate].
  intros [= <-]. unfold final_damage, py_max. rewrite of_int_1.
  destruct (f1 <? _)%F eqn:E; [now apply fltb_fleb | reflexivity].
Qed.

(** * Type advantages (claims C7 and C5) *)

Lemma pair_test (attacker target : combatant) (a t : string) :
  String.eqb (type attacker) a && String.eqb (type target) t = true
  <-> pair_is attacker target a t.
Proof.
  unfold pair_is. rewrite andb_true_iff, !String.eqb_eq. tauto.
Qed.

Lemma pair_test_false (attacker target : combatant) (a t : string) :
  String.eqb (type attacker) a && String.eqb (type target) t = false
  <-> ~ pair_is attacker target a t.
Proof.
  rewrite <- pair_test. destruct (_ && _); split; congruence.
Qed.

(** The seven ways through the type-advantage block. *)
Lemma type_advantage_cases (rand : random_source) (time : float)
    (attacker target : combatant) (j : nat) (s : sim) (m : matchup) (s1 : sim) :
  type_advantage rand time attacker target j s = (m, s1) ->
  (pair_is attacker target "Smart" "Dexterous" /\ (d_unit (rand (cursor s)) <? f0_2)%F = true /\
   m = {| miss := true; bonus_dmg := f1; stun := false |} /\
   s1 = push (EvMiss (name attacker) (name target)) (advance s)) \/
  (pair_is attacker target "Smart" "Dexterous" /\ (d_unit (rand (cursor s)) <? f0_2)%F = false /\
   m = no_effect /\ s1 = advance s) \/
  (pair_is attacker target "Smart" "Tough" /\ (d_unit (rand (cursor s)) <? f0_2)%F = true /\
   m = {| miss := false; bonus_dmg := f1_5; stun := false |} /\
   s1 = push (EvWeakSpot (name attacker) (name target)) (advance s)) \/
  (pair_is attacker target "Smart" "Tough" /\ (d_unit (rand (cursor s)) <? f0_2)%F = false /\
   m = no_effect /\ s1 = advance s) \/
  (pair_is attacker target "Tough" "Dexterous" /\
   (d_unit (rand (cursor s)) <? f0_2)%F && (stun_immune target <=? time)%F = true /\
   m = {| miss := false; bonus_dmg := f1; stun := true |} /\
   s1 = push (EvStun (name attacker) (name target) (stun_diminish target))
             (update j (apply_stun time) (advance s))) \/
  (pair_is attacker target "Tough" "Dexterous" /\
   (d_unit (rand (cursor s)) <? f0_2)%F && (stun_immune target <=? time)%F = false /\
   m = no_effect /\ s1 = advance s) \/
  (plain_pair attacker target /\ m = no_effect /\ s1 = s).
Proof.
  unfold type_advantage. intros H.
  destruct (String.eqb (type attacker) "Smart" && String.eqb (type target) "Dexterous") eqn:E1.
  { apply pair_test in E1. destruct (d_unit (rand (cursor s)) <? f0_2)%F eqn:Eu; inversion H; subst; tauto. }
  destruct (String.eqb (type attacker) "Smart" && String.eqb (type target) "Tough") eqn:E2.
  { apply pair_test in E2. destruct (d_unit (rand (cursor s)) <? f0_2)%F eqn:Eu; inversion H; subst; tauto. }
  destruct (String.eqb (type attacker) "Tough" && String.eqb (type target) "Dexterous") eqn:E3.
  { apply pair_test in E3.
    destruct ((d_unit (rand (cursor s)) <? f0_2)%F && (stun_immune target <=? time)%F) eqn:Eu;
      inversion H; subst; tauto. }
  apply pair_test_false in E1, E2, E3. inversion H; subst.
  do 6 right. unfold plain_pair. tauto.
Qed.

Lemma pair_is_inj (attacker target : combatant) (a t a' t' : string) :
  pair_is attacker target a t -> pair_is attacker target a' t' -> a = a' /\ t = t'.
Proof. unfold pair_is. intros [<- <-] [<- <-]. auto. Qed.

(** C7. In every attack at most one special effect applies, and the type
    pair alone decides which can: a miss only when Smart attacks Dexterous,
    the multiplier 1.5 only when Smart attacks Tough, a stun only when Tough
    attacks Dexterous; every other pair gives the multiplier 1.0, no miss
    and no stun, and draws nothing.  When the attack misses, the defender
    is left as it was and the attacker's next attack is set one cooldown
    after the current time: the attacker's dictionary after the attack has
    next_attack = time + cooldown, and every other entry as before. *)
Theorem special_effects_exclusive (rand : random_source) (time : float)
    (i j : nat) (attacker target : combatant) (s : sim) (m : matchup) (s1 : sim) :
  actors s !! i = Some attacker ->
  actors s !! j = Some target ->
  type_advantage rand time attacker target j s = (m, s1) ->
  (miss m = true ->
     pair_is attacker target "Smart" "Dexterous" /\ bonus_dmg m = f1 /\ stun m = false) /\
  (bonus_dmg m <> f1 ->
     pair_is attacker target "Smart" "Tough" /\ bonus_dmg m = f1_5 /\
     miss m = false /\ stun m = false) /\
  (stun m = true ->
     pair_is attacker target "Tough" "Dexterous" /\ miss m = false /\ bonus_dmg m = f1) /\
  (plain_pair attacker target -> m = no_effect /\ s1 = s) /\
  (miss m = true ->
     exists (s2 : sim) (attacker' : combatant),
       resolve_attack rand time i j attacker target s = Ok s2 /\
       actors s2 !! j = Some target /\
       actors s2 !! i = Some attacker' /\
       next_attack attacker' = (time + cooldown attacker)%F /\
       name attacker' = name attacker /\ type attacker' = type attacker /\
       hp attacker' = hp attacker /\ max_hp attacker' = max_hp attacker /\
       hp_regen attacker' = hp_regen attacker /\ defense attacker' = defense attacker /\
       min_dmg attacker' = min_dmg attacker /\ max_dmg attacker' = max_dmg attacker /\
       cooldown attacker' = cooldown attacker /\ stun_end attacker' = stun_end attacker /\
       stun_immune attacker' = stun_immune attacker /\
       stun_diminish attacker' = stun_diminish attacker /\
       (forall k, k <> i -> actors s2 !! k = actors s !! k)).
Proof.
  intros Hi Hj H. pose proof (type_advantage_cases _ _ _ _ _ _ _ _ H) as C.
  destruct C as [(P & _ & -> & ->) | [(P & _ & -> & ->) | [(P & _ & -> & ->) |
                [(P & _ & -> & ->) | [(P & _ & -> & ->) | [(P & _ & -> & ->) |
                 (P & -> & ->)]]]]]]; simpl;
    (split; [intros; try discriminate; auto |]);
    (split; [intros Hb; try (exfalso; apply Hb; reflexivity); auto |]);
    (split; [intros; try discriminate; auto |]);
    (split; [unfold plain_pair; intros [Q1 [Q2 Q3]]; try tauto; auto |]);
    try (intros; discriminate).
  intros _. unfold resolve_attack. rewrite H. simpl.
  assert (Hne : i <> j).
  { intros ->. rewrite Hi in Hj. inversion Hj; subst. destruct P as [P1 P2].
    rewrite P1 in P2. discriminate. }
  eexists. exists (set_next_attack (time + cooldown attacker)%F attacker).
  split; [reflexivity |]. simpl.
  split; [rewrite list_lookup_alter_ne by assumption; assumption |].
  split; [rewrite list_lookup_alter_eq, Hi; reflexivity |].
  do 13 (split; [reflexivity |]).
  intros k Hk. now rewrite list_lookup_alter_ne by auto.
Qed.

Lemma special_effects_exclusive_witness :
  exists (s2 : sim) (attacker' : combatant),
    resolve_attack lucky (of_int 2) 0 1 smart_a dex_b (sample_sim smart_a dex_b) = Ok s2 /\
    actors s2 !! 1%nat = Some dex_b /\
    actors s2 !! 0%nat = Some attacker' /\
    next_attack attacker' = (of_int 2 + cooldown smart_a)%F /\
    name attacker' = name smart_a /\ type attacker' = type smart_a /\
    hp attacker' = hp smart_a /\ max_hp attacker' = max_hp smart_a /\
    hp_regen attacker' = hp_regen smart_a /\ defense attacker' = defense smart_a /\
    min_dmg attacker' = min_dmg smart_a /\ max_dmg attacker' = max_dmg smart_a /\
    cooldown attacker' = cooldown smart_a /\ stun_end attacker' = stun_end smart_a /\
    stun_immune attacker' = stun_immune smart_a /\
    stun_diminish attacker' = stun_diminish smart_a /\
    (forall k, k <> 0%nat -> actors s2 !! k = actors (sample_sim smart_a dex_b) !! k).
Proof.
  refine (proj2 (proj2 (proj2 (proj2
    (special_effects_exclusive lucky (of_int 2) 0 1 smart_a dex_b
       (sample_sim smart_a dex_b)
       {| miss := true; bonus_dmg := f1; stun := false |}
       (push (EvMiss "A" "B") (advance (sample_sim smart_a dex_b)))
       _ _ _)))) _); reflexivity.
Defined.

(** C5. When Tough attacks Dexterous, the stun lands exactly when the draw
    is below 0.2 and the current time has reached the defender's
    stun_immune.  It then lasts the defender's current stun_diminish, and
    the defender is left with stun_end = time + duration,
    stun_immune = time + duration + 1 and stun_diminish halved, nothing
    else of it being changed.  Hence three stuns in a row on a fresh
    defender last 1.0, 0.5 and 0.25 seconds, and each of them can land
    only one second or more after the end of the one before. *)
Theorem stun_diminishing (rand : random_source) (time : float)
    (attacker target : combatant) (j : nat) (s : sim) (m : matchup) (s1 : sim) :
  pair_is attacker target "Tough" "Dexterous" ->
  actors s !! j = Some target ->
  type_advantage rand time attacker target j s = (m, s1) ->
  (stun m = true <->
   (d_unit (rand (cursor s)) <? f0_2)%F = true /\ (stun_immune target <=? time)%F = true) /\
  (stun m = true ->
   let duration := stun_diminish target in
   exists target' : combatant,
     actors s1 !! j = Some target' /\
     current_events s1
     = current_events s ++ [EvStun (name attacker) (name target) duration] /\
     stun_end target' = (time + duration)%F /\
     stun_immune target' = (time + duration + of_int 1)%F /\
     stun_diminish target' = (duration * f0_5)%F /\
     set_stun (stun_end target) (stun_immune target) (stun_diminish target) target'
     = target) /\
  (stun_diminish target = f1 ->
   forall t2 t3 : float,
     let d1 := apply_stun time target in
     let d2 := apply_stun t2 d1 in
     let d3 := apply_stun t3 d2 in
     stun_diminish target = f1 /\ stun_diminish d1 = f0_5 /\ stun_diminish d2 = f0_25 /\
     stun_end d1 = (time + f1)%F /\ stun_end d2 = (t2 + f0_5)%F /\
     stun_end d3 = (t3 + f0_25)%F /\
     ((stun_immune d1 <=? t2)%F = (stun_end d1 + of_int 1 <=? t2)%F) /\
     ((stun_immune d2 <=? t3)%F = (stun_end d2 + of_int 1 <=? t3)%F)).
Proof.
  intros P Hj H. pose proof (type_advantage_cases _ _ _ _ _ _ _ _ H) as C.
  assert (Hcase :
    ((d_unit (rand (cursor s)) <? f0_2)%F && (stun_immune target <=? time)%F = true /\
     m = {| miss := false; bonus_dmg := f1; stun := true |} /\
     s1 = push (EvStun (name attacker) (name target) (stun_diminish target))
               (update j (apply_stun time) (advance s))) \/
    ((d_unit (rand (cursor s)) <? f0_2)%F && (stun_immune target <=? time)%F = false /\
     m = no_effect /\ s1 = advance s)).
  { destruct C as [(Q & _) | [(Q & _) | [(Q & _) | [(Q & _) | [(_ & C) | [(_ & C) | (Q & _)]]]]]];
      try (destruct (pair_is_inj _ _ _ _ _ _ P Q); discriminate); auto.
    unfold plain_pair in Q. tauto. }
  clear C. split; [| split].
  - destruct Hcase as [(G & -> & _) | (G & -> & _)]; simpl; rewrite <- andb_true_iff, G;
      split; congruence.
  - destruct Hcase as [(G & -> & ->) | (G & -> & _)]; simpl; [| discriminate].
    intros _. exists (apply_stun time target). repeat split.
    + rewrite list_lookup_alter_eq, Hj. reflexivity.
    + destruct target; reflexivity.
  - intros Hd t2 t3. simpl. rewrite Hd. repeat split.
Qed.

Lemma stun_diminishing_witness :
  (stun {| miss := false; bonus_dmg := f1; stun := true |} = true <->
   (d_unit (lucky (cursor (sample_sim tough_a dex_b))) <? f0_2)%F = true /\
   (stun_immune dex_b <=? of_int 2)%F = true) /\
  stun_diminish (apply_stun (of_int 2) dex_b) = f0_5.
Proof.
  destruct (stun_diminishing lucky (of_int 2) tough_a dex_b 1 (sample_sim tough_a dex_b)
    {| miss := false; bonus_dmg := f1; stun := true |}
    (push (EvStun "A" "B" f1)
       (update 1 (apply_stun (of_int 2)) (advance (sample_sim tough_a dex_b)))))
    as (H1 & _ & H3).
  - split; reflexivity.
  - reflexivity.
  - reflexivity.
  - split; [exact H1 |].
    exact (proj1 (proj2 (H3 eq_refl (of_int 5) (of_int 8)))).
Defined.

(** Three stuns in a row in a battle: T stuns X at 2.0000000000000004 for
    1.0 second, at 4.000000000000002 for 0.5 and at 6.099999999999998 for
    0.25; each stun is over before the next one begins. *)
Example three_stuns_in_a_row :
  run_shows (simulate_battle [stunner] [stunned] lucky)
    (fun r =>
       firstn 3 (stun_log f0 (events r))
       = [(S754_finite false 4503599627370497 (-51), f1);
          (S754_finite false 4503599627370498 (-50), f0_5);
          (S754_finite false 6867989431740000 (-50), f0_25)] /\
       (S754_finite false 4503599627370497 (-51) + f1
        <=? S754_finite false 4503599627370498 (-50))%F = true /\
       (S754_finite false 4503599627370498 (-50) + f0_5
        <=? S754_finite false 6867989431740000 (-50))%F = true).
Proof. vm_compute. auto. Qed.

(** * An attacker without a living target (claim C10) *)

Lemma filter_none {A : Type} (f : A -> bool) (l : list A) :
  (forall x, In x l -> f x = false) -> List.filter f l = [].
Proof.
  induction l as [| a l IH]; intros H; simpl; [reflexivity |].
  rewrite (H a) by (now left). apply IH. intros x Hx. apply H. now right.
Qed.

Lemma any_alive_false (ws : list combatant) (j : nat) (c : combatant) :
  any_alive ws = false -> ws !! j = Some c -> alive c = false.
Proof.
  unfold any_alive. intros H Hj.
  destruct (alive c) eqn:E; [| reflexivity].
  assert (Hex : existsb alive ws = true).
  { apply existsb_exists. exists c. split; [| assumption].
    apply list_elem_of_In, list_elem_of_lookup. eauto. }
  congruence.
Qed.

Lemma combatant_eqb_alive (a b : combatant) :
  combatant_eqb a b = true -> alive a = alive b.
Proof.
  unfold combatant_eqb, alive. rewrite !andb_true_iff.
  intros H. decompose [and] H. now apply feqb_positive.
Qed.

(** A living fighter of team 2 is not found in a team 1 without a living
    member. *)
Lemma in_team1_false (n1 i : nat) (ws : list combatant) (attacker : combatant) :
  (n1 <= i)%nat -> ws !! i = Some attacker -> alive attacker = true ->
  any_alive (take n1 ws) = false -> in_team1 n1 i ws = false.
Proof.
  intros Hi Hl Ha Hd. unfold in_team1.
  destruct (i <? n1)%nat eqn:E; [apply Nat.ltb_lt in E; lia |].
  rewrite Hl. destruct (existsb _ _) eqn:Ex; [| reflexivity].
  apply existsb_exists in Ex as (b & Hb & Heq).
  apply list_elem_of_In, list_elem_of_lookup in Hb as [j Hj].
  rewrite (combatant_eqb_alive _ _ Heq) in Ha.
  rewrite (any_alive_false _ _ _ Hd Hj) in Ha. discriminate.
Qed.

Lemma no_alive_targets (n1 i : nat) (ws : list combatant) (attacker : combatant) :
  ws !! i = Some attacker -> alive attacker = true ->
  any_alive (opposing_team n1 i ws) = false ->
  alive_targets n1 i ws = [].
Proof.
  intros Hl Ha Hd. unfold alive_targets, targets, opposing_team in *.
  destruct (i <? n1)%nat eqn:E.
  - assert (Hin : in_team1 n1 i ws = true) by (unfold in_team1; now rewrite E).
    rewrite Hin. apply filter_none. intros j Hj. apply in_seq in Hj.
    unfold alive_at. destruct (ws !! j) as [t |] eqn:Ej; [| reflexivity].
    apply (any_alive_false _ (j - n1) _ Hd).
    rewrite lookup_drop. replace (n1 + (j - n1))%nat with j by lia. assumption.
  - apply Nat.ltb_ge in E.
    rewrite (in_team1_false n1 i ws attacker E Hl Ha Hd).
    apply filter_none. intros j Hj. apply in_seq in Hj.
    unfold alive_at. destruct (ws !! j) as [t |] eqn:Ej; [| reflexivity].
    apply (any_alive_false _ j _ Hd).
    rewrite lookup_take_lt by lia. assumption.
Qed.

(** C10. An attacker that is alive, not stunned and ready to attack, on a
    tick where the opposing team has no living member, skips its turn:
    the store, the random source and the events are left as they were.
    Its next_attack has not moved, so it is ready again at every later
    time, in particular on the next tick. *)
Theorem no_target_turn_skipped (rand : random_source) (n1 : nat) (time : float)
    (i : nat) (s : sim) (attacker : combatant) :
  actors s !! i = Some attacker ->
  alive attacker = true ->
  (time <? stun_end attacker)%F = false ->
  (next_attack attacker <=? time)%F = true ->
  any_alive (opposing_team n1 i (actors s)) = false ->
  attack_turn rand n1 time i s = Ok s /\
  (forall later : float,
     (time <=? later)%F = true -> (next_attack attacker <=? later)%F = true) /\
  (forall k : nat, (k < 3001)%nat -> time = clock k ->
     (next_attack attacker <=? clock (S k))%F = true).
Proof.
  intros Hl Ha Hs Hr Hd. split; [| split].
  - unfold attack_turn. rewrite Hl.
    rewrite (fltb_not_fleb _ _ Ha), Hs, Hr.
    now rewrite (no_alive_targets n1 i (actors s) attacker Hl Ha Hd).
  - intros later Hlater. exact (fleb_trans _ _ _ Hr Hlater).
  - intros k Hk ->. rewrite clock_succ.
    exact (fleb_trans _ _ _ Hr (clock_monotone k Hk)).
Qed.

Lemma no_target_turn_skipped_witness :
  attack_turn lucky 1 (clock 21) 0 (sample_sim tough_a fallen_b)
  = Ok (sample_sim tough_a fallen_b) /\
  (next_attack tough_a <=? clock 22)%F = true.
Proof.
  destruct (no_target_turn_skipped lucky 1 (clock 21) 0
              (sample_sim tough_a fallen_b) tough_a) as (H1 & _ & H3);
    try reflexivity.
  split; [exact H1 |]. apply (H3 21%nat); [lia | reflexivity].
Defined.

(** * The loop *)

(** ** The only exception is ZeroDivisionError *)

Lemma py_div_raise (x y : float) (e : exn) :
  py_div x y = Raise e -> e = ZeroDivisionError.
Proof. unfold py_div. destruct (is_zero y); congruence. Qed.

Lemma bind_raise {A B : Type} (m : result A) (k : A -> result B) (e : exn) :
  bind m k = Raise e ->
  m = Raise e \/ exists a, m = Ok a /\ k a = Raise e.
Proof. destruct m as [a | e']; simpl; [eauto | intros [= ->]; auto]. Qed.

Lemma bind_ok {A B : Type} (m : result A) (k : A -> result B) (b : B) :
  bind m k = Ok b -> exists a, m = Ok a /\ k a = Ok b.
Proof. destruct m as [a | e]; simpl; [eauto | discriminate]. Qed.

Lemma hit_raise (rand : random_source) (attacker target : combatant)
    (j : nat) (bonus : float) (s : sim) (e : exn) :
  hit rand attacker target j bonus s = Raise e -> e = ZeroDivisionError.
Proof.
  unfold hit, resolve_damage, damage_reduction. intros H.
  apply bind_raise in H as [H | (a & _ & H)]; [| discriminate].
  apply bind_raise in H as [H | (a & _ & H)]; [| discriminate].
  now apply py_div_raise in H.
Qed.

Lemma resolve_attack_raise (rand : random_source) (time : float) (i j : nat)
    (attacker target : combatant) (s : sim) (e : exn) :
  resolve_attack rand time i j attacker target s = Raise e -> e = ZeroDivisionError.
Proof.
  unfold resolve_attack. destruct (type_advantage _ _ _ _ _ _) as [m s1]. intros H.
  apply bind_raise in H as [H | (a & _ & H)]; [| discriminate].
  destruct (miss m); [discriminate | now apply hit_raise in H].
Qed.

Lemma attack_turn_raise (rand : random_source) (n1 : nat) (time : float)
    (i : nat) (s : sim) (e : exn) :
  attack_turn rand n1 time i s = Raise e -> e = ZeroDivisionError.
Proof.
  unfold attack_turn. destruct (actors s !! i) as [attacker |]; [| discriminate].
  destruct (_ <=? _)%F; [discriminate |].
  destruct (_ <? _)%F; [discriminate |].
  destruct (_ <=? _)%F; [| discriminate].
  destruct (alive_targets _ _ _) as [| j0 l]; [discriminate |].
  destruct (actors s !! _) as [target |]; [| discriminate].
  apply resolve_attack_raise.
Qed.

Lemma attack_all_raise (rand : random_source) (n1 : nat) (time : float)
    (order : list nat) (s : sim) (e : exn) :
  attack_all rand n1 time order s = Raise e -> e = ZeroDivisionError.
Proof.
  revert s. induction order as [| i order IH]; intros s H; simpl in H; [discriminate |].
  apply bind_raise in H as [H | (s' & _ & H)]; [now apply attack_turn_raise in H | eauto].
Qed.

Lemma tick_raise (rand : random_source) (n1 : nat) (time : float)
    (ws : list combatant) (cur : nat) (e : exn) :
  tick rand n1 time ws cur = Raise e -> e = ZeroDivisionError.
Proof.
  unfold tick. destruct (if mod1_is_zero time then _ else _) as [ws1 ev1].
  apply attack_all_raise.
Qed.

Lemma mapM_raise {A B : Type} (f : A -> result B) (l : list A) (e : exn) :
  (forall a e', f a = Raise e' -> e' = ZeroDivisionError) ->
  mapM f l = Raise e -> e = ZeroDivisionError.
Proof.
  intros Hf. induction l as [| a l IH]; simpl; [discriminate |]. intros H.
  apply bind_raise in H as [H | (b & _ & H)]; [eauto |].
  apply bind_raise in H as [H | (bs & _ & H)]; [auto | discriminate].
Qed.

Lemma init_warrior_state_raise (wd : warrior_data) (e : exn) :
  init_warrior_state wd = Raise e -> e = ZeroDivisionError.
Proof.
  unfold init_warrior_state. intros H.
  apply bind_raise in H as [H | (c & _ & H)]; [now apply py_div_raise in H | discriminate].
Qed.

(** ** The ticks recorded in the log *)

Lemma timestamps_app (a b : list event) :
  timestamps (a ++ b) = timestamps a ++ timestamps b.
Proof. unfold timestamps. apply flat_map_app. Qed.

Lemma regen_all_timestamps (ws : list combatant) :
  timestamps (snd (regen_all ws)) = [].
Proof.
  induction ws as [| w ws IH]; simpl; [reflexivity |].
  destruct (regen_one w) as [w' ev] eqn:Ew. destruct (regen_all ws) as [ws' evs].
  simpl in *. rewrite timestamps_app, IH, app_nil_r.
  unfold regen_one in Ew. destruct (_ && _); inversion Ew; reflexivity.
Qed.

Lemma type_advantage_timestamps (rand : random_source) (time : float)
    (attacker target : combatant) (j : nat) (s : sim) (m : matchup) (s1 : sim) :
  type_advantage rand time attacker target j s = (m, s1) ->
  timestamps (current_events s1) = timestamps (current_events s).
Proof.
  intros H. apply type_advantage_cases in H.
  destruct H as [(_ & _ & _ & ->) | [(_ & _ & _ & ->) | [(_ & _ & _ & ->) |
                [(_ & _ & _ & ->) | [(_ & _ & _ & ->) | [(_ & _ & _ & ->) |
                 (_ & _ & ->)]]]]]]; simpl;
    rewrite ?timestamps_app; simpl; rewrite ?app_nil_r; reflexivity.
Qed.

Lemma hit_timestamps (rand : random_source) (attacker target : combatant)
    (j : nat) (bonus : float) (s s' : sim) :
  hit rand attacker target j bonus s = Ok s' ->
  timestamps (current_events s') = timestamps (current_events s).
Proof.
  unfold hit. intros H. apply bind_ok in H as (dmg & _ & H).
  repeat match type of H with
         | context [match ?x with _ => _ end] => destruct x
         end;
    inversion H; subst; simpl;
    rewrite ?timestamps_app; simpl; rewrite ?app_nil_r; reflexivity.
Qed.

Lemma attack_turn_timestamps (rand : random_source) (n1 : nat) (time : float)
    (i : nat) (s s' : sim) :
  attack_turn rand n1 time i s = Ok s' ->
  timestamps (current_events s') = timestamps (current_events s).
Proof.
  unfold attack_turn. intros H.
  destruct (actors s !! i) as [attacker |]; [| now inversion H].
  destruct (_ <=? _)%F; [now inversion H |].
  destruct (_ <? _)%F; [now inversion H |].
  destruct (_ <=? _)%F; [| now inversion H].
  destruct (alive_targets _ _ _) as [| j0 l]; [now inversion H |].
  destruct (actors s !! _) as [target |]; [| now inversion H].
  unfold resolve_attack in H.
  destruct (type_advantage _ _ _ _ _ _) as [m s1] eqn:Em.
  apply type_advantage_timestamps in Em. simpl in Em.
  apply bind_ok in H as (s2 & H2 & H). inversion H. simpl.
  destruct (miss m); [inversion H2; subst; exact Em |].
  apply hit_timestamps in H2. congruence.
Qed.

Lemma attack_all_timestamps (rand : random_source) (n1 : nat) (time : float)
    (order : list nat) (s s' : sim) :
  attack_all rand n1 time order s = Ok s' ->
  timestamps (current_events s') = timestamps (current_events s).
Proof.
  revert s. induction order as [| i order IH]; intros s H; simpl in H.
  - now inversion H.
  - apply bind_ok in H as (s1 & H1 & H). apply attack_turn_timestamps in H1.
    rewrite (IH _ H). exact H1.
Qed.

Lemma tick_timestamps (rand : random_source) (n1 : nat) (time : float)
    (ws : list combatant) (cur : nat) (s : sim) :
  tick rand n1 time ws cur = Ok s -> timestamps (current_events s) = [].
Proof.
  unfold tick. intros H.
  destruct (if mod1_is_zero time then regen_all ws else (ws, [])) as [ws1 ev1] eqn:E.
  apply attack_all_timestamps in H. simpl in H. rewrite H.
  destruct (mod1_is_zero time); [| now inversion E].
  pose proof (regen_all_timestamps ws) as R. rewrite E in R. exact R.
Qed.

Lemma stamped_before_le (k k' : nat) (evs : list event) :
  stamped_before k evs -> (k <= k')%nat -> stamped_before k' evs.
Proof.
  unfold stamped_before. intros H Hle. eapply Forall_impl; [exact H |].
  intros t (j & Hj & ->). exists j. split; [lia | reflexivity].
Qed.

Lemma stamped_before_tick (k : nat) (evs cur : list event) :
  stamped_before k evs -> timestamps cur = [] ->
  stamped_before (S k)
    match cur with
    | [] => evs
    | _ :: _ => evs ++ EvTime (clock k) :: cur
    end.
Proof.
  intros H Hc. destruct cur as [| e cur]; [eapply stamped_before_le; eauto |].
  unfold stamped_before in *.
  change (EvTime (clock k) :: e :: cur) with ([EvTime (clock k)] ++ e :: cur).
  rewrite !timestamps_app, Hc, app_nil_r. apply Forall_app. split.
  - eapply Forall_impl; [exact H |].
    intros t (j & Hj & ->). exists j. split; [lia | reflexivity].
  - simpl. constructor; [| constructor]. exists k. split; [lia | reflexivity].
Qed.

(** ** The loop runs at most 3001 times *)

Lemma battle_loop_unfold (rand : random_source) (n1 fuel : nat) (time : float)
    (ws : list combatant) (cur : nat) (events : list event)
    (flags : option (bool * bool)) (ticks : nat) (history : list (list combatant)) :
  battle_loop rand n1 fuel time ws cur events flags ticks history =
  if (time <? max_time)%F then
    match fuel with
    | O => Raise FuelExhausted
    | S fuel' =>
        do s <- tick rand n1 time ws cur;
        let events' :=
          match current_events s with
          | [] => events
          | _ :: _ => events ++ EvTime time :: current_events s
          end in
        let team1_alive := any_alive (take n1 (actors s)) in
        let team2_alive := any_alive (drop n1 (actors s)) in
        if negb team1_alive || negb team2_alive then
          Ok {| f_actors := actors s; f_cursor := cursor s; f_events := events';
                f_team1_alive := team1_alive; f_team2_alive := team2_alive;
                f_ticks := S ticks; f_time := time;
                f_history := actors s :: history |}
        else
          battle_loop rand n1 fuel' (time + f0_1)%F (actors s) (cursor s) events'
                      (Some (team1_alive, team2_alive)) (S ticks)
                      (actors s :: history)
    end
  else
    match flags with
    | None => Raise UnboundLocalError
    | Some (team1_alive, team2_alive) =>
        Ok {| f_actors := ws; f_cursor := cur; f_events := events;
              f_team1_alive := team1_alive; f_team2_alive := team2_alive;
              f_ticks := ticks; f_time := time; f_history := history |}
    end.
Proof. destruct fuel; reflexivity. Qed.

Lemma battle_loop_post (rand : random_source) (n1 : nat) :
  forall (n k gas : nat) (ws : list combatant) (cur : nat) (evs : list event)
         (flags : option (bool * bool)) (hist : list (list combatant)),
    clock_ok n (clock k) = true ->
    (clock (k + n) <? max_time)%F = false ->
    (n <= gas)%nat ->
    stamped_before k evs ->
    (k = 0%nat /\ (0 < n)%nat /\ hist = []) \/
    (flags = Some (true, true) /\
     any_alive (take n1 ws) = true /\ any_alive (drop n1 ws) = true /\
     head hist = Some ws /\ length hist = k /\ (0 < k)%nat) ->
    loop_post n1 (k + n)
      (battle_loop rand n1 gas (clock k) ws cur evs flags k hist).
Proof.
  induction n as [| n IH]; intros k gas ws cur evs flags hist Hok Hend Hgas Hev Hpre.
  - rewrite Nat.add_0_r in *. rewrite battle_loop_unfold, Hend.
    destruct Hpre as [(_ & Hn & _) | (-> & H1 & H2 & Hh & Hl & Hk)]; [lia |].
    simpl. rewrite H1, H2. repeat split; auto; lia.
  - simpl in Hok. apply andb_true_iff in Hok as [Hok Hrest].
    apply andb_true_iff in Hok as [Hlt _].
    rewrite battle_loop_unfold, Hlt.
    destruct gas as [| gas]; [lia |].
    destruct (tick rand n1 (clock k) ws cur) as [s | e] eqn:Et; simpl;
      [| now apply tick_raise in Et].
    assert (Hlen : length (actors s :: hist) = S k).
    { simpl. destruct Hpre as [(-> & _ & ->) | (_ & _ & _ & _ & -> & _)]; reflexivity. }
    pose proof (stamped_before_tick k evs (current_events s) Hev (tick_timestamps _ _ _ _ _ _ Et))
      as Hev'.
    destruct (any_alive (take n1 (actors s))) eqn:E1;
      destruct (any_alive (drop n1 (actors s))) eqn:E2; simpl;
      try (repeat split; auto; try lia; discriminate).
    rewrite <- clock_succ in *.
    replace (k + S n)%nat with (S k + n)%nat in * by lia.
    apply IH; auto; try lia.
    right. repeat split; auto. lia.
Qed.

(** ** From the loop to the report *)

Lemma simulate_battle_ok (team1 team2 : list warrior_data) (rand : random_source)
    (r : report) :
  simulate_battle team1 team2 rand = Ok r ->
  exists (st1 st2 : list combatant) (speeds : list float) (fin : final),
    mapM init_warrior_state team1 = Ok st1 /\
    mapM init_warrior_state team2 = Ok st2 /\
    mapM (fun state => py_div (of_int 1) (cooldown state)) (st1 ++ st2) = Ok speeds /\
    battle_loop rand (length st1) fuel (of_int 0) (st1 ++ st2) 0 [] None 0 [] = Ok fin /\
    r = {| initial_stats := st1 ++ st2;
           attack_speeds := speeds;
           events := f_events fin;
           declared := declare (f_team1_alive fin) (f_team2_alive fin);
           final_states := f_actors fin;
           history := f_history fin;
           team1_size := length st1;
           ticks := f_ticks fin;
           draws := f_cursor fin |}.
Proof.
  unfold simulate_battle. intros H.
  apply bind_ok in H as (st1 & H1 & H). apply bind_ok in H as (st2 & H2 & H).
  apply bind_ok in H as (speeds & H3 & H). apply bind_ok in H as (fin & H4 & H).
  inversion H. exists st1, st2, speeds, fin. auto.
Qed.

Lemma simulate_battle_raise (team1 team2 : list warrior_data) (rand : random_source)
    (e : exn) :
  simulate_battle team1 team2 rand = Raise e -> e = ZeroDivisionError.
Proof.
  unfold simulate_battle. intros H.
  apply bind_raise in H as [H | (st1 & _ & H)];
    [exact (mapM_raise _ _ _ init_warrior_state_raise H) |].
  apply bind_raise in H as [H | (st2 & _ & H)];
    [exact (mapM_raise _ _ _ init_warrior_state_raise H) |].
  apply bind_raise in H as [H | (speeds & _ & H)].
  { refine (mapM_raise _ _ _ _ H). intros a e'. apply py_div_raise. }
  apply bind_raise in H as [H | (fin & _ & H)]; [| discriminate].
  pose proof (battle_loop_post rand (length st1) 3001 0 fuel (st1 ++ st2) 0 [] None []
                clock_ok_run clock_end) as P.
  change (clock 0) with (of_int 0) in P. rewrite H in P. apply P.
  - unfold fuel. lia.
  - constructor.
  - left. repeat split. lia.
Qed.

Lemma simulate_battle_loop_post (team1 team2 : list warrior_data)
    (rand : random_source) (r : report) :
  simulate_battle team1 team2 rand = Ok r ->
  (0 < ticks r <= 3001)%nat /\
  declared r = declare (any_alive (final_team1 r)) (any_alive (final_team2 r)) /\
  (any_alive (final_team1 r) && any_alive (final_team2 r) = true -> ticks r = 3001%nat) /\
  head (history r) = Some (final_states r) /\
  length (history r) = ticks r /\
  stamped_before (ticks r) (events r).
Proof.
  intros H. apply simulate_battle_ok in H as (st1 & st2 & speeds & fin & _ & _ & _ & H & ->).
  pose proof (battle_loop_post rand (length st1) 3001 0 fuel (st1 ++ st2) 0 [] None []
                clock_ok_run clock_end) as P.
  change (clock 0) with (of_int 0) in P. rewrite H in P.
  destruct P as (P1 & P2 & P3 & P4 & P5 & P6 & P7).
  - unfold fuel. lia.
  - constructor.
  - left. repeat split. lia.
  - unfold final_team1, final_team2. simpl. rewrite <- P2, <- P3. auto 10.
Qed.

(** * Termination, time limit and draw (claim C8) *)

(** C8, amended. Every battle terminates: it returns a report or raises
    ZeroDivisionError, the fuel of the model is never exhausted.  The clock
    advances by 0.1 from 0 and every tick recorded in the log happened at a
    time of the clock below 300.  The loop makes at most 3001 passes (the
    binary64 clock is still below 300 after 3000 steps of 0.1).  The
    declared outcome is a draw exactly when each team has a living member
    at the end, and then the loop has run to the time limit. *)
Theorem battle_terminates (team1 team2 : list warrior_data) (rand : random_source) :
  match simulate_battle team1 team2 rand with
  | Ok r =>
      (0 < ticks r <= 3001)%nat /\
      Forall (fun t => (exists j : nat, (j < ticks r)%nat /\ t = clock j) /\
                       (t <? max_time)%F = true)
             (timestamps (events r)) /\
      (any_alive (final_team1 r) && any_alive (final_team2 r) = true
       <-> declared r = Draw) /\
      (declared r = Draw ->
       ticks r = 3001%nat /\ (clock 3000 <? max_time)%F = true /\
       (clock 3001 <? max_time)%F = false)
  | Raise e => e = ZeroDivisionError
  end.
Proof.
  destruct (simulate_battle team1 team2 rand) as [r | e] eqn:E;
    [| now apply simulate_battle_raise in E].
  apply simulate_battle_loop_post in E as (H1 & H2 & H3 & _ & _ & H7).
  split; [exact H1 |]. split.
  { eapply Forall_impl; [exact H7 |]. intros t (j & Hj & ->).
    split; [eauto |]. apply clock_running. lia. }
  revert H1 H2 H3. clear H7. intros H1 H2 H3.
  assert (Hd : any_alive (final_team1 r) && any_alive (final_team2 r) = true
               <-> declared r = Draw).
  { rewrite H2. unfold declare.
    destruct (any_alive (final_team1 r)), (any_alive (final_team2 r)); simpl;
      split; congruence. }
  split; [exact Hd |]. intros HD.
  split; [apply H3, Hd, HD |].
  split; [apply clock_running; lia | apply clock_end].
Qed.

(** Two fighters whose first attack would come after 1000 seconds: the
    loop makes 3001 passes, not 3000, and the battle is a draw. *)
Lemma idle_battle_runs_3001_ticks :
  run_shows (simulate_battle [idle "A"] [idle "B"] lucky)
    (fun r => ticks r = 3001%nat /\ ~ (ticks r <= 3000)%nat /\
              declared r = Draw /\ events r = []).
Proof.
  assert (H : run_shows (simulate_battle [idle "A"] [idle "B"] lucky)
                (fun r => ticks r = 3001%nat /\ declared r = Draw /\ events r = [])).
  { vm_compute. auto. }
  destruct (simulate_battle [idle "A"] [idle "B"] lucky) as [r | e]; simpl in *; [| assumption].
  destruct H as (-> & ? & ?). repeat split; auto. lia.
Qed.

(** * The victory declaration (claim C2) *)

Lemma brought_down_none_alive (before after : list combatant) :
  brought_down before after = true -> any_alive after = false.
Proof.
  revert after. induction before as [| b before IH]; intros [| a after]; simpl;
    try discriminate; [reflexivity |].
  intros H. apply andb_true_iff in H as [Ha H]. rewrite (IH _ H), orb_false_r.
  destruct (alive b).
  - unfold alive. now apply fleb_not_fltb.
  - now apply negb_true_iff in Ha.
Qed.

(** C2, amended. The declared outcome is decided by testing team 2 first:
    it is Team1Victory whenever team 2 has no living member at the end,
    also when team 1 has none either.  In particular a battle whose last
    tick brings the last living members of both teams to hp <= 0 is
    declared a victory of team 1. *)
Theorem double_knockout_outcome (team1 team2 : list warrior_data)
    (rand : random_source) (r : report) :
  simulate_battle team1 team2 rand = Ok r ->
  declared r = declare (any_alive (final_team1 r)) (any_alive (final_team2 r)) /\
  (any_alive (final_team2 r) = false -> declared r = Team1Victory) /\
  (double_knockout r = true ->
   any_alive (final_team1 r) = false /\ any_alive (final_team2 r) = false /\
   declared r = Team1Victory).
Proof.
  intros H. apply simulate_battle_loop_post in H as (_ & Hd & _).
  split; [exact Hd |]. split.
  - intros H2. rewrite Hd, H2. reflexivity.
  - unfold double_knockout. rewrite !andb_true_iff. intros [[_ H1] H2].
    apply brought_down_none_alive in H1, H2.
    unfold final_team1, final_team2. rewrite Hd.
    unfold final_team1, final_team2. rewrite H1, H2. auto.
Qed.

Lemma double_knockout_outcome_witness :
  declared (report_of (simulate_battle [ko_S; ko_P; ko_Q] [ko_V; ko_B; ko_W] ko_source))
  = Team1Victory.
Proof.
  destruct (double_knockout_outcome [ko_S; ko_P; ko_Q] [ko_V; ko_B; ko_W] ko_source
              (report_of (simulate_battle [ko_S; ko_P; ko_Q] [ko_V; ko_B; ko_W] ko_source)))
    as (_ & _ & H).
  - vm_compute. reflexivity.
  - apply H. vm_compute. reflexivity.
Defined.

(** The double knockout: in the fourth pass S brings down W, the last
    living member of team 2, and V, whose hp is a NaN since S hit it for
    an infinite amount, brings down S, the last living member of team 1.
    The victory goes to team 1, not to team 2. *)
Lemma double_knockout_is_team1_victory :
  run_shows (simulate_battle [ko_S; ko_P; ko_Q] [ko_V; ko_B; ko_W] ko_source)
    (fun r => double_knockout r = true /\ ticks r = 4%nat /\
              declared r = Team1Victory /\ declared r <> Team2Victory).
Proof. vm_compute. repeat split; discriminate. Qed.

(** * Teams of different sizes and empty teams (claim C1) *)

Lemma init_warrior_state_full_hp (wd : warrior_data) (c : combatant) :
  init_warrior_state wd = Ok c -> hp c = max_hp c.
Proof.
  unfold init_warrior_state. intros H. apply bind_ok in H as (cd & _ & H).
  inversion H. reflexivity.
Qed.

Lemma mapM_Forall {A B : Type} (f : A -> result B) (P : B -> Prop)
    (l : list A) (bs : list B) :
  (forall a b, f a = Ok b -> P b) -> mapM f l = Ok bs -> Forall P bs.
Proof.
  intros Hf. revert bs. induction l as [| a l IH]; simpl; intros bs H.
  - inversion H. constructor.
  - apply bind_ok in H as (b & Hb & H). apply bind_ok in H as (bs' & Hbs & H).
    inversion H. constructor; eauto.
Qed.

Lemma mapM_length {A B : Type} (f : A -> result B) (l : list A) (bs : list B) :
  mapM f l = Ok bs -> length bs = length l.
Proof.
  revert bs. induction l as [| a l IH]; simpl; intros bs H.
  - inversion H. reflexivity.
  - apply bind_ok in H as (b & Hb & H). apply bind_ok in H as (bs' & Hbs & H).
    inversion H. simpl. f_equal. auto.
Qed.

(** Nobody regenerates at full health. *)
Lemma regen_all_full (ws : list combatant) :
  Forall (fun c => hp c = max_hp c) ws -> regen_all ws = (ws, []).
Proof.
  induction 1 as [| w ws Hw _ IH]; simpl; [reflexivity |].
  unfold regen_one. rewrite Hw, fltb_irrefl, andb_false_r, IH. reflexivity.
Qed.

Lemma attack_turn_no_candidates (rand : random_source) (n1 : nat) (time : float)
    (i : nat) (s : sim) :
  actors s !! i = None \/ alive_targets n1 i (actors s) = [] ->
  attack_turn rand n1 time i s = Ok s.
Proof.
  intros [H | H]; unfold attack_turn; rewrite H; [reflexivity |].
  destruct (actors s !! i); [| reflexivity].
  repeat (destruct (_ : bool); try reflexivity).
Qed.

Lemma attack_all_no_candidates (rand : random_source) (n1 : nat) (time : float)
    (order : list nat) (s : sim) :
  (forall i, actors s !! i = None \/ alive_targets n1 i (actors s) = []) ->
  attack_all rand n1 time order s = Ok s.
Proof.
  intros H. induction order as [| i order IH]; simpl; [reflexivity |].
  rewrite attack_turn_no_candidates by apply H. exact IH.
Qed.

(** With an empty team there is nobody to aim at, on either side. *)
Lemma one_sided_no_targets (n1 i : nat) (ws : list combatant) :
  n1 = 0%nat \/ n1 = length ws ->
  ws !! i = None \/ alive_targets n1 i ws = [].
Proof.
  intros [-> | ->]; unfold alive_targets, targets, in_team1.
  - right. simpl. destruct (ws !! i); reflexivity.
  - destruct (i <? length ws)%nat eqn:E.
    + right. now rewrite Nat.sub_diag.
    + left. apply Nat.ltb_ge in E. now apply lookup_ge_None_2.
Qed.

Lemma first_tick_one_sided (rand : random_source) (n1 : nat)
    (ws : list combatant) (cur : nat) :
  n1 = 0%nat \/ n1 = length ws ->
  Forall (fun c => hp c = max_hp c) ws ->
  tick rand n1 (of_int 0) ws cur
  = Ok {| actors := ws; cursor := cur; current_events := [] |}.
Proof.
  intros Hn Hf. unfold tick. change (mod1_is_zero (of_int 0)) with true.
  rewrite regen_all_full by assumption.
  apply attack_all_no_candidates. intros i. now apply one_sided_no_targets.
Qed.

Lemma one_sided_wiped (n1 : nat) (ws : list combatant) :
  n1 = 0%nat \/ n1 = length ws ->
  negb (any_alive (take n1 ws)) || negb (any_alive (drop n1 ws)) = true /\
  declare (any_alive (take n1 ws)) (any_alive (drop n1 ws))
  = if any_alive (drop n1 ws) then Team2Victory else Team1Victory.
Proof.
  intros [-> | ->].
  - rewrite take_0, drop_0. simpl. split; [reflexivity |]. unfold declare.
    destruct (any_alive ws); reflexivity.
  - rewrite drop_all. simpl. split; [apply orb_true_r | reflexivity].
Qed.

(** The pass after which the loop breaks. *)
Lemma battle_loop_break (rand : random_source) (n1 fuel : nat) (time : float)
    (ws : list combatant) (cur : nat) (evs : list event)
    (flags : option (bool * bool)) (k : nat) (hist : list (list combatant)) (s : sim) :
  (0 < fuel)%nat ->
  (time <? max_time)%F = true ->
  tick rand n1 time ws cur = Ok s ->
  negb (any_alive (take n1 (actors s))) || negb (any_alive (drop n1 (actors s))) = true ->
  battle_loop rand n1 fuel time ws cur evs flags k hist
  = Ok {| f_actors := actors s; f_cursor := cursor s;
          f_events := match current_events s with
                      | [] => evs
                      | _ :: _ => evs ++ EvTime time :: current_events s
                      end;
          f_team1_alive := any_alive (take n1 (actors s));
          f_team2_alive := any_alive (drop n1 (actors s));
          f_ticks := S k; f_time := time; f_history := actors s :: hist |}.
Proof.
  intros Hfuel Ht Htick Hw. rewrite battle_loop_unfold, Ht.
  destruct fuel as [| fuel']; [lia |]. rewrite Htick. cbn [bind]. cbv zeta.
  rewrite Hw. reflexivity.
Qed.




(** * The random source decides the battle (claim C9) *)

Lemma agree_le (n m : nat) (r1 r2 : random_source) :
  agree n r1 r2 -> (m <= n)%nat -> agree m r1 r2.
Proof. intros H Hle k Hk. apply H. lia. Qed.

Lemma local_step_bind (f g : random_source -> sim -> result sim) :
  local_step f -> local_step g ->
  local_step (fun rand s => do s1 <- f rand s; g rand s1).
Proof.
  intros Hf Hg rand s s' H. apply bind_ok in H as (s1 & H1 & H2).
  destruct (Hf _ _ _ H1) as [L1 A1]. destruct (Hg _ _ _ H2) as [L2 A2].
  split; [lia |]. intros rand' Ha.
  rewrite (A1 rand') by (eapply agree_le; eauto). simpl. now apply A2.
Qed.

(** A branch of the type-advantage block that reads one value. *)
Ltac one_draw H Hdraw E :=
  inversion H; subst; simpl; (split; [lia |]);
  let rand' := fresh "rand'" in
  let Ha := fresh "Ha" in
  intros rand' Ha; rewrite (Hdraw rand' Ha), E; reflexivity.

Lemma type_advantage_local (rand : random_source) (time : float)
    (attacker target : combatant) (j : nat) (s : sim) (m : matchup) (s1 : sim) :
  type_advantage rand time attacker target j s = (m, s1) ->
  (cursor s <= cursor s1)%nat /\
  forall rand' : random_source,
    agree (cursor s1) rand rand' ->
    type_advantage rand' time attacker target j s = (m, s1).
Proof.
  unfold type_advantage. intros H.
  assert (Hdraw : forall rand' : random_source,
             agree (S (cursor s)) rand rand' -> rand' (cursor s) = rand (cursor s)).
  { intros rand' Ha. symmetry. apply Ha. lia. }
  destruct (String.eqb (type attacker) "Smart" && String.eqb (type target) "Dexterous").
  { destruct (_ <? _)%F eqn:E; one_draw H Hdraw E. }
  destruct (String.eqb (type attacker) "Smart" && String.eqb (type target) "Tough").
  { destruct (_ <? _)%F eqn:E; one_draw H Hdraw E. }
  destruct (String.eqb (type attacker) "Tough" && String.eqb (type target) "Dexterous").
  { destruct (_ && _) eqn:E; one_draw H Hdraw E. }
  inversion H; subst. split; [lia | reflexivity].
Qed.

Lemma hit_cursor (rand : random_source) (attacker target : combatant)
    (j : nat) (bonus : float) (s s' : sim) :
  hit rand attacker target j bonus s = Ok s' -> cursor s' = S (cursor s).
Proof.
  unfold hit. intros H. apply bind_ok in H as (dmg & _ & H). inversion H.
  destruct (alter _ j (actors s) !! j) as [t |]; [| reflexivity].
  destruct (_ <=? _)%F; reflexivity.
Qed.

Lemma hit_local (attacker target : combatant) (j : nat) (bonus : float) :
  local_step (fun rand s => hit rand attacker target j bonus s).
Proof.
  intros rand s s' H. pose proof (hit_cursor _ _ _ _ _ _ _ H) as Hc.
  split; [lia |]. intros rand' Ha. unfold hit in *.
  rewrite <- (Ha (cursor s)) by lia. exact H.
Qed.

Lemma resolve_attack_local (time : float) (i j : nat) (attacker target : combatant) :
  local_step (fun rand s => resolve_attack rand time i j attacker target s).
Proof.
  intros rand s s' H. unfold resolve_attack in *.
  destruct (type_advantage rand time attacker target j s) as [m s1] eqn:Em.
  destruct (type_advantage_local _ _ _ _ _ _ _ _ Em) as [L1 A1].
  apply bind_ok in H as (s2 & H2 & H). inversion H; subst. simpl.
  destruct (miss m) eqn:Emiss.
  - inversion H2; subst. split; [lia |]. intros rand' Ha.
    rewrite (A1 rand' Ha), Emiss. reflexivity.
  - destruct (hit_local attacker target j (bonus_dmg m) _ _ _ H2) as [L2 A2].
    split; [lia |]. intros rand' Ha.
    rewrite (A1 rand') by (eapply agree_le; eauto). rewrite Emiss.
    rewrite (A2 rand' Ha). reflexivity.
Qed.

(** The turn is skipped: nothing is read. *)
Ltac skipped H := inversion H; subst; split; [lia | reflexivity].

Lemma attack_turn_local (n1 : nat) (time : float) (i : nat) :
  local_step (fun rand s => attack_turn rand n1 time i s).
Proof.
  intros rand s s' H. unfold attack_turn in *.
  destruct (actors s !! i) as [attacker |]; [| skipped H].
  destruct (_ <=? _)%F; [skipped H |].
  destruct (_ <? _)%F; [skipped H |].
  destruct (_ <=? _)%F; [| skipped H].
  destruct (alive_targets n1 i (actors s)) as [| j0 l] eqn:El; [skipped H |].
  destruct (actors s !! nth (d_index (rand (cursor s)) mod length (j0 :: l)) (j0 :: l) j0)
    as [target |] eqn:Et.
  - destruct (resolve_attack_local time i _ attacker target _ _ _ H) as [L A].
    simpl in L. split; [lia |]. intros rand' Ha.
    rewrite <- (Ha (cursor s)) by lia. rewrite Et. now apply A.
  - (* the store has a fighter at every position of a candidate *)
    exfalso. clear H.
    set (jj := nth (d_index (rand (cursor s)) mod length (j0 :: l)) (j0 :: l) j0) in *.
    assert (Hin : In jj (j0 :: l)).
    { apply nth_In. apply Nat.mod_upper_bound. discriminate. }
    rewrite <- El in Hin. unfold alive_targets in Hin.
    apply filter_In in Hin as [_ Hal]. unfold alive_at in Hal. rewrite Et in Hal.
    discriminate.
Qed.

Lemma attack_all_local (n1 : nat) (time : float) (order : list nat) :
  local_step (fun rand s => attack_all rand n1 time order s).
Proof.
  induction order as [| i order IH]; simpl.
  - intros rand s s' H. inversion H; subst. split; [lia | reflexivity].
  - apply (local_step_bind (fun rand s => attack_turn rand n1 time i s)
                           (fun rand s => attack_all rand n1 time order s));
      [apply attack_turn_local | exact IH].
Qed.

Lemma tick_local (rand : random_source) (n1 : nat) (time : float)
    (ws : list combatant) (cur : nat) (s : sim) :
  tick rand n1 time ws cur = Ok s ->
  (cur <= cursor s)%nat /\
  forall rand' : random_source,
    agree (cursor s) rand rand' -> tick rand' n1 time ws cur = Ok s.
Proof.
  unfold tick. destruct (if mod1_is_zero time then _ else _) as [ws1 ev1]. intros H.
  destruct (attack_all_local n1 time _ _ _ _ H) as [L A]. auto.
Qed.

Lemma battle_loop_local (rand : random_source) (n1 : nat) :
  forall (gas : nat) (time : float) (ws : list combatant) (cur : nat)
         (evs : list event) (flags : option (bool * bool)) (k : nat)
         (hist : list (list combatant)) (fin : final),
    battle_loop rand n1 gas time ws cur evs flags k hist = Ok fin ->
    (cur <= f_cursor fin)%nat /\
    forall rand' : random_source,
      agree (f_cursor fin) rand rand' ->
      battle_loop rand' n1 gas time ws cur evs flags k hist = Ok fin.
Proof.
  induction gas as [| gas IH]; intros time ws cur evs flags k hist fin H.
  - rewrite battle_loop_unfold in H.
    destruct (time <? max_time)%F eqn:Et; [discriminate |].
    destruct flags as [[t1 t2] |]; [| discriminate]. inversion H; subst. cbn [f_cursor].
    split; [lia |]. intros rand' _. rewrite battle_loop_unfold, Et. reflexivity.
  - rewrite battle_loop_unfold in H. destruct (time <? max_time)%F eqn:Et.
    + apply bind_ok in H as (s & Hs & H). cbv zeta in H.
      destruct (tick_local _ _ _ _ _ _ Hs) as [L A].
      destruct (negb (any_alive (take n1 (actors s))) ||
                negb (any_alive (drop n1 (actors s)))) eqn:Ew.
      * inversion H; subst. cbn [f_cursor]. split; [lia |]. intros rand' Ha.
        rewrite battle_loop_unfold, Et, (A rand' Ha). cbn [bind]. cbv zeta.
        rewrite Ew. reflexivity.
      * destruct (IH _ _ _ _ _ _ _ _ H) as [L' A']. split; [lia |].
        intros rand' Ha. rewrite battle_loop_unfold, Et.
        rewrite (A rand') by (eapply agree_le; eauto). cbn [bind]. cbv zeta.
        rewrite Ew. now apply A'.
    + destruct flags as [[t1 t2] |]; [| discriminate]. inversion H; subst. cbn [f_cursor].
      split; [lia |]. intros rand' _. rewrite battle_loop_unfold, Et. reflexivity.
Qed.

(** C9. The report of a battle depends on the teams and on the values the
    run reads from the random source, and on nothing else: a second run
    whose random source delivers the same values, as far as the first run
    read them, returns the same report -- the same initial stats, the same
    event log, the same declared outcome, the same final states, after the
    same number of ticks and of values read. *)
Theorem same_draws_same_battle (team1 team2 : list warrior_data)
    (rand rand' : random_source) (r : report) :
  simulate_battle team1 team2 rand = Ok r ->
  agree (draws r) rand rand' ->
  simulate_battle team1 team2 rand' = Ok r.
Proof.
  intros H Ha.
  apply simulate_battle_ok in H as (st1 & st2 & speeds & fin & H1 & H2 & H3 & H & ->).
  simpl in Ha. destruct (battle_loop_local _ _ _ _ _ _ _ _ _ _ _ H) as [_ A].
  unfold simulate_battle. rewrite H1. cbn [bind]. rewrite H2. cbn [bind].
  rewrite H3. cbn [bind]. rewrite (A rand' Ha). reflexivity.
Qed.

Lemma same_draws_same_battle_witness :
  simulate_battle [ko_S; ko_P; ko_Q] [ko_V; ko_B; ko_W] ko_source_then_other
  = Ok (report_of (simulate_battle [ko_S; ko_P; ko_Q] [ko_V; ko_B; ko_W] ko_source)).
Proof.
  apply (same_draws_same_battle [ko_S; ko_P; ko_Q] [ko_V; ko_B; ko_W] ko_source).
  - vm_compute. reflexivity.
  - change (draws (report_of
              (simulate_battle [ko_S; ko_P; ko_Q] [ko_V; ko_B; ko_W] ko_source)))
      with 13%nat.
    intros k Hk. unfold ko_source_then_other.
    destruct (k <? 13)%nat eqn:E; [reflexivity | apply Nat.ltb_ge in E; lia].
Defined.

(** * Regeneration (claim C6) *)

(** Regeneration is tried only when [time % 1 == 0]. *)
Lemma tick_without_regeneration (rand : random_source) (n1 : nat) (time : float)
    (ws : list combatant) (cur : nat) :
  mod1_is_zero time = false ->
  tick rand n1 time ws cur
  = attack_all rand n1 time (seq 0 (length ws))
      {| actors := ws; cursor := cur; current_events := [] |}.
Proof. intros H. unfold tick. rewrite H. reflexivity. Qed.

(** A fighter regenerates only when alive and below max_hp, and then by
    min(hp_regen, max_hp - hp); nothing else of it changes. *)
Lemma regen_one_cases (w : combatant) :
  (alive w = true /\ (hp w <? max_hp w)%F = true /\
   regen_one w
   = (set_hp (hp w + py_min (hp_regen w) (max_hp w - hp w))%F w,
      [EvRegen (name w) (py_min (hp_regen w) (max_hp w - hp w)%F)])) \/
  (alive w && (hp w <? max_hp w)%F = false /\ regen_one w = (w, [])).
Proof.
  unfold regen_one, alive.
  destruct (f0 <? hp w)%F, (hp w <? max_hp w)%F; simpl; auto.
Qed.

Lemma whole_ticks_spec (n k : nat) (j : nat) :
  In j (whole_ticks n k (clock k)) <->
  (k <= j < k + n)%nat /\ mod1_is_zero (clock j) = true.
Proof.
  revert k. induction n as [| n IH]; intros k; simpl.
  - split; [tauto | lia].
  - rewrite in_app_iff, <- clock_succ, IH. split.
    + intros [H | H].
      * destruct (mod1_is_zero (clock k)) eqn:E; simpl in H; [| tauto].
        destruct H as [<- | []]. split; [lia | assumption].
      * split; [lia | tauto].
    + intros [H1 H2]. destruct (Nat.eq_dec j k) as [-> | Hne].
      * left. rewrite H2. now left.
      * right. split; [lia | assumption].
Qed.

(** The binary64 clock is at a whole number of seconds in two passes of
    the loop only: the first, at time 0, and the 191st, at time 19.0. *)
Lemma regeneration_ticks (k : nat) :
  (k < 3001)%nat ->
  (mod1_is_zero (clock k) = true <-> k = 0%nat \/ k = 190%nat).
Proof.
  intros Hk. pose proof (whole_ticks_spec 3001 0 k) as H.
  change (clock 0) with (of_int 0) in H.
  replace (whole_ticks 3001 0 (of_int 0)) with [0%nat; 190%nat] in H
    by (vm_compute; reflexivity).
  simpl in H. split.
  - intros E. destruct H as [_ H]. destruct H as [H | [H | []]]; auto. split; [lia | exact E].
  - intros E. apply H. destruct E; auto.
Qed.

(** C6, at the failing input. Three hits of 49.99999999999996 leave D with
    1.5631940186722204e-13 HP when the clock reaches 19.0.  D then
    regenerates min(1000.25, max_hp - hp): the difference rounds up to
    149.9999999999999, the sum rounds up again, and D ends the pass with
    150.00000000000006 HP, above its max_hp of 150.00000000000003. *)
Theorem regeneration_exceeds_max_hp :
  run_shows (simulate_battle [rounding_A] [rounding_D] lucky)
    (fun r =>
       map (fun c => (hp c, max_hp c)) <$> rev (history r) !! 189%nat
       = Some [(of_int 150, of_int 150);
               (S754_finite false 6192449487634432 (-95),
                S754_finite false 5277655813324801 (-45))] /\
       map (fun c => (hp c, max_hp c)) <$> rev (history r) !! 190%nat
       = Some [(of_int 150, of_int 150);
               (S754_finite false 5277655813324802 (-45),
                S754_finite false 5277655813324801 (-45))] /\
       existsb (existsb exceeds_max) (history r) = true).
Proof. vm_compute. auto. Qed.

Lemma battle_terminates_witness :
  match simulate_battle [brawler "A"] [brawler "B"] lucky with
  | Ok r =>
      (0 < ticks r <= 3001)%nat /\
      Forall (fun t => (exists j : nat, (j < ticks r)%nat /\ t = clock j) /\
                       (t <? max_time)%F = true)
             (timestamps (events r)) /\
      (any_alive (final_team1 r) && any_alive (final_team2 r) = true
       <-> declared r = Draw) /\
      (declared r = Draw ->
       ticks r = 3001%nat /\ (clock 3000 <? max_time)%F = true /\
       (clock 3001 <? max_time)%F = false)
  | Raise e => e = ZeroDivisionError
  end.
Proof. exact (battle_terminates [brawler "A"] [brawler "B"] lucky). Defined.

(** * Invariants of the battle loop *)

(** The rule of the loop: what holds at the start and is kept by every
    pass holds of what the loop returns. *)
Lemma battle_loop_rule (rand : random_source) (n1 : nat)
    (Inv : nat -> list combatant -> nat -> list event ->
           list (list combatant) -> Prop) :
  (forall (k : nat) (ws : list combatant) (cur : nat) (evs : list event)
          (hist : list (list combatant)) (s : sim),
      (k < 3001)%nat -> Inv k ws cur evs hist ->
      tick rand n1 (clock k) ws cur = Ok s ->
      Inv (S k) (actors s) (cursor s)
          match current_events s with
          | [] => evs
          | _ :: _ => evs ++ EvTime (clock k) :: current_events s
          end
          (actors s :: hist)) ->
  forall (n k gas : nat) (ws : list combatant) (cur : nat) (evs : list event)
         (flags : option (bool * bool)) (hist : list (list combatant))
         (fin : final),
    (k + n = 3001)%nat -> Inv k ws cur evs hist ->
    battle_loop rand n1 gas (clock k) ws cur evs flags k hist = Ok fin ->
    Inv (f_ticks fin) (f_actors fin) (f_cursor fin) (f_events fin)
        (f_history fin).
Proof.
  intros Hstep. induction n as [| n IH]; intros k gas ws cur evs flags hist fin Hk HI H.
  - assert (E : (clock k <? max_time)%F = false).
    { replace k with 3001%nat by lia. exact clock_end. }
    rewrite battle_loop_unfold, E in H.
    destruct flags as [[a b] |]; [| discriminate]. injection H as <-. exact HI.
  - rewrite battle_loop_unfold, clock_running in H by lia.
    destruct gas as [| gas]; [discriminate |].
    destruct (tick rand n1 (clock k) ws cur) as [s | e] eqn:Et; [| discriminate].
    cbn [bind] in H. cbv zeta in H.
    specialize (Hstep k ws cur evs hist s ltac:(lia) HI Et).
    destruct (negb _ || negb _).
    + injection H as <-. exact Hstep.
    + rewrite <- clock_succ in H. eapply IH; [| exact Hstep | exact H]. lia.
Qed.

Lemma simulate_battle_rule (team1 team2 : list warrior_data)
    (rand : random_source) (r : report)
    (Inv : nat -> list combatant -> nat -> list event ->
           list (list combatant) -> Prop) :
  simulate_battle team1 team2 rand = Ok r ->
  (forall (k : nat) (ws : list combatant) (cur : nat) (evs : list event)
          (hist : list (list combatant)) (s : sim),
      (k < 3001)%nat -> Inv k ws cur evs hist ->
      tick rand (team1_size r) (clock k) ws cur = Ok s ->
      Inv (S k) (actors s) (cursor s)
          match current_events s with
          | [] => evs
          | _ :: _ => evs ++ EvTime (clock k) :: current_events s
          end
          (actors s :: hist)) ->
  Inv 0%nat (initial_stats r) 0%nat [] [] ->
  Inv (ticks r) (final_states r) (draws r) (events r) (history r).
Proof.
  intros H Hstep H0.
  apply simulate_battle_ok in H as (st1 & st2 & speeds & fin & _ & _ & _ & H & ->).
  cbn [ticks final_states draws events history initial_stats team1_size] in *.
  change (of_int 0) with (clock 0) in H.
  eapply (battle_loop_rule rand (length st1) Inv Hstep 3001 0); [reflexivity | exact H0 | exact H].
Qed.

(** ** The anatomy of an attack *)

Lemma hit_cases (rand : random_source) (attacker target : combatant)
    (j : nat) (bonus : float) (s s' : sim) :
  hit rand attacker target j bonus s = Ok s' ->
  exists dmg base : float,
    (f1 <=? dmg)%F = true /\
    (s' = push (EvDamage (name attacker) (name target) dmg base)
               (update j (fun t => set_hp (hp t - dmg)%F t) (advance s)) \/
     s' = push (EvDefeated (name target))
            (push (EvDamage (name attacker) (name target) dmg base)
               (update j (fun t => set_hp (hp t - dmg)%F t) (advance s)))).
Proof.
  unfold hit. intros H. apply bind_ok in H as (dmg & Hd & H).
  apply resolve_damage_at_least_one in Hd. exists dmg.
  exists (uniform (min_dmg attacker) (max_dmg attacker) (d_unit (rand (cursor s)))).
  split; [exact Hd |]. injection H as <-.
  match goal with
  | |- context [match ?x with _ => _ end] => destruct x as [t |]
  end; [destruct (hp t <=? f0)%F; [right | left] | left]; reflexivity.
Qed.

Lemma attack_turn_cases (rand : random_source) (n1 : nat) (time : float)
    (i : nat) (s s' : sim) :
  attack_turn rand n1 time i s = Ok s' ->
  s' = s \/
  exists (attacker target : combatant) (j : nat) (m : matchup) (s1 s2 : sim),
    actors s !! i = Some attacker /\
    (hp attacker <=? f0)%F = false /\
    (time <? stun_end attacker)%F = false /\
    (next_attack attacker <=? time)%F = true /\
    actors s !! j = Some target /\
    alive target = true /\
    In j (targets n1 i (actors s)) /\
    type_advantage rand time attacker target j (advance s) = (m, s1) /\
    (if miss m then Ok s1 else hit rand attacker target j (bonus_dmg m) s1) = Ok s2 /\
    s' = update i (fun a => set_next_attack (time + cooldown a)%F a) s2.
Proof.
  unfold attack_turn. intros H.
  destruct (actors s !! i) as [attacker |] eqn:Ea; [| left; congruence].
  destruct (hp attacker <=? f0)%F eqn:E1; [left; congruence |].
  destruct (time <? stun_end attacker)%F eqn:E2; [left; congruence |].
  destruct (next_attack attacker <=? time)%F eqn:E3; [| left; congruence].
  destruct (alive_targets n1 i (actors s)) as [| j0 l] eqn:El; [left; congruence |].
  set (jj := nth (d_index (rand (cursor s)) mod length (j0 :: l)) (j0 :: l) j0) in *.
  assert (Hin : In jj (j0 :: l)).
  { apply nth_In. apply Nat.mod_upper_bound. discriminate. }
  rewrite <- El in Hin. unfold alive_targets in Hin.
  apply filter_In in Hin as [Hin Hal]. unfold alive_at in Hal.
  destruct (actors s !! jj) as [target |] eqn:Et; [| discriminate].
  right. unfold resolve_attack in H.
  destruct (type_advantage rand time attacker target jj (advance s)) as [m s1] eqn:Em.
  apply bind_ok in H as (s2 & H2 & H). injection H as <-.
  exists attacker, target, jj, m, s1, s2. auto 12.
Qed.

(** The store after the type-advantage block: as before, or with the stun
    applied to the target. *)
Lemma type_advantage_actors (rand : random_source) (time : float)
    (attacker target : combatant) (j : nat) (s : sim) (m : matchup) (s1 : sim) :
  type_advantage rand time attacker target j s = (m, s1) ->
  actors s1 = actors s \/ actors s1 = alter (apply_stun time) j (actors s).
Proof.
  intros H. apply type_advantage_cases in H.
  destruct H as [(_ & _ & _ & ->) | [(_ & _ & _ & ->) | [(_ & _ & _ & ->) |
                [(_ & _ & _ & ->) | [(_ & _ & _ & ->) | [(_ & _ & _ & ->) |
                 (_ & _ & ->)]]]]]]; simpl; auto.
Qed.

Lemma hit_actors (rand : random_source) (attacker target : combatant)
    (j : nat) (bonus : float) (s s' : sim) :
  hit rand attacker target j bonus s = Ok s' ->
  exists dmg : float,
    (f1 <=? dmg)%F = true /\
    actors s' = alter (fun t => set_hp (hp t - dmg)%F t) j (actors s).
Proof.
  intros H. apply hit_cases in H as (dmg & base & Hd & [-> | ->]); exists dmg; auto.
Qed.

(** An attack changes the store at the positions of the target and of the
    attacker only, by these three updates. *)
Lemma attack_turn_actors (rand : random_source) (n1 : nat) (time : float)
    (i : nat) (s s' : sim) :
  attack_turn rand n1 time i s = Ok s' ->
  actors s' = actors s \/
  exists (attacker target : combatant) (j : nat) (f : combatant -> combatant),
    actors s !! i = Some attacker /\
    (hp attacker <=? f0)%F = false /\
    (next_attack attacker <=? time)%F = true /\
    actors s !! j = Some target /\
    alive target = true /\
    (forall c : combatant,
        f c = c \/ f c = apply_stun time c \/
        (exists dmg : float, f c = set_hp (hp c - dmg)%F c) \/
        (exists dmg : float, f c = set_hp (hp (apply_stun time c) - dmg)%F (apply_stun time c))) /\
    actors s' = alter (fun a => set_next_attack (time + cooldown a)%F a) i
                      (alter f j (actors s)).
Proof.
  intros H. apply attack_turn_cases in H as [-> | H]; [now left |]. right.
  destruct H as (attacker & target & j & m & s1 & s2 & Ha & E1 & _ & E3 & Ht & Hal & _ & Em & H2 & ->).
  apply type_advantage_actors in Em. cbn [actors advance] in Em.
  destruct (miss m).
  - injection H2 as <-. destruct Em as [Em | Em].
    + exists attacker, target, j, (fun c => c). repeat (split; [assumption |]).
      split; [auto |]. cbn [actors update]. rewrite Em.
      f_equal. symmetry. apply list_alter_id. reflexivity.
    + exists attacker, target, j, (apply_stun time). repeat (split; [assumption |]).
      split; [auto |]. cbn [actors update]. now rewrite Em.
  - apply hit_actors in H2 as (dmg & _ & H2). destruct Em as [Em | Em].
    + exists attacker, target, j, (fun t => set_hp (hp t - dmg)%F t).
      repeat (split; [assumption |]). split; [eauto |].
      cbn [actors update]. now rewrite H2, Em.
    + exists attacker, target, j,
        (fun t => set_hp (hp (apply_stun time t) - dmg)%F (apply_stun time t)).
      repeat (split; [assumption |]). split; [eauto 6 |].
      cbn [actors update]. rewrite H2, Em. f_equal.
      rewrite list_alter_alter_eq. reflexivity.
Qed.

(** ** What a tick does to the store *)

Lemma regen_all_map (ws : list combatant) :
  fst (regen_all ws) = map (fun w => fst (regen_one w)) ws.
Proof.
  induction ws as [| w ws IH]; simpl; [reflexivity |].
  destruct (regen_one w) as [w' ev]. destruct (regen_all ws) as [ws' evs].
  simpl in *. now rewrite IH.
Qed.

(** A step of the store that every part of a tick makes holds of the tick:
    [R] is kept by regeneration and by each attack. *)
Lemma tick_store_rule (R : list combatant -> list combatant -> Prop) :
  (forall ws : list combatant, R ws ws) ->
  (forall a b c : list combatant, R a b -> R b c -> R a c) ->
  (forall ws : list combatant, R ws (fst (regen_all ws))) ->
  (forall (rand : random_source) (n1 : nat) (time : float) (i : nat) (s s' : sim),
      attack_turn rand n1 time i s = Ok s' -> R (actors s) (actors s')) ->
  forall (rand : random_source) (n1 : nat) (time : float)
         (ws : list combatant) (cur : nat) (s : sim),
    tick rand n1 time ws cur = Ok s -> R ws (actors s).
Proof.
  intros Hrefl Htrans Hregen Hatt rand n1 time ws cur s. unfold tick.
  assert (Hall : forall order s0 s', attack_all rand n1 time order s0 = Ok s' ->
                                     R (actors s0) (actors s')).
  { induction order as [| i order IH]; intros s0 s' H; simpl in H.
    - injection H as <-. apply Hrefl.
    - apply bind_ok in H as (s1 & H1 & H). eapply Htrans; eauto. }
  destruct (mod1_is_zero time).
  - pose proof (Hregen ws) as Hr. destruct (regen_all ws) as [ws1 ev1]. simpl in Hr.
    intros H. apply Hall in H. simpl in H. eapply Htrans; eauto.
  - intros H. apply Hall in H. exact H.
Qed.

Lemma map_static_alter (f : combatant -> combatant) (j : nat) (ws : list combatant) :
  (forall c : combatant, static (f c) = static c) ->
  map static (alter f j ws) = map static ws.
Proof.
  intros Hf. revert j. induction ws as [| w ws IH]; intros [| j]; simpl; try reflexivity.
  - now rewrite Hf.
  - f_equal. apply IH.
Qed.

Lemma tick_same_static (rand : random_source) (n1 : nat) (time : float)
    (ws : list combatant) (cur : nat) (s : sim) :
  tick rand n1 time ws cur = Ok s -> same_static ws (actors s).
Proof.
  apply (tick_store_rule same_static); unfold same_static.
  - reflexivity.
  - intros a b c H1 H2. congruence.
  - intros ws0. rewrite regen_all_map, map_map. apply map_ext.
    intros w. unfold regen_one. destruct (_ && _); reflexivity.
  - intros rand0 n0 time0 i s0 s' H. apply attack_turn_actors in H as [-> | H]; [reflexivity |].
    destruct H as (attacker & target & j & f & _ & _ & _ & _ & _ & Hf & ->).
    rewrite !map_static_alter; [reflexivity | | reflexivity].
    intros c. destruct (Hf c) as [-> | [-> | [(dmg & ->) | (dmg & ->)]]]; reflexivity.
Qed.

Lemma regen_one_frozen (w : combatant) :
  (hp w <=? f0)%F = true -> fst (regen_one w) = w.
Proof.
  intros H. unfold regen_one. now rewrite (fleb_not_fltb _ _ H).
Qed.

Lemma frozen_refl (ws : list combatant) : frozen ws ws.
Proof. intros i c H _. exact H. Qed.

Lemma frozen_trans (a b c : list combatant) : frozen a b -> frozen b c -> frozen a c.
Proof. intros H1 H2 i x Hx Hd. apply H2; [apply H1 |]; assumption. Qed.

Lemma tick_frozen (rand : random_source) (n1 : nat) (time : float)
    (ws : list combatant) (cur : nat) (s : sim) :
  tick rand n1 time ws cur = Ok s -> frozen ws (actors s).
Proof.
  apply (tick_store_rule frozen).
  - apply frozen_refl.
  - apply frozen_trans.
  - intros ws0 i c Hc Hd. rewrite regen_all_map.
    change (map ?f ws0 !! i) with (fmap f ws0 !! i).
    rewrite list_lookup_fmap, Hc. simpl. now rewrite regen_one_frozen.
  - intros rand0 n0 time0 i s0 s' H. apply attack_turn_actors in H as [-> | H];
      [apply frozen_refl |].
    destruct H as (attacker & target & j & f & Ha & Hha & _ & Ht & Hal & _ & ->).
    intros k c Hc Hd.
    assert (k <> i) by (intros ->; congruence).
    assert (k <> j).
    { intros ->. unfold alive in Hal. apply fltb_not_fleb in Hal. congruence. }
    rewrite !list_lookup_alter_ne by auto. exact Hc.
Qed.

(** ** The recorded stores, in the order of time *)

Lemma ascending_snoc {A : Type} (R : A -> A -> Prop) (l : list A) (w z : A) :
  (forall x : A, R x x) ->
  (forall x y u : A, R x y -> R y u -> R x u) ->
  ascending R l -> last l = Some w -> R w z ->
  ascending R (l ++ [z]) /\ last (l ++ [z]) = Some z.
Proof.
  intros Hrefl Htrans Hasc Hlast Hwz. split; [| apply last_snoc].
  intros a b x y Hab Hx Hy.
  rewrite last_lookup in Hlast.
  assert (Hlen : (0 < length l)%nat).
  { destruct l; [discriminate | simpl; lia]. }
  destruct (decide (b < length l)%nat) as [Hb | Hb].
  - rewrite lookup_app_l in Hx, Hy by lia. eauto.
  - assert (b = length l).
    { apply lookup_lt_Some in Hy. rewrite length_app in Hy. simpl in Hy. lia. }
    subst b. rewrite list_lookup_middle in Hy by reflexivity. injection Hy as <-.
    destruct (decide (a < length l)%nat) as [Ha | Ha].
    + rewrite lookup_app_l in Hx by lia.
      apply (Htrans x w z); [| exact Hwz].
      apply (Hasc a (pred (length l)) x w); auto. lia.
    + assert (a = length l) by lia. subst a.
      rewrite list_lookup_middle in Hx by reflexivity. injection Hx as <-. apply Hrefl.
Qed.

(** A step kept by every tick relates each recorded store to all the later
    ones, and the last one is the final store. *)
Lemma simulate_battle_ascending (R : list combatant -> list combatant -> Prop)
    (team1 team2 : list warrior_data) (rand : random_source) (r : report) :
  (forall ws : list combatant, R ws ws) ->
  (forall a b c : list combatant, R a b -> R b c -> R a c) ->
  (forall (n1 : nat) (time : float) (ws : list combatant) (cur : nat) (s : sim),
      tick rand n1 time ws cur = Ok s -> R ws (actors s)) ->
  simulate_battle team1 team2 rand = Ok r ->
  ascending R (timeline r) /\ last (timeline r) = Some (final_states r).
Proof.
  intros Hrefl Htrans Htick H. unfold timeline.
  apply (simulate_battle_rule team1 team2 rand r
           (fun _ ws _ _ hist =>
              ascending R (initial_stats r :: rev hist) /\
              last (initial_stats r :: rev hist) = Some ws) H).
  - intros k ws cur evs hist s _ [Hasc Hlast] Ht. simpl rev.
    change (initial_stats r :: rev hist ++ [actors s])
      with ((initial_stats r :: rev hist) ++ [actors s]).
    eapply ascending_snoc; eauto.
  - simpl. split; [| reflexivity].
    intros [| a] [| b] x y _ Hx Hy; try discriminate.
    injection Hx as <-. injection Hy as <-. apply Hrefl.
Qed.

(** * What a battle never changes *)

(** X1. A battle changes nothing of a fighter but hp, next_attack and the
    three stun entries: name, type, max_hp, hp_regen, defense, min_dmg,
    max_dmg and cooldown are, in the final states and in the store after
    every tick, what init_warrior_state made them, and no fighter is added
    or removed. *)
Theorem battle_keeps_static (team1 team2 : list warrior_data)
    (rand : random_source) (r : report) :
  simulate_battle team1 team2 rand = Ok r ->
  Forall (fun st => map static st = map static (initial_stats r) /\
                    length st = length (initial_stats r))
         (final_states r :: history r).
Proof.
  intros H.
  destruct (simulate_battle_ascending same_static team1 team2 rand r) as [Hasc Hlast];
    [reflexivity | unfold same_static; congruence | | exact H |].
  { intros n1 time ws cur s. apply tick_same_static. }
  assert (Hall : forall st, In st (timeline r) ->
                   map static st = map static (initial_stats r) /\
                   length st = length (initial_stats r)).
  { intros st Hin. apply list_elem_of_In, list_elem_of_lookup in Hin as [b Hb].
    assert (Hs : same_static (initial_stats r) st).
    { apply (Hasc 0%nat b); [lia | reflexivity | exact Hb]. }
    split; [exact Hs |]. rewrite <- (length_map static st), Hs. apply length_map. }
  apply Forall_forall. intros st Hst. apply list_elem_of_In in Hst. apply Hall.
  destruct Hst as [<- | Hst].
  - rewrite last_lookup in Hlast. apply list_elem_of_In. eapply list_elem_of_lookup_2; eauto.
  - unfold timeline. right. now apply in_rev in Hst.
Qed.

Lemma battle_keeps_static_witness :
  Forall (fun st =>
            map static st
            = map static (initial_stats (report_of
                (simulate_battle [brawler "A"] [brawler "B"; brawler "C"] lucky))) /\
            length st = 3%nat)
    (final_states (report_of
       (simulate_battle [brawler "A"] [brawler "B"; brawler "C"] lucky)) ::
     history (report_of
       (simulate_battle [brawler "A"] [brawler "B"; brawler "C"] lucky))).
Proof.
  apply (battle_keeps_static [brawler "A"] [brawler "B"; brawler "C"] lucky).
  vm_compute. reflexivity.
Defined.

(** X2. A fighter at hp <= 0 is out of the battle for good: in every later
    store, and in the final states, its dictionary is exactly what it was
    when it went down -- it is not hit again, it does not regenerate, it
    does not attack, its stun entries stay.  The stores are taken in the
    order of time, the last one being the final states. *)
Theorem defeated_never_change (team1 team2 : list warrior_data)
    (rand : random_source) (r : report) :
  simulate_battle team1 team2 rand = Ok r ->
  last (timeline r) = Some (final_states r) /\
  forall (a b : nat) (before after : list combatant),
    (a <= b)%nat ->
    timeline r !! a = Some before -> timeline r !! b = Some after ->
    forall (i : nat) (c : combatant),
      before !! i = Some c -> (hp c <=? f0)%F = true -> after !! i = Some c.
Proof.
  intros H.
  destruct (simulate_battle_ascending frozen team1 team2 rand r) as [Hasc Hlast];
    [apply frozen_refl | apply frozen_trans | | exact H |].
  { intros n1 time ws cur s. apply tick_frozen. }
  split; [exact Hlast |]. intros a b before after Hab Ha Hb. exact (Hasc a b _ _ Hab Ha Hb).
Qed.

Lemma defeated_never_change_witness :
  exists c : combatant,
    store_at (report_of two_pairs) 141 !! 0%nat = Some c /\
    (hp c <=? f0)%F = true /\
    store_at (report_of two_pairs) 393 !! 0%nat = Some c.
Proof.
  destruct (defeated_never_change [brawler "A"; brawler "B"] [brawler "C"; brawler "D"]
              lucky (report_of two_pairs)) as [_ H]; [vm_compute; reflexivity |].
  eexists. split; [vm_compute; reflexivity |]. split; [vm_compute; reflexivity |].
  apply (H 141%nat 393%nat (store_at (report_of two_pairs) 141)
           (store_at (report_of two_pairs) 393)); [lia | | | |]; vm_compute; reflexivity.
Defined.

(** * Stun durations *)

Lemma halved_f1 : halved f1.
Proof. exists 0%nat. reflexivity. Qed.

Lemma halved_half (d : float) : halved d -> halved (d * f0_5)%F.
Proof. intros [k ->]. exists (S k). reflexivity. Qed.

Lemma stun_durations_app (a b : list event) :
  stun_durations (a ++ b) = stun_durations a ++ stun_durations b.
Proof. unfold stun_durations. apply flat_map_app. Qed.

Lemma halved_update (j : nat) (f : combatant -> combatant) (s : sim) :
  (forall c : combatant, halved (stun_diminish c) -> halved (stun_diminish (f c))) ->
  halved_sim s -> halved_sim (update j f s).
Proof.
  intros Hf [H1 H2]. split; [| exact H2]. cbn [actors update].
  apply Forall_alter; [exact H1 |]. intros c _. apply Hf.
Qed.

Lemma halved_push (e : event) (s : sim) :
  match e with EvStun _ _ d => halved d | _ => True end ->
  halved_sim s -> halved_sim (push e s).
Proof.
  intros He [H1 H2]. split; [exact H1 |]. cbn [current_events push].
  rewrite stun_durations_app. apply Forall_app. split; [exact H2 |].
  destruct e; simpl; constructor; [exact He | constructor].
Qed.

Lemma halved_advance (s : sim) : halved_sim s -> halved_sim (advance s).
Proof. intros H. exact H. Qed.

Lemma attack_turn_halved (rand : random_source) (n1 : nat) (time : float)
    (i : nat) (s s' : sim) :
  attack_turn rand n1 time i s = Ok s' -> halved_sim s -> halved_sim s'.
Proof.
  intros H Hs. apply attack_turn_cases in H as [-> | H]; [exact Hs |].
  destruct H as (attacker & target & j & m & s1 & s2 & _ & _ & _ & _ & Ht & _ & _ & Em & H2 & ->).
  assert (Htarget : halved (stun_diminish target)).
  { destruct Hs as [Hs _]. rewrite Forall_forall in Hs. apply Hs.
    eapply list_elem_of_lookup_2; eauto. }
  apply halved_update; [intros c Hc; exact Hc |].
  assert (H1 : halved_sim s1).
  { apply type_advantage_cases in Em.
    destruct Em as [(_ & _ & _ & ->) | [(_ & _ & _ & ->) | [(_ & _ & _ & ->) |
                   [(_ & _ & _ & ->) | [(_ & _ & _ & ->) | [(_ & _ & _ & ->) |
                    (_ & _ & ->)]]]]]];
      repeat first [ apply halved_push; [first [exact I | exact Htarget] |]
                   | apply halved_update; [intros c Hc; now apply halved_half |]
                   | apply halved_advance ];
      exact Hs. }
  destruct (miss m); [injection H2 as <-; exact H1 |].
  apply hit_cases in H2 as (dmg & base & _ & [-> | ->]);
    repeat first [ apply halved_push; [exact I |]
                 | apply halved_update; [intros c Hc; exact Hc |]
                 | apply halved_advance ];
    exact H1.
Qed.

Lemma tick_halved (rand : random_source) (n1 : nat) (time : float)
    (ws : list combatant) (cur : nat) (s : sim) :
  tick rand n1 time ws cur = Ok s ->
  Forall (fun c => halved (stun_diminish c)) ws -> halved_sim s.
Proof.
  unfold tick. intros H Hws.
  assert (Hall : forall order s0 s', attack_all rand n1 time order s0 = Ok s' ->
                                     halved_sim s0 -> halved_sim s').
  { induction order as [| i order IH]; intros s0 s' H0 Hs0; simpl in H0.
    - injection H0 as <-. exact Hs0.
    - apply bind_ok in H0 as (s1 & H1 & H0). eapply IH; eauto.
      eapply attack_turn_halved; eauto. }
  assert (Hregen : halved_sim {| actors := fst (regen_all ws); cursor := cur;
                                 current_events := snd (regen_all ws) |}).
  { clear H. split; simpl.
    - rewrite regen_all_map. apply Forall_map. eapply Forall_impl; [exact Hws |].
      intros c Hc. unfold regen_one. destruct (_ && _); exact Hc.
    - induction ws as [| w ws IH]; simpl; [constructor |].
      destruct (regen_one w) as [w' ev] eqn:Ew. destruct (regen_all ws) as [ws' evs].
      simpl in *. rewrite stun_durations_app. apply Forall_app. split.
      + unfold regen_one in Ew. destruct (_ && _); injection Ew as <- <-; constructor.
      + apply IH. now inversion Hws. }
  destruct (mod1_is_zero time).
  - destruct (regen_all ws) as [ws1 ev1]. eapply Hall; eauto.
  - eapply Hall; eauto. split; [exact Hws | constructor].
Qed.

Lemma init_warrior_state_fresh (wd : warrior_data) (c : combatant) :
  init_warrior_state wd = Ok c ->
  hp c = max_hp c /\ next_attack c = cooldown c /\ stun_diminish c = f1.
Proof.
  unfold init_warrior_state. intros H. apply bind_ok in H as (cd & _ & H).
  injection H as <-. auto.
Qed.

Lemma initial_stats_fresh (team1 team2 : list warrior_data) (rand : random_source)
    (r : report) :
  simulate_battle team1 team2 rand = Ok r ->
  Forall (fun c => hp c = max_hp c /\ next_attack c = cooldown c /\ stun_diminish c = f1)
         (initial_stats r).
Proof.
  intros H. apply simulate_battle_ok in H as (st1 & st2 & speeds & fin & H1 & H2 & _ & _ & ->).
  cbn [initial_stats]. apply Forall_app. split.
  - exact (mapM_Forall _ _ _ _ init_warrior_state_fresh H1).
  - exact (mapM_Forall _ _ _ _ init_warrior_state_fresh H2).
Qed.

(** 1.0 halved [k] times is between 0 and 1: it is 2^-k down to the
    smallest positive float 2^-1074, and 0 from 1075 halvings on. *)
Lemma halvings_succ (k : nat) : halvings (S k) = (halvings k * f0_5)%F.
Proof. reflexivity. Qed.

Lemma halvings_underflow (n : nat) : halvings (1075 + n) = f0.
Proof.
  induction n as [| n IH].
  - vm_compute. reflexivity.
  - rewrite Nat.add_succ_r, halvings_succ, IH. reflexivity.
Qed.

Lemma halvings_ok_at (n k : nat) :
  halvings_ok n (halvings k) = true ->
  forall j : nat, (j < n)%nat ->
    (f0 <=? halvings (k + j))%F = true /\ (halvings (k + j) <=? f1)%F = true.
Proof.
  revert k. induction n as [| n IH]; intros k H j Hj; [lia |].
  simpl in H. apply andb_true_iff in H as [H H3]. apply andb_true_iff in H as [H1 H2].
  destruct j as [| j].
  - rewrite Nat.add_0_r. auto.
  - rewrite <- halvings_succ in H3. specialize (IH (S k) H3 j ltac:(lia)).
    rewrite Nat.add_succ_r. exact IH.
Qed.

Lemma halvings_bounds (k : nat) :
  (f0 <=? halvings k)%F = true /\ (halvings k <=? f1)%F = true.
Proof.
  destruct (decide (k < 1075)%nat) as [Hk | Hk].
  - assert (Hall : halvings_ok 1075 (halvings 0) = true) by (vm_compute; reflexivity).
    exact (halvings_ok_at 1075 0 Hall k Hk).
  - replace k with (1075 + (k - 1075))%nat by lia. rewrite halvings_underflow.
    split; reflexivity.
Qed.

(** X3. In every battle the duration of every stun of the log, and the
    stun_diminish of every fighter at the end, is 1.0 halved a whole number
    of times (1, 0.5, 0.25, ...), hence between 0 and 1: no stun lasts
    more than one second. *)
Theorem stun_durations_halved (team1 team2 : list warrior_data)
    (rand : random_source) (r : report) :
  simulate_battle team1 team2 rand = Ok r ->
  Forall (fun d => (exists k : nat, d = halvings k) /\
                   (f0 <=? d)%F = true /\ (d <=? f1)%F = true)
         (stun_durations (events r)) /\
  Forall (fun c => (exists k : nat, stun_diminish c = halvings k) /\
                   (f0 <=? stun_diminish c)%F = true /\
                   (stun_diminish c <=? f1)%F = true)
         (final_states r).
Proof.
  intros H. pose proof (initial_stats_fresh _ _ _ _ H) as Hinit.
  assert (Hb : forall d, halved d ->
                 (exists k : nat, d = halvings k) /\
                 (f0 <=? d)%F = true /\ (d <=? f1)%F = true).
  { intros d [k ->]. split; [now exists k | apply halvings_bounds]. }
  cut (Forall (fun c => halved (stun_diminish c)) (final_states r) /\
       Forall halved (stun_durations (events r))).
  { intros [H1 H2]. split; (eapply Forall_impl; [eassumption |]); intros x Hx; now apply Hb. }
  apply (simulate_battle_rule team1 team2 rand r
           (fun _ ws _ evs _ =>
              Forall (fun c => halved (stun_diminish c)) ws /\
              Forall halved (stun_durations evs)) H).
  - intros k ws cur evs hist s _ [Hws Hevs] Ht.
    destruct (tick_halved _ _ _ _ _ _ Ht Hws) as [H1 H2]. split; [exact H1 |].
    destruct (current_events s) as [| e l] eqn:E; [exact Hevs |].
    rewrite stun_durations_app. apply Forall_app. split; [exact Hevs |]. exact H2.
  - split; [| constructor]. eapply Forall_impl; [exact Hinit |].
    intros c (_ & _ & ->). apply halved_f1.
Qed.

Lemma stun_durations_halved_witness :
  Forall (fun d => (exists k : nat, d = halvings k) /\
                   (f0 <=? d)%F = true /\ (d <=? f1)%F = true)
         (stun_durations (events (report_of (simulate_battle [stunner] [frail] lucky)))) /\
  Forall (fun c => (exists k : nat, stun_diminish c = halvings k) /\
                   (f0 <=? stun_diminish c)%F = true /\
                   (stun_diminish c <=? f1)%F = true)
         (final_states (report_of (simulate_battle [stunner] [frail] lucky))).
Proof.
  apply (stun_durations_halved [stunner] [frail] lucky). vm_compute. reflexivity.
Defined.

(** * The random values a battle reads *)

Lemma attack_turn_cursor (rand : random_source) (n1 : nat) (time : float)
    (i : nat) (s s' : sim) :
  attack_turn rand n1 time i s = Ok s' ->
  (cursor s <= cursor s' <= cursor s + 3)%nat /\
  length (actors s') = length (actors s).
Proof.
  intros H. pose proof (attack_turn_actors _ _ _ _ _ _ H) as Hact.
  split.
  - apply attack_turn_cases in H as [-> | H]; [lia |].
    destruct H as (attacker & target & j & m & s1 & s2 & _ & _ & _ & _ & _ & _ & _ & Em & H2 & ->).
    cbn [cursor update].
    assert (H1 : (S (cursor s) <= cursor s1 <= S (S (cursor s)))%nat).
    { apply type_advantage_cases in Em.
      destruct Em as [(_ & _ & _ & ->) | [(_ & _ & _ & ->) | [(_ & _ & _ & ->) |
                     [(_ & _ & _ & ->) | [(_ & _ & _ & ->) | [(_ & _ & _ & ->) |
                      (_ & _ & ->)]]]]]]; simpl; lia. }
    destruct (miss m); [injection H2 as <-; lia |].
    apply hit_cursor in H2. lia.
  - destruct Hact as [-> | (_ & _ & j & f & _ & _ & _ & _ & _ & _ & ->)]; [reflexivity |].
    now rewrite !length_alter.
Qed.

Lemma attack_all_cursor (rand : random_source) (n1 : nat) (time : float)
    (order : list nat) (s s' : sim) :
  attack_all rand n1 time order s = Ok s' ->
  (cursor s' <= cursor s + 3 * length order)%nat /\
  length (actors s') = length (actors s).
Proof.
  revert s. induction order as [| i order IH]; intros s H; simpl in H.
  - injection H as <-. simpl. split; [lia | reflexivity].
  - apply bind_ok in H as (s1 & H1 & H). apply attack_turn_cursor in H1 as [H1 L1].
    apply IH in H as [H L]. simpl length. split; [lia | congruence].
Qed.

Lemma regen_all_length (ws : list combatant) : length (fst (regen_all ws)) = length ws.
Proof. rewrite regen_all_map. apply length_map. Qed.

Lemma tick_cursor (rand : random_source) (n1 : nat) (time : float)
    (ws : list combatant) (cur : nat) (s : sim) :
  tick rand n1 time ws cur = Ok s ->
  (cursor s <= cur + 3 * length ws)%nat /\ length (actors s) = length ws.
Proof.
  unfold tick. destruct (mod1_is_zero time).
  - pose proof (regen_all_length ws) as L. destruct (regen_all ws) as [ws1 ev1].
    simpl in L. intros H. apply attack_all_cursor in H as [H1 H2].
    rewrite length_seq in H1. simpl in *. split; [lia | congruence].
  - intros H. apply attack_all_cursor in H as [H1 H2].
    rewrite length_seq in H1. simpl in *. split; [lia | congruence].
Qed.

(** X4. A battle reads at most three random values for each fighter in each
    tick (the target, the type advantage, the damage), hence at most
    3 * 3001 values for each fighter in a whole battle. *)
Theorem draws_bounded (team1 team2 : list warrior_data)
    (rand : random_source) (r : report) :
  simulate_battle team1 team2 rand = Ok r ->
  (draws r <= 3 * (length team1 + length team2) * ticks r)%nat /\
  (draws r <= 3 * (length team1 + length team2) * 3001)%nat.
Proof.
  intros H.
  assert (Hn : length (initial_stats r) = (length team1 + length team2)%nat).
  { pose proof H as H'.
    apply simulate_battle_ok in H' as (st1 & st2 & speeds & fin & H1 & H2 & _ & _ & ->).
    cbn [initial_stats]. rewrite length_app.
    now rewrite (mapM_length _ _ _ H1), (mapM_length _ _ _ H2). }
  pose proof (simulate_battle_loop_post _ _ _ _ H) as (Hticks & _).
  assert (Hd : (draws r <= 3 * (length team1 + length team2) * ticks r)%nat).
  { rewrite <- Hn.
    refine (proj2 (simulate_battle_rule team1 team2 rand r
             (fun k ws cur _ _ =>
                length ws = length (initial_stats r) /\
                (cur <= 3 * length (initial_stats r) * k)%nat) H _ _)).
    - intros k ws cur evs hist s _ [Hl Hc] Ht. apply tick_cursor in Ht as [H1 H2].
      split; [congruence |]. rewrite Hl in H1. lia.
    - split; [reflexivity | lia]. }
  split; [exact Hd |]. etransitivity; [exact Hd |].
  apply Nat.mul_le_mono_l. lia.
Qed.

Lemma draws_bounded_witness :
  (draws (report_of two_pairs) <= 3 * (2 + 2) * ticks (report_of two_pairs))%nat /\
  (draws (report_of two_pairs) <= 3 * (2 + 2) * 3001)%nat.
Proof.
  apply (draws_bounded [brawler "A"; brawler "B"] [brawler "C"; brawler "D"] lucky).
  vm_compute. reflexivity.
Defined.

(** * The first attack comes one cooldown after the start *)

Lemma fleb_refl_of (x y : float) : (x <=? y)%F = true -> (x <=? x)%F = true.
Proof.
  unfold fleb, SFleb. destruct (SFcompare_refl x) as [-> | Hx]; [reflexivity |].
  destruct x as [s | s | | s m e]; simpl in *; discriminate.
Qed.

Lemma clock_le (j k : nat) :
  (j <= k)%nat -> (k < 3001)%nat -> (clock j <=? clock k)%F = true.
Proof.
  intros Hjk Hk. induction k as [| k IH].
  - assert (j = 0%nat) by lia. subst j. reflexivity.
  - destruct (decide (j = S k)) as [-> | Hne].
    + apply (fleb_refl_of _ _ (clock_monotone (S k) Hk)).
    + apply (fleb_trans _ (clock k)); [apply IH; lia |].
      rewrite clock_succ. apply clock_monotone. lia.
Qed.

(** Nobody is ready: the attack phase of the tick does nothing. *)
Lemma attack_all_idle (rand : random_source) (n1 : nat) (time : float)
    (order : list nat) (s : sim) :
  somebody_ready time (actors s) = false ->
  attack_all rand n1 time order s = Ok s.
Proof.
  intros H. induction order as [| i order IH]; simpl; [reflexivity |].
  assert (Hi : attack_turn rand n1 time i s = Ok s).
  { unfold attack_turn. destruct (actors s !! i) as [attacker |] eqn:Ea; [| reflexivity].
    assert (Hr : (next_attack attacker <=? time)%F = false).
    { destruct (next_attack attacker <=? time)%F eqn:E; [| reflexivity].
      unfold somebody_ready in H. rewrite <- H. symmetry. apply existsb_exists.
      exists attacker. split; [| exact E].
      apply list_elem_of_In. eapply list_elem_of_lookup_2; eauto. }
    rewrite Hr. destruct (hp attacker <=? f0)%F; [reflexivity |].
    destruct (time <? stun_end attacker)%F; reflexivity. }
  rewrite Hi. exact IH.
Qed.

Lemma tick_idle (rand : random_source) (n1 : nat) (time : float)
    (ws : list combatant) (cur : nat) :
  Forall (fun c => hp c = max_hp c) ws ->
  somebody_ready time ws = false ->
  tick rand n1 time ws cur = Ok {| actors := ws; cursor := cur; current_events := [] |}.
Proof.
  intros Hf Hr. unfold tick. rewrite regen_all_full by assumption.
  destruct (mod1_is_zero time); now apply attack_all_idle.
Qed.

(** X5. Nothing happens before the first cooldown has passed: every fighter
    starts with next_attack = cooldown and full hp, so each tick that left
    lines in the log happened at a time that is not below the cooldown of
    some fighter; and when no fighter's cooldown is reached by the last
    tick of the clock, the battle runs to the time limit with nothing
    changed, nothing logged and nothing drawn. *)
Theorem no_event_before_first_cooldown (team1 team2 : list warrior_data)
    (rand : random_source) (r : report) :
  simulate_battle team1 team2 rand = Ok r ->
  Forall (fun t => exists c : combatant,
                     In c (initial_stats r) /\ (cooldown c <=? t)%F = true)
         (timestamps (events r)) /\
  (somebody_ready (clock 3000) (initial_stats r) = false ->
   final_states r = initial_stats r /\ events r = [] /\ draws r = 0%nat).
Proof.
  intros H. pose proof (initial_stats_fresh _ _ _ _ H) as Hinit.
  set (due := fun t : float =>
                exists c : combatant,
                  In c (initial_stats r) /\ (cooldown c <=? t)%F = true).
  assert (Hready : forall t, somebody_ready t (initial_stats r) = true -> due t).
  { intros t Ht. apply existsb_exists in Ht as (c & Hc & Hle). exists c. split; [exact Hc |].
    rewrite Forall_forall in Hinit. apply list_elem_of_In in Hc.
    destruct (Hinit c Hc) as (_ & <- & _). exact Hle. }
  assert (Hmono : forall j k, (j <= k)%nat -> (k < 3001)%nat ->
                              due (clock j) -> due (clock k)).
  { intros j k Hjk Hk (c & Hc & Hle). exists c. split; [exact Hc |].
    eapply fleb_trans; [exact Hle | now apply clock_le]. }
  assert (Hidle : forall k, (k < 3001)%nat ->
                    somebody_ready (clock 3000) (initial_stats r) = false ->
                    somebody_ready (clock k) (initial_stats r) = false).
  { intros k Hk H0. destruct (somebody_ready (clock k) (initial_stats r)) eqn:E; [| reflexivity].
    apply Hready in E. apply (Hmono k 3000%nat) in E; [| lia | lia].
    destruct E as (c & Hc & Hle). rewrite <- H0. symmetry. apply existsb_exists.
    exists c. split; [exact Hc |].
    rewrite Forall_forall in Hinit. apply list_elem_of_In in Hc.
    destruct (Hinit c Hc) as (_ & -> & _). exact Hle. }
  assert (Hfull : Forall (fun c => hp c = max_hp c) (initial_stats r)).
  { eapply Forall_impl; [exact Hinit |]. intros c (Hc & _). exact Hc. }
  split.
  - refine (_ (simulate_battle_rule team1 team2 rand r
             (fun k ws cur evs _ =>
                (ws = initial_stats r /\ evs = []) \/
                ((exists j, (j < k)%nat /\ due (clock j)) /\
                 Forall due (timestamps evs))) H _ _)).
    + intros [[_ ->] | [_ Hd]]; [constructor | exact Hd].
    + intros k ws cur evs hist s Hk [[-> ->] | [(j & Hj & Hdue) Hevs]] Ht.
      * destruct (somebody_ready (clock k) (initial_stats r)) eqn:E.
        -- right. apply Hready in E. split; [exists k; split; [lia | exact E] |].
           apply tick_timestamps in Ht.
           destruct (current_events s) as [| e l]; [constructor |].
           change (EvTime (clock k) :: e :: l) with ([EvTime (clock k)] ++ e :: l).
           rewrite !timestamps_app, Ht. simpl. constructor; [exact E | constructor].
        -- rewrite (tick_idle rand _ _ _ cur Hfull E) in Ht. injection Ht as <-.
           left. split; reflexivity.
      * right. split; [exists j; split; [lia | exact Hdue] |].
        apply tick_timestamps in Ht.
        destruct (current_events s) as [| e l]; [exact Hevs |].
        change (EvTime (clock k) :: e :: l) with ([EvTime (clock k)] ++ e :: l).
        rewrite !timestamps_app, Ht. apply Forall_app. split; [exact Hevs |]. simpl.
        constructor; [| constructor]. apply (Hmono j k); [lia | exact Hk | exact Hdue].
    + left. split; reflexivity.
  - intros H0.
    refine (_ (simulate_battle_rule team1 team2 rand r
             (fun _ ws cur evs _ =>
                ws = initial_stats r /\ evs = [] /\ cur = 0%nat) H _ _)).
    + intros Hx. exact Hx.
    + intros k ws cur evs hist s Hk (-> & -> & ->) Ht.
      rewrite (tick_idle rand _ _ _ 0%nat Hfull (Hidle k Hk H0)) in Ht. injection Ht as <-.
      repeat split.
    + repeat split.
Qed.

Lemma no_event_before_first_cooldown_witness :
  Forall (fun t => exists c : combatant,
                     In c (initial_stats (report_of two_pairs)) /\
                     (cooldown c <=? t)%F = true)
         (timestamps (events (report_of two_pairs))) /\
  (somebody_ready (clock 3000) (initial_stats (report_of two_pairs)) = false ->
   final_states (report_of two_pairs) = initial_stats (report_of two_pairs) /\
   events (report_of two_pairs) = [] /\ draws (report_of two_pairs) = 0%nat).
Proof.
  apply (no_event_before_first_cooldown
           [brawler "A"; brawler "B"] [brawler "C"; brawler "D"] lucky).
  vm_compute. reflexivity.
Defined.

(** * The lines of the dropdowns and the names in them *)

Lemma append_cons (c : Ascii.ascii) (s t : string) :
  String.append (String c s) t = String c (String.append s t).
Proof. reflexivity. Qed.

Lemma append_nil (t : string) : String.append EmptyString t = t.
Proof. reflexivity. Qed.

Lemma prefix_empty (s : string) : String.prefix EmptyString s = true.
Proof. destruct s; reflexivity. Qed.

Lemma prefix_paren_app (c : Ascii.ascii) (n rest : string) :
  String.prefix " (" (String c (String.append n (String.append " (" rest)))
  = String.prefix " (" (String c n).
Proof.
  cbn [String.prefix]. destruct (Ascii.ascii_dec _ c); [| reflexivity].
  destruct n as [| d n']; [reflexivity |]. rewrite append_cons.
  cbn [String.prefix]. destruct (Ascii.ascii_dec _ d); [| reflexivity].
  destruct n'; reflexivity.
Qed.

Lemma before_sep_paren_app (name rest : string) :
  before_sep " (" (String.append name (String.append " (" rest))
  = before_sep " (" name.
Proof.
  induction name as [| c n IH].
  - rewrite append_nil, !append_cons, append_nil.
    cbn [before_sep String.prefix].
    destruct (Ascii.ascii_dec _ _) as [_ | Hn]; [| now destruct Hn].
    destruct (Ascii.ascii_dec _ _) as [_ | Hn]; [| now destruct Hn].
    now rewrite prefix_empty.
  - rewrite append_cons. cbn [before_sep]. rewrite prefix_paren_app, IH. reflexivity.
Qed.

Lemma before_sep_id (sep s : string) : occurs sep s = false -> before_sep sep s = s.
Proof.
  induction s as [| c s IH]; [reflexivity |]. cbn [occurs before_sep].
  intros H. apply orb_false_iff in H as [-> H]. now rewrite IH.
Qed.

Lemma before_sep_shorter (a : Ascii.ascii) (sep s : string) :
  occurs (String a sep) s = true ->
  (String.length (before_sep (String a sep) s) < String.length s)%nat.
Proof.
  induction s as [| c s IH]; cbn [occurs before_sep].
  - discriminate.
  - destruct (String.prefix (String a sep) (String c s)); simpl; [lia |].
    intros H. apply IH in H. lia.
Qed.

(** X6. The name is read back from a line of the dropdown by cutting it at
    the first " (": this gives the warrior's name exactly when the name
    itself contains no " ("; otherwise it gives a proper beginning of the
    name. *)
Theorem label_name_round_trip (w : warrior) :
  (before_sep " (" (label w) = w_name w <-> occurs " (" (w_name w) = false) /\
  before_sep " (" (label w) = before_sep " (" (w_name w) /\
  (occurs " (" (w_name w) = true ->
   (String.length (before_sep " (" (label w)) < String.length (w_name w))%nat).
Proof.
  unfold label. rewrite before_sep_paren_app. split; [| split].
  - split.
    + intros H. destruct (occurs " (" (w_name w)) eqn:E; [| reflexivity].
      apply before_sep_shorter in E. rewrite H in E. lia.
    + apply before_sep_id.
  - reflexivity.
  - apply before_sep_shorter.
Qed.

(** * [run_simulation]: who fights *)

Lemma label_nonempty (w : warrior) : String.eqb (label w) "" = false.
Proof.
  apply String.eqb_neq. unfold label.
  destruct (w_name w); [rewrite append_nil, append_cons | rewrite append_cons]; discriminate.
Qed.

Lemma picked_labels (ws : list warrior) : picked (map label ws) = map label ws.
Proof.
  induction ws as [| w ws IH]; [reflexivity |]. simpl.
  rewrite label_nonempty. simpl. f_equal. exact IH.
Qed.

Lemma warrior_named_unique (ws : list warrior) (w : warrior) :
  NoDup (map w_name ws) -> In w ws -> warrior_named (w_name w) ws = Some w.
Proof.
  induction ws as [| w0 ws IH]; simpl; intros Hnd Hin; [contradiction |].
  apply NoDup_cons in Hnd as [Hn Hnd].
  destruct Hin as [-> | Hin]; [now rewrite String.eqb_refl |].
  destruct (String.eqb (w_name w0) (w_name w)) eqn:E; [| now apply IH].
  apply String.eqb_eq in E. exfalso. apply Hn. rewrite E.
  apply list_elem_of_In. now apply in_map.
Qed.

Lemma build_team_length (ws : list warrior) (its : list item)
    (item_vars : list string) (team_selected : list string) :
  forall (i : nat) (team : list warrior_data),
    build_team ws its item_vars i team_selected = Some team ->
    (length team <= length team_selected)%nat.
Proof.
  induction team_selected as [| sel rest IH]; intros i team H; simpl in H.
  - injection H as <-. simpl. lia.
  - destruct (warrior_named _ ws) as [w |].
    + destruct (item_vars !! i) as [n |]; [| discriminate]. simpl in H.
      destruct (build_team ws its item_vars (S i) rest) as [t |] eqn:E; [| discriminate].
      injection H as <-. apply IH in E. simpl. lia.
    + apply IH in H. simpl. lia.
Qed.

Lemma build_team_listed (ws : list warrior) (its : list item)
    (item_vars : list string) (chosen : list warrior) :
  NoDup (map w_name ws) ->
  Forall (fun w => In w ws /\ occurs " (" (w_name w) = false) chosen ->
  forall i : nat,
    (i + length chosen <= length item_vars)%nat ->
    build_team ws its item_vars i (map label chosen)
    = Some (zip_with (equip its) chosen (drop i item_vars)).
Proof.
  intros Hnd Hch. induction Hch as [| w chosen [Hin Hocc] _ IH]; intros i Hi.
  - reflexivity.
  - simpl in Hi. simpl map. cbn [build_team].
    unfold label at 1. rewrite before_sep_paren_app, (before_sep_id _ _ Hocc).
    rewrite (warrior_named_unique ws w Hnd Hin).
    destruct (lookup_lt_is_Some_2 item_vars i ltac:(lia)) as [n Hn].
    rewrite Hn. simpl. rewrite IH by lia. simpl.
    rewrite (drop_S _ _ _ Hn). reflexivity.
Qed.

Lemma required_warriors_cases (a : app) :
  required_warriors a = 1%nat \/ required_warriors a = 3%nat.
Proof. unfold required_warriors. destruct (String.eqb _ _); auto. Qed.

(** X7. When the names of the listed warriors are pairwise different and
    the selected ones contain no " (", a click on "Start Battle" with a
    listed warrior selected in every visible dropdown runs simulate_battle
    on exactly these warriors, in the order of the dropdowns, each with
    the first item that has the name selected beside it (with no item when
    there is none of this name); both teams have the required size, and
    the report is shown unless the battle raises. *)
Theorem selected_warriors_fight (a : app) (rand : random_source)
    (chosen1 chosen2 : list warrior) :
  NoDup (map w_name (warriors a)) ->
  Forall (fun w => In w (warriors a) /\ occurs " (" (w_name w) = false)
         (chosen1 ++ chosen2) ->
  take (required_warriors a) (team1_vars a) = map label chosen1 ->
  take (required_warriors a) (team2_vars a) = map label chosen2 ->
  length chosen1 = required_warriors a ->
  length chosen2 = required_warriors a ->
  length (team1_item_vars a) = 3%nat ->
  length (team2_item_vars a) = 3%nat ->
  let team1 := zip_with (equip (items a)) chosen1 (team1_item_vars a) in
  let team2 := zip_with (equip (items a)) chosen2 (team2_item_vars a) in
  length team1 = required_warriors a /\
  length team2 = required_warriors a /\
  run_simulation a rand
  = match simulate_battle team1 team2 rand with
    | Ok r => (set_result_text (Some r) (set_result_text None a), Displayed)
    | Raise e => (set_result_text None a, Failed (FromBattle e))
    end.
Proof.
  intros Hnd Hch H1 H2 L1 L2 Li1 Li2 team1 team2.
  apply Forall_app in Hch as [Hch1 Hch2].
  pose proof (required_warriors_cases a) as Hreq.
  split; [| split].
  - unfold team1. rewrite length_zip_with. lia.
  - unfold team2. rewrite length_zip_with. lia.
  - unfold run_simulation. rewrite H1, H2, !picked_labels, !length_map, L1, L2.
    rewrite Nat.eqb_refl. cbn [negb orb].
    rewrite (build_team_listed _ _ _ _ Hnd Hch1) by lia.
    rewrite (build_team_listed _ _ _ _ Hnd Hch2) by lia.
    rewrite !drop_0. reflexivity.
Qed.

Lemma selected_warriors_fight_witness :
  run_simulation (tab_1v1 [bob; ann] [lead_boots] (label bob) (label ann) "" "Lead Boots") lucky
  = match simulate_battle [equip [lead_boots] bob ""] [equip [lead_boots] ann "Lead Boots"]
            lucky with
    | Ok r => (set_result_text (Some r)
                 (set_result_text None
                    (tab_1v1 [bob; ann] [lead_boots] (label bob) (label ann) ""
                       "Lead Boots")),
               Displayed)
    | Raise e =>
        (set_result_text None
           (tab_1v1 [bob; ann] [lead_boots] (label bob) (label ann) "" "Lead Boots"),
         Failed (FromBattle e))
    end.
Proof.
  apply (selected_warriors_fight
           (tab_1v1 [bob; ann] [lead_boots] (label bob) (label ann) "" "Lead Boots")
           lucky [bob] [ann]).
  - apply (bool_decide_unpack _). vm_compute. exact I.
  - repeat (apply List.Forall_cons; [split; [simpl; auto | reflexivity] |]). apply List.Forall_nil.
  - reflexivity.
  - reflexivity.
  - reflexivity.
  - reflexivity.
  - reflexivity.
  - reflexivity.
Defined.

Lemma picked_same (l l' : list string) :
  Forall2 same_name l l' -> Forall2 same_name (picked l) (picked l').
Proof.
  induction 1 as [| s s' l l' [Hn He] _ IH]; simpl; [constructor |].
  destruct (String.eqb s "") eqn:E, (String.eqb s' "") eqn:E'; simpl.
  - exact IH.
  - apply String.eqb_eq in E. apply String.eqb_neq in E'. tauto.
  - apply String.eqb_neq in E. apply String.eqb_eq in E'. tauto.
  - constructor; [split; assumption | exact IH].
Qed.

Lemma build_team_same (ws : list warrior) (its : list item)
    (item_vars : list string) (sel sel' : list string) :
  Forall2 same_name sel sel' ->
  forall i : nat,
    build_team ws its item_vars i sel = build_team ws its item_vars i sel'.
Proof.
  induction 1 as [| s s' l l' [Hn _] _ IH]; intros i; [reflexivity |].
  cbn [build_team]. rewrite Hn.
  destruct (warrior_named _ ws); [| apply IH].
  destruct (item_vars !! i); [| reflexivity]. simpl. now rewrite IH.
Qed.

(** X8. The type written in a line of a dropdown plays no role in the
    battle: run_simulation reads of each selected line only whether it is
    empty and the name before the first " (".  Two selections that agree
    on this, dropdown by dropdown, end the same way and show the same
    report -- so the lines of two warriors with the same name start the
    same battle, whichever of the two is selected. *)
Theorem only_names_matter (a : app) (rand : random_source)
    (vars1 vars2 : list string) :
  Forall2 same_name (team1_vars a) vars1 ->
  Forall2 same_name (team2_vars a) vars2 ->
  let a' := set_vars Team1 vars1 (set_vars Team2 vars2 a) in
  snd (run_simulation a' rand) = snd (run_simulation a rand) /\
  result_text (fst (run_simulation a' rand)) = result_text (fst (run_simulation a rand)).
Proof.
  intros H1 H2 a'.
  assert (P1 : Forall2 same_name
                 (picked (take (required_warriors a) (team1_vars a)))
                 (picked (take (required_warriors a) vars1))).
  { apply picked_same. now apply Forall2_take. }
  assert (P2 : Forall2 same_name
                 (picked (take (required_warriors a) (team2_vars a)))
                 (picked (take (required_warriors a) vars2))).
  { apply picked_same. now apply Forall2_take. }
  unfold run_simulation.
  change (required_warriors a') with (required_warriors a).
  change (team1_vars a') with vars1. change (team2_vars a') with vars2.
  change (warriors a') with (warriors a). change (items a') with (items a).
  change (team1_item_vars a') with (team1_item_vars a).
  change (team2_item_vars a') with (team2_item_vars a).
  rewrite <- (Forall2_length _ _ _ P1), <- (Forall2_length _ _ _ P2).
  rewrite <- (build_team_same _ _ _ _ _ P1), <- (build_team_same _ _ _ _ _ P2).
  destruct (negb _ || negb _); [split; reflexivity |].
  destruct (build_team _ _ (team1_item_vars a) _ _); [| split; reflexivity].
  destruct (build_team _ _ (team2_item_vars a) _ _); [| split; reflexivity].
  destruct (simulate_battle _ _ rand); split; reflexivity.
Qed.

Lemma only_names_matter_witness :
  snd (run_simulation
         (set_vars Team1 [label bob; ""; ""]
            (set_vars Team2 [label ann; ""; ""]
               (tab_1v1 [bob; bob_the_smart; ann] [] (label bob_the_smart) (label ann) "" "")))
         lucky)
  = snd (run_simulation
           (tab_1v1 [bob; bob_the_smart; ann] [] (label bob_the_smart) (label ann) "" "")
           lucky) /\
  result_text (fst (run_simulation
         (set_vars Team1 [label bob; ""; ""]
            (set_vars Team2 [label ann; ""; ""]
               (tab_1v1 [bob; bob_the_smart; ann] [] (label bob_the_smart) (label ann) "" "")))
         lucky))
  = result_text (fst (run_simulation
           (tab_1v1 [bob; bob_the_smart; ann] [] (label bob_the_smart) (label ann) "" "")
           lucky)).
Proof.
  apply (only_names_matter
           (tab_1v1 [bob; bob_the_smart; ann] [] (label bob_the_smart) (label ann) "" "")
           lucky [label bob; ""; ""] [label ann; ""; ""]).
  - unfold tab_1v1; cbn [team1_vars team2_vars].
    repeat (apply List.Forall2_cons;
            [split; [reflexivity | split; first [discriminate | reflexivity]] |]).
    apply List.Forall2_nil.
  - unfold tab_1v1; cbn [team1_vars team2_vars].
    repeat (apply List.Forall2_cons;
            [split; [reflexivity | split; first [discriminate | reflexivity]] |]).
    apply List.Forall2_nil.
Defined.

(** A battle with an empty team: one pass, nothing logged, nothing drawn,
    and a victory. *)
Lemma one_sided_battle (team1 team2 : list warrior_data) (rand : random_source)
    (r : report) :
  team1 = [] \/ team2 = [] ->
  simulate_battle team1 team2 rand = Ok r ->
  team1_size r = length team1 /\
  events r = [] /\ ticks r = 1%nat /\ draws r = 0%nat /\
  final_states r = initial_stats r /\
  declared r = (if any_alive (final_team2 r) then Team2Victory else Team1Victory).
Proof.
  intros Hempty E.
  apply simulate_battle_ok in E as (st1 & st2 & speeds & fin & H1 & H2 & _ & H & ->).
  assert (Hn : length st1 = 0%nat \/ length st1 = length (st1 ++ st2)).
  { destruct Hempty as [-> | ->].
    - left. simpl in H1. now inversion H1.
    - right. simpl in H2. inversion H2. now rewrite app_nil_r. }
  assert (Hf : Forall (fun c => hp c = max_hp c) (st1 ++ st2)).
  { apply Forall_app. split;
      eapply mapM_Forall; eauto using init_warrior_state_full_hp. }
  destruct (one_sided_wiped _ _ Hn) as [Hw Hd].
  rewrite (battle_loop_break rand (length st1) fuel (of_int 0) (st1 ++ st2) 0 [] None 0 []
             {| actors := st1 ++ st2; cursor := 0; current_events := [] |}) in H.
  - inversion H. unfold final_team2. cbn [events ticks draws final_states initial_stats
      declared team1_size f_events f_ticks f_cursor f_actors f_team1_alive f_team2_alive
      actors cursor current_events].
    split; [exact (mapM_length _ _ _ H1) | auto].
  - unfold fuel. lia.
  - reflexivity.
  - now apply first_tick_one_sided.
  - exact Hw.
Qed.

(** X9. A selected line whose name names no listed warrior is dropped
    without a word: in 1v1 mode, when the line of team 1 names nobody (a
    warrior called "Bob (Jr)" when nobody is called "Bob", or a warrior
    deleted since the lists were loaded), the validation passes, the battle
    is run with an empty team 1, and what is shown is a report of one tick
    with an empty log that declares team 2 the winner if its fighter is
    alive.  The click can also end with the error box (nothing selected for
    team 2) or with ZeroDivisionError from the battle. *)
Theorem unknown_name_dropped (a : app) (rand : random_source)
    (line1 : string) (rest1 : list string) :
  battle_type a <> "3v3" ->
  team1_vars a = line1 :: rest1 ->
  line1 <> "" ->
  warrior_named (before_sep " (" line1) (warriors a) = None ->
  match run_simulation a rand with
  | (a', Displayed) =>
      exists r : report,
        result_text a' = Some r /\ team1_size r = 0%nat /\
        events r = [] /\ ticks r = 1%nat /\ draws r = 0%nat /\
        declared r = (if any_alive (final_states r) then Team2Victory else Team1Victory)
  | (_, ErrorBox) => picked (take 1 (team2_vars a)) = []
  | (_, Failed e) => e = IndexError \/ e = FromBattle ZeroDivisionError
  end.
Proof.
  intros Hmode Hvars Hline Hnone. unfold run_simulation.
  assert (Hreq : required_warriors a = 1%nat).
  { unfold required_warriors. apply String.eqb_neq in Hmode. now rewrite Hmode. }
  assert (H1 : picked (take 1 (team1_vars a)) = [line1]).
  { rewrite Hvars. simpl. apply String.eqb_neq in Hline. now rewrite Hline. }
  assert (H2 : picked (take 1 (team2_vars a)) = [] \/
               exists line2, picked (take 1 (team2_vars a)) = [line2]).
  { destruct (team2_vars a) as [| line2 rest2]; simpl; [now left |].
    destruct (negb (String.eqb line2 "")); [right; now exists line2 | now left]. }
  rewrite Hreq, H1. destruct H2 as [H2 | [line2 H2]]; rewrite H2.
  - reflexivity.
  - cbn [length Nat.eqb negb orb]. cbn [build_team]. rewrite Hnone.
    destruct (match warrior_named (before_sep " (" line2) (warriors a) with
              | Some w => _
              | None => _
              end) as [team2 |]; [| now left].
    destruct (simulate_battle [] team2 rand) as [r | e] eqn:E.
    + exists r. split; [reflexivity |].
      destruct (one_sided_battle [] team2 rand r (or_introl eq_refl) E)
        as (Hs & He & Ht & Hd & _ & Hw).
      unfold final_team2 in Hw. simpl in Hs. rewrite Hs, drop_0 in Hw. auto 6.
    + right. f_equal. now apply simulate_battle_raise in E.
Qed.

Lemma unknown_name_dropped_witness :
  match run_simulation (tab_1v1 [bob_junior; ann] [] (label bob_junior) (label ann) "" "")
          lucky with
  | (a', Displayed) =>
      exists r : report,
        result_text a' = Some r /\ team1_size r = 0%nat /\
        events r = [] /\ ticks r = 1%nat /\ draws r = 0%nat /\
        declared r = (if any_alive (final_states r) then Team2Victory else Team1Victory)
  | (_, ErrorBox) =>
      picked (take 1 (team2_vars
                (tab_1v1 [bob_junior; ann] [] (label bob_junior) (label ann) "" ""))) = []
  | (_, Failed e) => e = IndexError \/ e = FromBattle ZeroDivisionError
  end.
Proof.
  apply (unknown_name_dropped
           (tab_1v1 [bob_junior; ann] [] (label bob_junior) (label ann) "" "")
           lucky (label bob_junior) [""; ""]).
  - discriminate.
  - reflexivity.
  - discriminate.
  - reflexivity.
Defined.

(** * The dropdowns of the simulation tab *)

Lemma three_list {A : Type} (l : list A) :
  length l = 3%nat -> exists x y z : A, l = [x; y; z].
Proof.
  destruct l as [| x [| y [| z [| u l]]]]; try discriminate. intros _. now exists x, y, z.
Qed.

Lemma update_available_warriors_spec (a : app) :
  three_slots a -> update_available_warriors a = Some (refreshed a).
Proof.
  intros (H1 & H2 & _ & _ & H5 & H6).
  destruct a as [ws its mode v1 v2 iv1 iv2 s1 s2 d1 d2 il rt]. simpl in *.
  apply three_list in H1 as (x0 & x1 & x2 & ->). apply three_list in H2 as (y0 & y1 & y2 & ->).
  apply three_list in H5 as (p0 & p1 & p2 & ->). apply three_list in H6 as (q0 & q1 & q2 & ->).
  reflexivity.
Qed.

Lemma three_slots_refreshed (a : app) : three_slots a -> three_slots (refreshed a).
Proof.
  intros (H1 & H2 & H3 & H4 & H5 & H6). unfold three_slots, refreshed. simpl.
  rewrite !length_map. auto 6.
Qed.

Lemma values_for_refreshed (a : app) : values_for (map label (warriors a)) (refreshed a).
Proof. split; reflexivity. Qed.

(** [var.set(value)] on a warrior variable: the variable is set, the
    selection list of the team is updated and the dropdowns are computed
    anew. *)
Lemma set_warrior_var_spec (team : team_id) (i : nat) (v : string) (a : app) :
  three_slots a -> (i < 3)%nat ->
  exists sel : list string,
    set_warrior_var team i v a
    = Some (refreshed (set_selections team sel
                         (set_vars team (<[i := v]> (vars_of team a)) a))).
Proof.
  intros Hs Hi. pose proof Hs as (H1 & H2 & H3 & H4 & H5 & H6).
  unfold set_warrior_var.
  assert (Hl : length (vars_of team a) = 3%nat) by (destruct team; assumption).
  rewrite Hl. replace (i <? 3)%nat with true by (symmetry; apply Nat.ltb_lt; exact Hi).
  unfold on_warrior_select.
  assert (Hv : vars_of team (set_vars team (<[i := v]> (vars_of team a)) a) !! i = Some v).
  { destruct team; simpl; apply list_lookup_insert_eq; lia. }
  rewrite Hv. simpl. eexists. apply update_available_warriors_spec.
  unfold three_slots. destruct team; simpl; rewrite ?length_insert; auto 6.
Qed.

Lemma picked_In (v : string) (l : list string) :
  In v (picked l) <-> In v l /\ v <> "".
Proof.
  unfold picked. rewrite filter_In, negb_true_iff, String.eqb_neq. reflexivity.
Qed.

Lemma picked_insert_In (l : list string) (i : nat) (v y : string) :
  In y (picked (<[i := v]> l)) -> y = v \/ In y (picked l).
Proof.
  revert i. induction l as [| x l IH]; intros i H; [now right |].
  destruct i as [| i]; simpl in H |- *.
  - destruct (negb (String.eqb v "")), (negb (String.eqb x "")); simpl in *;
      intuition congruence.
  - destruct (negb (String.eqb x "")); simpl in *.
    + destruct H as [<- | H]; [right; now left |].
      destruct (IH _ H); auto.
    + apply (IH _ H).
Qed.

(** Setting one dropdown to the empty line, to its own line, or to a line
    selected nowhere keeps the selections pairwise different. *)
Lemma picked_insert_NoDup (l k : list string) (i : nat) (v : string) :
  NoDup (picked l ++ k) ->
  v = "" \/ l !! i = Some v \/ ~ In v (picked l ++ k) ->
  NoDup (picked (<[i := v]> l) ++ k).
Proof.
  revert i. induction l as [| x l IH]; intros i Hnd Hv; [exact Hnd |].
  assert (Htail : NoDup (picked l ++ k)).
  { simpl in Hnd. destruct (negb (String.eqb x "")); simpl in Hnd; [| exact Hnd].
    now apply NoDup_cons in Hnd as [_ Hnd]. }
  destruct i as [| i]; simpl.
  - destruct (String.eqb v "") eqn:Ev; simpl; [exact Htail |].
    apply String.eqb_neq in Ev.
    destruct Hv as [-> | [Hv | Hv]]; [contradiction | |].
    + injection Hv as ->. simpl in Hnd. apply String.eqb_neq in Ev. now rewrite Ev in Hnd.
    + apply NoDup_cons. split; [| exact Htail]. rewrite list_elem_of_In.
      intros Hin. apply Hv. simpl. destruct (negb (String.eqb x "")); simpl; auto.
  - assert (Hv' : v = "" \/ l !! i = Some v \/ ~ In v (picked l ++ k)).
    { destruct Hv as [-> | [Hv | Hv]]; auto. right. right. intros Hin. apply Hv.
      simpl. destruct (negb (String.eqb x "")); simpl; auto. }
    specialize (IH i Htail Hv').
    destruct (String.eqb x "") eqn:Ex; simpl; [exact IH |].
    apply NoDup_cons. split; [| exact IH].
    simpl in Hnd. rewrite Ex in Hnd. simpl in Hnd. apply NoDup_cons in Hnd as [Hx _].
    rewrite list_elem_of_In in *. intros Hin. apply in_app_or in Hin as [Hin | Hin].
    + apply picked_insert_In in Hin as [-> | Hin]; [| apply Hx, in_or_app; now left].
      apply String.eqb_neq in Ex.
      destruct Hv as [-> | [Hv | Hv]]; [contradiction | |].
      * apply Hx, in_or_app. left. apply picked_In. split; [| exact Ex].
        apply list_elem_of_In. eapply list_elem_of_lookup_2. exact Hv.
      * apply Hv. simpl. apply String.eqb_neq in Ex. rewrite Ex. simpl. now left.
    + apply Hx, in_or_app. now right.
Qed.

Lemma NoDup_app_swap {A : Type} (l k : list A) : NoDup (l ++ k) -> NoDup (k ++ l).
Proof.
  rewrite !NoDup_app. intros (H1 & H2 & H3). split; [exact H3 |]. split; [| exact H1].
  intros x Hx Hl. exact (H2 x Hl Hx).
Qed.

Lemma taken_insert_NoDup (team : team_id) (i : nat) (v : string) (a : app) (sel : list string) :
  no_double_selection a ->
  v = "" \/ vars_of team a !! i = Some v \/ ~ In v (taken a) ->
  no_double_selection
    (refreshed (set_selections team sel (set_vars team (<[i := v]> (vars_of team a)) a))).
Proof.
  unfold no_double_selection, taken. intros Hnd Hv. destruct team; simpl in *.
  - now apply picked_insert_NoDup.
  - apply NoDup_app_swap. apply picked_insert_NoDup; [now apply NoDup_app_swap |].
    destruct Hv as [Hv | [Hv | Hv]]; auto. right. right. intros Hin. apply Hv.
    apply in_app_or in Hin. apply in_or_app. tauto.
Qed.

Lemma available_In (all_warriors tk : list string) (cur v : string) :
  In v (available all_warriors tk cur) ->
  v = "" \/ v = cur \/ ~ In v tk.
Proof.
  unfold available. intros [<- | H]; [now left |]. right.
  apply filter_In in H as [_ H]. apply orb_true_iff in H as [H | H].
  - right. intros Hin. apply negb_true_iff in H.
    assert (existsb (String.eqb v) tk = true); [| congruence].
    apply existsb_exists. exists v. split; [exact Hin | apply String.eqb_refl].
  - left. now apply String.eqb_eq.
Qed.

Lemma choose_warrior_invariant (team : team_id) (i : nat) (v : string) (a a' : app) :
  tab_invariant a ->
  offered a (ChooseWarrior team i v) ->
  set_warrior_var team i v a = Some a' ->
  tab_invariant a'.
Proof.
  intros (Hs & Hnd & all & Hval) (values & Hlook & Hin) Hset.
  assert (Hi : (i < 3)%nat).
  { apply lookup_lt_Some in Hlook. destruct Hs as (_ & _ & _ & _ & H5 & H6).
    destruct team; simpl in Hlook; lia. }
  destruct (set_warrior_var_spec team i v a Hs Hi) as [sel Hspec].
  rewrite Hspec in Hset. injection Hset as <-.
  split; [| split].
  - apply three_slots_refreshed. destruct Hs as (H1 & H2 & H3 & H4 & H5 & H6).
    unfold three_slots. destruct team; simpl; rewrite ?length_insert; auto 6.
  - apply taken_insert_NoDup; [exact Hnd |].
    assert (Hcur : exists cur, vars_of team a !! i = Some cur /\
                               values = available all (taken a) cur).
    { destruct Hval as [V1 V2]. destruct team; simpl in *.
      - rewrite V1 in Hlook. change (map ?f ?l !! i) with (fmap f l !! i) in Hlook.
        rewrite list_lookup_fmap in Hlook.
        destruct (team1_vars a !! i) as [cur |]; [| discriminate].
        injection Hlook as <-. now exists cur.
      - rewrite V2 in Hlook. change (map ?f ?l !! i) with (fmap f l !! i) in Hlook.
        rewrite list_lookup_fmap in Hlook.
        destruct (team2_vars a !! i) as [cur |]; [| discriminate].
        injection Hlook as <-. now exists cur. }
    destruct Hcur as (cur & Hcur & ->).
    apply available_In in Hin as [-> | [-> | Hin]]; auto.
  - exists (map label (warriors a)).
    split; reflexivity.
Qed.

Lemma three_slots_cases (a : app) :
  three_slots a ->
  exists x0 x1 x2 y0 y1 y2 i0 i1 i2 j0 j1 j2 p0 p1 p2 q0 q1 q2,
    a = {| warriors := warriors a; items := items a; battle_type := battle_type a;
           team1_vars := [x0; x1; x2]; team2_vars := [y0; y1; y2];
           team1_item_vars := [i0; i1; i2]; team2_item_vars := [j0; j1; j2];
           team1_selections := team1_selections a;
           team2_selections := team2_selections a;
           team1_values := [p0; p1; p2]; team2_values := [q0; q1; q2];
           item_list := item_list a; result_text := result_text a |}.
Proof.
  intros (H1 & H2 & H3 & H4 & H5 & H6).
  destruct a as [ws its mode v1 v2 iv1 iv2 s1 s2 d1 d2 il rt]. simpl in *.
  apply three_list in H1 as (x0 & x1 & x2 & ->). apply three_list in H2 as (y0 & y1 & y2 & ->).
  apply three_list in H3 as (i0 & i1 & i2 & ->). apply three_list in H4 as (j0 & j1 & j2 & ->).
  apply three_list in H5 as (p0 & p1 & p2 & ->). apply three_list in H6 as (q0 & q1 & q2 & ->).
  now exists x0, x1, x2, y0, y1, y2, i0, i1, i2, j0, j1, j2, p0, p1, p2, q0, q1, q2.
Qed.

(** [update_battle_mode]: the variables of the visible dropdowns are
    emptied, the others are left as they are, the selection lists are
    emptied and the dropdowns computed anew. *)
Lemma update_battle_mode_spec (a : app) :
  three_slots a ->
  update_battle_mode a
  = Some (refreshed
            (set_selections Team1 []
               (set_selections Team2 []
                  (set_item_vars Team1 (cleared (required_warriors a) (team1_item_vars a))
                     (set_item_vars Team2 (cleared (required_warriors a) (team2_item_vars a))
                        (set_vars Team1 (cleared (required_warriors a) (team1_vars a))
                           (set_vars Team2 (cleared (required_warriors a) (team2_vars a))
                              a))))))).
Proof.
  intros Hs. apply three_slots_cases in Hs
    as (x0 & x1 & x2 & y0 & y1 & y2 & i0 & i1 & i2 & j0 & j1 & j2 &
        p0 & p1 & p2 & q0 & q1 & q2 & ->).
  unfold update_battle_mode, required_warriors. cbn [battle_type].
  destruct (String.eqb _ "3v3"); reflexivity.
Qed.

Lemma load_simulation_warriors_spec (ws : list warrior) (its : list item) (a : app) :
  three_slots a ->
  load_simulation_warriors ws its a
  = Some (set_item_list ("" :: map i_name its)
            (refreshed
               (set_item_vars Team2 [""; ""; ""]
                  (set_item_vars Team1 [""; ""; ""]
                     (set_selections Team2 [""; ""; ""]
                        (set_selections Team1 [""; ""; ""]
                           (set_vars Team2 [""; ""; ""]
                              (set_vars Team1 [""; ""; ""]
                                 (set_lists ws its (set_result_text None a)))))))))).
Proof.
  intros Hs. apply three_slots_cases in Hs
    as (x0 & x1 & x2 & y0 & y1 & y2 & i0 & i1 & i2 & j0 & j1 & j2 &
        p0 & p1 & p2 & q0 & q1 & q2 & ->).
  reflexivity.
Qed.

Lemma picked_app (l k : list string) : picked (l ++ k) = picked l ++ picked k.
Proof. unfold picked. apply List.filter_app. Qed.

Lemma picked_blank (l : list string) : picked (map (fun _ => "") l) = [].
Proof. induction l as [| x l IH]; [reflexivity | exact IH]. Qed.

Lemma picked_cleared (n : nat) (vars : list string) :
  picked (cleared n vars) = picked (drop n vars).
Proof. unfold cleared. now rewrite picked_app, picked_blank. Qed.

Lemma picked_drop_NoDup (n m : nat) (l k : list string) :
  NoDup (picked l ++ picked k) -> NoDup (picked (drop n l) ++ picked (drop m k)).
Proof.
  intros H.
  rewrite <- (take_drop n l), <- (take_drop m k), !picked_app in H.
  apply NoDup_app in H as (H1 & H2 & H3).
  apply NoDup_app in H1 as (_ & _ & H1). apply NoDup_app in H3 as (_ & _ & H3).
  apply NoDup_app. split; [exact H1 |]. split; [| exact H3].
  intros x Hx Hk. apply (H2 x); apply elem_of_app; now right.
Qed.

Lemma length_cleared (n : nat) (vars : list string) : length (cleared n vars) = length vars.
Proof.
  unfold cleared. rewrite length_app, length_map, length_take, length_drop. lia.
Qed.

Lemma perform_invariant (act : action) (a a' : app) :
  tab_invariant a -> offered a act -> perform act a = Some a' -> tab_invariant a'.
Proof.
  intros Hinv Hoff Hperf. destruct act as [team i v | team i v | mode | ws its | rand | ws its];
    cbn [perform] in Hperf.
  - eapply choose_warrior_invariant; eauto.
  - destruct Hinv as (Hs & Hnd & all & Hval). unfold set_item_var in Hperf.
    destruct (i <? _)%nat; [| discriminate]. injection Hperf as <-.
    destruct Hs as (H1 & H2 & H3 & H4 & H5 & H6).
    split; [| split].
    + unfold three_slots. destruct team; simpl; rewrite ?length_insert; auto 6.
    + destruct team; exact Hnd.
    + exists all. destruct team; exact Hval.
  - destruct Hinv as (Hs & Hnd & _).
    rewrite update_battle_mode_spec in Hperf by exact Hs. injection Hperf as <-.
    destruct Hs as (H1 & H2 & H3 & H4 & H5 & H6).
    split; [| split].
    + unfold three_slots, refreshed. simpl. rewrite !length_map, !length_cleared. auto 6.
    + unfold no_double_selection. simpl. rewrite !picked_cleared.
      now apply picked_drop_NoDup.
    + eexists. split; reflexivity.
  - destruct Hinv as (Hs & _ & _).
    rewrite load_simulation_warriors_spec in Hperf by exact Hs. injection Hperf as <-.
    split; [| split].
    + repeat split.
    + constructor.
    + eexists. split; reflexivity.
  - injection Hperf as <-. unfold run_simulation.
    repeat match goal with
           | |- context [match ?x with _ => _ end] => destruct x
           end; exact Hinv.
  - injection Hperf as <-. destruct Hinv as (Hs & Hnd & all & Hval).
    split; [exact Hs |]. split; [exact Hnd |]. exists all. exact Hval.
Qed.

Lemma blank_three_slots : three_slots blank.
Proof. repeat split. Qed.

Lemma init_simulation_invariant (ws : list warrior) (its : list item) (a : app) :
  init_simulation ws its = Some a -> tab_invariant a.
Proof.
  unfold init_simulation.
  rewrite load_simulation_warriors_spec by exact blank_three_slots. cbn [mbind option_bind].
  intros H. rewrite update_battle_mode_spec in H by repeat split.
  injection H as <-. split; [| split].
  - repeat split.
  - constructor.
  - eexists. split; reflexivity.
Qed.

Lemma reachable_invariant (a : app) : reachable a -> tab_invariant a.
Proof.
  induction 1 as [ws its a H | a a' act _ IH Hoff Hperf].
  - eapply init_simulation_invariant; eauto.
  - eapply perform_invariant; eauto.
Qed.

Lemma perform_total (act : action) (a : app) :
  tab_invariant a -> offered a act -> exists a' : app, perform act a = Some a'.
Proof.
  intros (Hs & _ & _) Hoff.
  destruct act as [team i v | team i v | mode | ws its | rand | ws its]; cbn [perform].
  - destruct Hoff as (values & Hlook & _).
    assert (Hi : (i < 3)%nat).
    { apply lookup_lt_Some in Hlook. destruct Hs as (_ & _ & _ & _ & H5 & H6).
      destruct team; simpl in Hlook; lia. }
    destruct (set_warrior_var_spec team i v a Hs Hi) as [sel ->]. eauto.
  - destruct Hoff as [Hi _]. unfold set_item_var.
    destruct Hs as (_ & _ & H3 & H4 & _ & _).
    replace (i <? length (item_vars_of team a))%nat with true; [eauto |].
    symmetry. apply Nat.ltb_lt. destruct team; simpl; lia.
  - rewrite update_battle_mode_spec by exact Hs. eauto.
  - rewrite load_simulation_warriors_spec by exact Hs. eauto.
  - eauto.
  - eauto.
Qed.

Lemma build_team_in_range (ws : list warrior) (its : list item)
    (item_vars : list string) (team_selected : list string) :
  forall i : nat,
    (i + length team_selected <= length item_vars)%nat ->
    exists team : list warrior_data,
      build_team ws its item_vars i team_selected = Some team.
Proof.
  induction team_selected as [| sel rest IH]; intros i Hi; [now exists [] |].
  simpl in Hi. cbn [build_team].
  destruct (IH (S i) ltac:(lia)) as [team Hteam].
  destruct (warrior_named _ ws) as [w |]; [| eauto].
  destruct (lookup_lt_is_Some_2 item_vars i ltac:(lia)) as [n Hn].
  rewrite Hn, Hteam. simpl. eauto.
Qed.

Lemma picked_take_length (n : nat) (vars : list string) :
  (length (picked (take n vars)) <= n)%nat.
Proof.
  unfold picked.
  pose proof (List.filter_length_le (fun v => negb (String.eqb v "")) (take n vars)) as H.
  rewrite length_take in H. lia.
Qed.

(** With three item variables on each side, the loops of [run_simulation]
    never index them out of range. *)
Lemma run_simulation_in_range (a : app) (rand : random_source) :
  length (team1_item_vars a) = 3%nat ->
  length (team2_item_vars a) = 3%nat ->
  snd (run_simulation a rand) <> Failed IndexError.
Proof.
  intros L1 L2. unfold run_simulation.
  pose proof (required_warriors_cases a) as Hreq.
  pose proof (picked_take_length (required_warriors a) (team1_vars a)) as P1.
  pose proof (picked_take_length (required_warriors a) (team2_vars a)) as P2.
  destruct (negb _ || negb _); [discriminate |].
  destruct (build_team_in_range (warriors a) (items a) (team1_item_vars a)
              (picked (take (required_warriors a) (team1_vars a))) 0 ltac:(lia))
    as [team1 ->].
  destruct (build_team_in_range (warriors a) (items a) (team2_item_vars a)
              (picked (take (required_warriors a) (team2_vars a))) 0 ltac:(lia))
    as [team2 ->].
  destruct (simulate_battle team1 team2 rand); discriminate.
Qed.

(** X10. In every state the simulation tab can reach -- from its start,
    by choosing offered lines and items, switching the battle type,
    refreshing the lists, starting battles, or changing the rows on the
    other tabs -- no warrior line is selected in two dropdowns, of the same
    team or of both; every line a warrior dropdown offers is the empty
    line, the dropdown's own selection, or a line selected nowhere; and
    no list is ever indexed out of range: every offered action goes
    through, and a click on "Start Battle" never ends with IndexError. *)
Theorem no_warrior_selected_twice (a : app) :
  reachable a ->
  NoDup (picked (team1_vars a) ++ picked (team2_vars a)) /\
  (forall (team : team_id) (i : nat) (values : list string) (v : string),
      values_of team a !! i = Some values -> In v values ->
      v = "" \/ vars_of team a !! i = Some v \/
      ~ In v (picked (team1_vars a) ++ picked (team2_vars a))) /\
  (forall act : action, offered a act -> exists a' : app, perform act a = Some a') /\
  (forall rand : random_source, snd (run_simulation a rand) <> Failed IndexError).
Proof.
  intros H. apply reachable_invariant in H. pose proof H as (Hs & Hnd & all & V1 & V2).
  split; [exact Hnd |].
  split; [| split;
            [intros act; now apply perform_total
            | intros rand; destruct Hs as (_ & _ & H3 & H4 & _ & _);
              now apply run_simulation_in_range]].
  - intros team i values v Hlook Hin.
    assert (Hcur : exists cur, vars_of team a !! i = Some cur /\
                               values = available all (taken a) cur).
    { destruct team; simpl in *.
      - rewrite V1 in Hlook. change (map ?f ?l !! i) with (fmap f l !! i) in Hlook.
        rewrite list_lookup_fmap in Hlook.
        destruct (team1_vars a !! i) as [cur |]; [| discriminate].
        injection Hlook as <-. now exists cur.
      - rewrite V2 in Hlook. change (map ?f ?l !! i) with (fmap f l !! i) in Hlook.
        rewrite list_lookup_fmap in Hlook.
        destruct (team2_vars a !! i) as [cur |]; [| discriminate].
        injection Hlook as <-. now exists cur. }
    destruct Hcur as (cur & Hcur & ->).
    apply available_In in Hin as [-> | [-> | Hin]]; auto.
Qed.

Lemma no_warrior_selected_twice_witness :
  NoDup (picked (team1_vars (after [ChooseWarrior Team1 0 (label bob)]
                               (init_simulation [bob; ann] []))) ++
         picked (team2_vars (after [ChooseWarrior Team1 0 (label bob)]
                               (init_simulation [bob; ann] [])))) /\
  (forall (team : team_id) (i : nat) (values : list string) (v : string),
      values_of team (after [ChooseWarrior Team1 0 (label bob)]
                        (init_simulation [bob; ann] [])) !! i = Some values ->
      In v values ->
      v = "" \/
      vars_of team (after [ChooseWarrior Team1 0 (label bob)]
                      (init_simulation [bob; ann] [])) !! i = Some v \/
      ~ In v (picked (team1_vars (after [ChooseWarrior Team1 0 (label bob)]
                                    (init_simulation [bob; ann] []))) ++
              picked (team2_vars (after [ChooseWarrior Team1 0 (label bob)]
                                    (init_simulation [bob; ann] []))))) /\
  (forall act : action,
      offered (after [ChooseWarrior Team1 0 (label bob)]
                 (init_simulation [bob; ann] [])) act ->
      exists a' : app,
        perform act (after [ChooseWarrior Team1 0 (label bob)]
                       (init_simulation [bob; ann] [])) = Some a') /\
  (forall rand : random_source,
      snd (run_simulation (after [ChooseWarrior Team1 0 (label bob)]
                             (init_simulation [bob; ann] [])) rand)
      <> Failed IndexError).
Proof.
  apply (no_warrior_selected_twice
           (after [ChooseWarrior Team1 0 (label bob)] (init_simulation [bob; ann] []))).
  apply (reachable_step (after [] (init_simulation [bob; ann] [])) _
           (ChooseWarrior Team1 0 (label bob))).
  - apply (reachable_init [bob; ann] []). vm_compute. reflexivity.
  - vm_compute. eexists. split; [reflexivity |]. right. left. reflexivity.
  - vm_compute. reflexivity.
Defined.

(** * Switching the battle type, refreshing the lists *)

Lemma required_warriors_set_battle_type (mode : string) (a : app) :
  required_warriors (set_battle_type mode a) = required_for mode.
Proof. reflexivity. Qed.

Lemma picked_take_cleared (n : nat) (vars : list string) :
  (n <= length vars)%nat -> picked (take n (cleared n vars)) = [].
Proof.
  intros Hn. unfold cleared. rewrite take_app_le by (rewrite length_map, length_take; lia).
  rewrite firstn_all2 by (rewrite length_map, length_take; lia).
  apply picked_blank.
Qed.

Lemma required_for_cases (mode : string) :
  required_for mode = 1%nat \/ required_for mode = 3%nat.
Proof. unfold required_for. destruct (String.eqb _ _); auto. Qed.

Lemma perform_choose_mode (mode : string) (a : app) :
  three_slots a -> perform (ChooseMode mode) a = Some (switched mode a).
Proof.
  intros Hs. cbn [perform].
  assert (Hs' : three_slots (set_battle_type mode a)) by exact Hs.
  rewrite (update_battle_mode_spec _ Hs'). reflexivity.
Qed.

(** With nothing selected in the visible dropdowns of team 1 the click
    ends with the error box. *)
Lemma run_simulation_nothing_selected (a : app) (rand : random_source) :
  picked (take (required_warriors a) (team1_vars a)) = [] ->
  run_simulation a rand = (set_result_text None a, ErrorBox).
Proof.
  intros H. unfold run_simulation. rewrite H.
  destruct (required_warriors_cases a) as [-> | ->]; reflexivity.
Qed.

Lemma switched_values (mode : string) (a : app) (team : team_id) (i : nat)
    (values : list string) :
  values_of team (switched mode a) !! i = Some values ->
  exists cur : string,
    cleared (required_for mode) (vars_of team a) !! i = Some cur /\
    values = available (map label (warriors a))
               (picked (cleared (required_for mode) (team1_vars a)) ++
                picked (cleared (required_for mode) (team2_vars a))) cur.
Proof.
  intros Hlook.
  assert (Hv : values_of team (switched mode a)
               = map (available (map label (warriors a))
                        (picked (cleared (required_for mode) (team1_vars a)) ++
                         picked (cleared (required_for mode) (team2_vars a))))
                     (cleared (required_for mode) (vars_of team a))).
  { destruct team; reflexivity. }
  rewrite Hv in Hlook. change (map ?f ?l !! i) with (fmap f l !! i) in Hlook.
  rewrite list_lookup_fmap in Hlook.
  destruct (cleared _ _ !! i) as [cur |]; [| discriminate].
  injection Hlook as <-. now exists cur.
Qed.

(** X11. Choosing a battle type empties the warrior and item variables of
    the dropdowns that the type shows (the first one for 1v1, all three
    for 3v3) and leaves the others as they are; so right after it a click
    on "Start Battle" ends with the error box, whatever was selected
    before, and a line that stays selected in a hidden dropdown is not
    offered by any visible one. *)
Theorem mode_switch_empties_visible (a : app) (mode : string) :
  three_slots a ->
  exists a' : app,
    perform (ChooseMode mode) a = Some a' /\
    battle_type a' = mode /\
    team1_vars a' = cleared (required_for mode) (team1_vars a) /\
    team2_vars a' = cleared (required_for mode) (team2_vars a) /\
    team1_item_vars a' = cleared (required_for mode) (team1_item_vars a) /\
    team2_item_vars a' = cleared (required_for mode) (team2_item_vars a) /\
    (forall rand : random_source,
        run_simulation a' rand = (set_result_text None a', ErrorBox)) /\
    (forall (v : string) (team : team_id) (i : nat) (values : list string),
        In v (drop (required_for mode) (team1_vars a) ++
              drop (required_for mode) (team2_vars a)) ->
        v <> "" -> (i < required_for mode)%nat ->
        values_of team a' !! i = Some values -> ~ In v values).
Proof.
  intros Hs. exists (switched mode a).
  split; [now apply perform_choose_mode |].
  destruct Hs as (H1 & H2 & H3 & H4 & H5 & H6).
  pose proof (required_for_cases mode) as Hreq.
  split; [reflexivity |]. split; [reflexivity |]. split; [reflexivity |].
  split; [reflexivity |]. split; [reflexivity |]. split.
  - intros rand. apply run_simulation_nothing_selected.
    change (picked (take (required_for mode)
                      (cleared (required_for mode) (team1_vars a))) = []).
    apply picked_take_cleared. lia.
  - intros v team i values Hin Hne Hi Hlook Hv.
    assert (Htaken : In v (picked (cleared (required_for mode) (team1_vars a)) ++
                           picked (cleared (required_for mode) (team2_vars a)))).
    { rewrite !picked_cleared. apply in_app_or in Hin. apply in_or_app.
      destruct Hin as [Hin | Hin]; [left | right]; apply picked_In; auto. }
    apply switched_values in Hlook as (cur & Hcur & ->).
    assert (Hempty : cur = "").
    { unfold cleared in Hcur. rewrite lookup_app_l in Hcur.
      - change (map ?f ?l !! i) with (fmap f l !! i) in Hcur.
        rewrite list_lookup_fmap in Hcur. destruct (take _ _ !! i); [| discriminate].
        now injection Hcur as <-.
      - rewrite length_map, length_take. destruct team; simpl; lia. }
    subst cur. apply available_In in Hv as [-> | [-> | Hv]]; auto.
Qed.

Lemma mode_switch_empties_visible_witness :
  exists a' : app,
    perform (ChooseMode "1v1")
      (tab_3v3 [bob; ann] [label bob; ""; ""] [""; label ann; ""]) = Some a' /\
    battle_type a' = "1v1" /\
    team1_vars a' = [""; ""; ""] /\
    team2_vars a' = [""; label ann; ""] /\
    (forall rand : random_source,
        run_simulation a' rand = (set_result_text None a', ErrorBox)) /\
    (forall values : list string,
        values_of Team1 a' !! 0%nat = Some values -> ~ In (label ann) values).
Proof.
  destruct (mode_switch_empties_visible
              (tab_3v3 [bob; ann] [label bob; ""; ""] [""; label ann; ""]) "1v1")
    as (a' & Hp & Hm & H1 & H2 & _ & _ & Hr & Hv).
  - repeat split.
  - exists a'. split; [exact Hp |]. split; [exact Hm |]. split; [exact H1 |].
    split; [exact H2 |]. split; [exact Hr |].
    intros values Hl. apply (Hv (label ann) Team1 0%nat values); try exact Hl.
    + simpl. auto.
    + discriminate.
    + compute. lia.
Defined.

Lemma filter_all {A : Type} (f : A -> bool) (l : list A) :
  (forall x : A, f x = true) -> List.filter f l = l.
Proof.
  intros Hf. induction l as [| x l IH]; [reflexivity |]. simpl. now rewrite Hf, IH.
Qed.

(** X12. "Refresh Lists" takes the rows of the two files, empties every
    warrior and item variable and the result box, and makes every warrior
    dropdown offer the empty line followed by the lines of all the loaded
    warriors, in the order of the file, and every item dropdown the empty
    line followed by the names of all the loaded items; a battle cannot be
    started before warriors are selected again. *)
Theorem refresh_resets_selection (ws : list warrior) (its : list item) (a : app) :
  three_slots a ->
  exists a' : app,
    load_simulation_warriors ws its a = Some a' /\
    warriors a' = ws /\ items a' = its /\ battle_type a' = battle_type a /\
    team1_vars a' = [""; ""; ""] /\ team2_vars a' = [""; ""; ""] /\
    team1_item_vars a' = [""; ""; ""] /\ team2_item_vars a' = [""; ""; ""] /\
    Forall (fun values => values = "" :: map label ws) (team1_values a' ++ team2_values a') /\
    item_list a' = "" :: map i_name its /\
    result_text a' = None /\
    forall rand : random_source, snd (run_simulation a' rand) = ErrorBox.
Proof.
  intros Hs. rewrite (load_simulation_warriors_spec ws its a Hs).
  eexists. split; [reflexivity |].
  repeat (split; [reflexivity |]). split; [| split; [reflexivity | split; [reflexivity |]]].
  - assert (Hav : available (map label ws) [] "" = "" :: map label ws).
    { unfold available. f_equal. apply filter_all. reflexivity. }
    change (Forall (fun values => values = "" :: map label ws)
                   (replicate 6 (available (map label ws) [] ""))).
    rewrite Hav. repeat constructor.
  - intros rand. unfold run_simulation, required_warriors.
    cbn [battle_type team1_vars team2_vars refreshed set_values set_item_list
         set_item_vars set_selections set_vars set_lists set_result_text].
    destruct (String.eqb (battle_type a) "3v3"); reflexivity.
Qed.

Lemma refresh_resets_selection_witness :
  exists a' : app,
    load_simulation_warriors [bob; ann] [lead_boots]
      (tab_3v3 [bob] [label bob; ""; ""] [""; ""; ""]) = Some a' /\
    warriors a' = [bob; ann] /\ items a' = [lead_boots] /\ battle_type a' = "3v3" /\
    team1_vars a' = [""; ""; ""] /\ team2_vars a' = [""; ""; ""] /\
    team1_item_vars a' = [""; ""; ""] /\ team2_item_vars a' = [""; ""; ""] /\
    Forall (fun values => values = "" :: map label [bob; ann])
           (team1_values a' ++ team2_values a') /\
    item_list a' = "" :: map i_name [lead_boots] /\
    result_text a' = None /\
    forall rand : random_source, snd (run_simulation a' rand) = ErrorBox.
Proof.
  apply (refresh_resets_selection [bob; ann] [lead_boots]
           (tab_3v3 [bob] [label bob; ""; ""] [""; ""; ""])).
  repeat split.
Defined.
